(** * NetSuite to Supabase sync: the reconciliation engine, embedded and verified

    The development follows the layout of the repository:

    - [JS]: the fragment of JavaScript the engine relies on (Numbers as
      binary64 values, [parseInt], [parseFloat], number printing, values
      and truthiness, property lookup through [Object.prototype], the two
      regular expressions);
    - [Effects]: exceptions and state, the monad the asynchronous code
      runs in (every [await] is sequential, so an async function is a
      state transformer that may throw);
    - [World]: the remote source and the store, known through the calls
      made to them;
    - [Config]: the entries of the mapping catalog;
    - [Netsuite] and [NetsuiteLambda]: the two source readers,
      [src/netsuite/client.js] and its packaged variant;
    - [Chunks], [Supabase] and [SupabaseLambda]: the two destination
      writers, [src/supabase/client.js] and
      [lambda-package/src/supabase/client.js];
    - [Sync]: [lambda-package/src/sync.js], normalizer, conflict keys and
      orchestrator; [Package] wires it to the packaged clients;
    - the vocabulary of the properties, then the properties, one group per
      component. *)

From Stdlib Require Import ZArith QArith Qround Qabs Ascii String List Lia Bool.
From stdpp Require Import base option list strings pretty gmap.

Local Open Scope string_scope.
Local Open Scope Z_scope.

(* ===================================================================== *)
(** * The JavaScript fragment *)
(* ===================================================================== *)

Module JS.

(** ** Numbers

    A JavaScript Number is an IEEE binary64 value.  A finite one is
    carried as the rational it denotes, in lowest terms; the two zeros are
    not told apart (the code under study only tests them for truthiness and
    prints them, and both zeros are falsy and print as "0"). *)

Inductive Num : Type :=
  | NaN
  | Inf (negative : bool)
  | Fin (q : Q).

Definition pow2 (e : Z) : Q :=
  if 0 <=? e then inject_Z (2 ^ e) else 1 / inject_Z (2 ^ (- e)).

(** [floor_log2 a b] is the integer [l] with [2^l <= a/b < 2^(l+1)], for
    positive [a] and [b]. *)
Definition floor_log2 (a b : Z) : Z :=
  let l := Z.log2 a - Z.log2 b in
  if Qle_bool (pow2 l) (a # Z.to_pos b) then l else l - 1.

(** Round half to even of a non-negative rational. *)
Definition round_half_even (q : Q) : Z :=
  let f := Qfloor q in
  let r := Qminus q (inject_Z f) in
  match Qcompare r (1 # 2) with
  | Lt => f
  | Gt => f + 1
  | Eq => if Z.even f then f else f + 1
  end.

(** The binary64 value nearest to a positive rational: 53 significant
    bits, exponents no smaller than -1074 (subnormals), overflow to
    infinity from 2^1024 on. *)
Definition round_pos (q : Q) : Num :=
  let e := Z.max (floor_log2 (Qnum q) (Zpos (Qden q)) - 52) (-1074) in
  let m := round_half_even (Qdiv q (pow2 e)) in
  let v := Qred (Qmult (inject_Z m) (pow2 e)) in
  if Qle_bool (pow2 1024) v then Inf false else Fin v.

Definition neg_num (n : Num) : Num :=
  match n with
  | NaN => NaN
  | Inf b => Inf (negb b)
  | Fin q => Fin (Qred (Qopp q))
  end.

(** The Number value for a mathematical value. *)
Definition to_double (q : Q) : Num :=
  match Qcompare q 0 with
  | Eq => Fin 0
  | Gt => round_pos q
  | Lt => neg_num (round_pos (Qopp q))
  end.


(** ToBoolean on a Number: false for NaN and the zeros. *)
Definition num_truthy (n : Num) : bool :=
  match n with
  | NaN => false
  | Inf _ => true
  | Fin q => negb (Qeq_bool q 0)
  end.

Definition num_of_nat (n : nat) : Num := to_double (inject_Z (Z.of_nat n)).

(** ** Characters and strings

    Strings are carried in UTF-8, one [ascii] per byte.  The white space
    that [parseInt] and [parseFloat] skip is the JavaScript class
    StrWhiteSpaceChar: TAB, LF, VT, FF, CR and SP, which are one byte
    each, and NBSP (U+00A0), U+1680, U+2000 to U+200A, the line and
    paragraph separators U+2028 and U+2029, U+202F, U+205F, U+3000 and
    the byte order mark U+FEFF, which are two or three bytes. *)

Definition code (c : ascii) : Z := Z.of_nat (nat_of_ascii c).

Definition is_digit (c : ascii) : bool := (48 <=? code c) && (code c <=? 57).
Definition is_upper (c : ascii) : bool := (65 <=? code c) && (code c <=? 90).
Definition is_lower (c : ascii) : bool := (97 <=? code c) && (code c <=? 122).
Definition is_space (c : ascii) : bool :=
  ((9 <=? code c) && (code c <=? 13)) || (code c =? 32).

Definition digit_val (c : ascii) : Z := code c - 48.

(** U+00A0 is C2 A0. *)
Definition is_space2 (a b : ascii) : bool := (code a =? 194) && (code b =? 160).

(** U+1680 is E1 9A 80; U+2000 to U+200A, U+2028, U+2029 and U+202F are
    E2 80 followed by 80 to 8A, A8, A9 and AF; U+205F is E2 81 9F; U+3000
    is E3 80 80; U+FEFF is EF BB BF. *)
Definition is_space3 (a b c : ascii) : bool :=
  ((code a =? 225) && (code b =? 154) && (code c =? 128))
  || ((code a =? 226) && (code b =? 128)
      && (((128 <=? code c) && (code c <=? 138))
          || (code c =? 168) || (code c =? 169) || (code c =? 175)))
  || ((code a =? 226) && (code b =? 129) && (code c =? 159))
  || ((code a =? 227) && (code b =? 128) && (code c =? 128))
  || ((code a =? 239) && (code b =? 187) && (code c =? 191)).

Fixpoint trim_start (s : string) : string :=
  match s with
  | String a r =>
      if is_space a then trim_start r
      else
        match r with
        | String b r1 =>
            if is_space2 a b then trim_start r1
            else
              match r1 with
              | String c r2 => if is_space3 a b c then trim_start r2 else s
              | EmptyString => s
              end
        | EmptyString => s
        end
  | EmptyString => s
  end.

(** The longest prefix of decimal digits, and what follows it. *)
Fixpoint span_digits (s : string) : string * string :=
  match s with
  | String c r =>
      if is_digit c then let (d, t) := span_digits r in (String c d, t)
      else (EmptyString, s)
  | EmptyString => (EmptyString, EmptyString)
  end.

Fixpoint digits_value_from (acc : Z) (s : string) : Z :=
  match s with
  | String c r => digits_value_from (10 * acc + digit_val c) r
  | EmptyString => acc
  end.

Definition digits_value (s : string) : Z := digits_value_from 0 s.

(** An optional sign: whether it is a minus, and the remainder. *)
Definition take_sign (s : string) : bool * string :=
  match s with
  | String "-" r => (true, r)
  | String "+" r => (false, r)
  | _ => (false, s)
  end.

Definition signed (negative : bool) (n : Num) : Num :=
  if negative then neg_num n else n.

(** [parseInt(s, 10)]: skip white space, read a sign, read the longest
    run of decimal digits; NaN when there is none.  With an explicit
    radix of 10 no "0x" prefix is recognised. *)
Definition parseInt (s : string) : Num :=
  let (negative, r) := take_sign (trim_start s) in
  let (d, _) := span_digits r in
  match d with
  | EmptyString => NaN
  | _ => signed negative (to_double (inject_Z (digits_value d)))
  end.

Fixpoint starts_with (p s : string) : bool :=
  match p, s with
  | EmptyString, _ => true
  | String a p', String b s' => if Ascii.eqb a b then starts_with p' s' else false
  | String _ _, EmptyString => false
  end.

(** The exponent part [e], [e+] or [e-] followed by at least one digit;
    0 when the text does not continue with one. *)
Definition exponent_part (s : string) : Z :=
  match s with
  | String c r =>
      if Ascii.eqb c "e" || Ascii.eqb c "E" then
        let (negative, r') := take_sign r in
        let (d, _) := span_digits r' in
        match d with
        | EmptyString => 0
        | _ => if negative then - digits_value d else digits_value d
        end
      else 0
  | EmptyString => 0
  end.

Definition pow10 (e : Z) : Q :=
  if 0 <=? e then inject_Z (10 ^ e) else 1 / inject_Z (10 ^ (- e)).

(** [parseFloat(s)]: skip white space, then the longest prefix that is a
    decimal literal: sign, then [Infinity], or digits with an optional
    fraction and exponent, or a fraction with at least one digit. *)
Definition parseFloat (s : string) : Num :=
  let (negative, r) := take_sign (trim_start s) in
  if starts_with "Infinity" r then Inf negative
  else
    let (ip, r1) := span_digits r in
    let (fp, r2) :=
      match r1 with
      | String "." r1' => span_digits r1'
      | _ => (EmptyString, r1)
      end in
    match ip, fp with
    | EmptyString, EmptyString => NaN
    | _, _ =>
        let mant := digits_value (ip ++ fp) in
        let e := exponent_part r2 - Z.of_nat (String.length fp) in
        signed negative (to_double (Qmult (inject_Z mant) (pow10 e)))
    end.

(** ** Printing a Number

    [Number::toString] in radix 10: among the decimal numerals
    [s * 10^(n-k)] with [k] digits that denote the Number, take [k] minimal
    and, for that [k], the numeral closest to the value (the even [s] on a
    tie); lay the digits out positionally when [-6 < n <= 21] and in
    exponent notation otherwise. *)

Fixpoint count_digits (fuel : nat) (z : Z) : Z :=
  match fuel with
  | O => 0
  | S f => if z <=? 0 then 0 else 1 + count_digits f (z / 10)
  end.

Definition num_digits (z : Z) : Z := count_digits (S (Z.to_nat (Z.log2 z))) z.

(** The [n] with [10^(n-1) <= q < 10^n], for positive [q]. *)
Definition decimal_exponent (q : Q) : Z :=
  let g := num_digits (Qnum q) - num_digits (Zpos (Qden q)) in
  if Qle_bool (pow10 g) q then g + 1 else g.

Definition same_num (a b : Num) : bool :=
  match a, b with
  | NaN, NaN => true
  | Inf x, Inf y => Bool.eqb x y
  | Fin x, Fin y => Qeq_bool x y
  | _, _ => false
  end.

(** A candidate numeral [(s, n)] with [k] digits, normalised when rounding
    up reached [10^k]. *)
Definition candidate (k s n : Z) : Z * Z :=
  if s =? 10 ^ k then (10 ^ (k - 1), n + 1) else (s, n).

Definition denotes (v : Q) (k : Z) (c : Z * Z) : bool :=
  let (s, n) := c in
  (10 ^ (k - 1) <=? s) && same_num (to_double (Qmult (inject_Z s) (pow10 (n - k)))) (Fin v).

Definition distance (v : Q) (k : Z) (c : Z * Z) : Q :=
  let (s, n) := c in Qabs (Qminus (Qmult (inject_Z s) (pow10 (n - k))) v).

(** The numerals of [k] digits that denote [v], closest first. *)
Definition numerals (v : Q) (n k : Z) : option (Z * Z) :=
  let lo := Qfloor (Qdiv v (pow10 (n - k))) in
  let c1 := candidate k lo n in
  let c2 := candidate k (lo + 1) n in
  match denotes v k c1, denotes v k c2 with
  | false, false => None
  | true, false => Some c1
  | false, true => Some c2
  | true, true =>
      match Qcompare (distance v k c1) (distance v k c2) with
      | Lt => Some c1
      | Gt => Some c2
      | Eq => if Z.even (fst c1) then Some c1 else Some c2
      end
  end.

Fixpoint shortest_from (fuel : nat) (v : Q) (n k : Z) : Z * Z * Z :=
  match fuel with
  | O => (k, Qfloor v, n)
  | S f =>
      match numerals v n k with
      | Some (s, n') => (k, s, n')
      | None => shortest_from f v n (k + 1)
      end
  end.

(** [(k, s, n)] for a positive Number; seventeen digits always suffice. *)
Definition shortest (v : Q) : Z * Z * Z :=
  shortest_from 17 v (decimal_exponent v) 1.

Fixpoint zeros (n : nat) : string :=
  match n with
  | O => EmptyString
  | S m => String "0" (zeros m)
  end.

Definition take_str (n : Z) (s : string) : string := String.substring 0 (Z.to_nat n) s.
Definition drop_str (n : Z) (s : string) : string :=
  String.substring (Z.to_nat n) (String.length s - Z.to_nat n)%nat s.

Definition layout (k s n : Z) : string :=
  let ds := pretty s in
  if (k <=? n) && (n <=? 21) then ds ++ zeros (Z.to_nat (n - k))
  else if (0 <? n) && (n <=? 21) then take_str n ds ++ "." ++ drop_str n ds
  else if (-6 <? n) && (n <=? 0) then "0." ++ zeros (Z.to_nat (- n)) ++ ds
  else
    let e := n - 1 in
    let es := (if 0 <=? e then "+" else "-") ++ pretty (Z.abs e) in
    if k =? 1 then ds ++ "e" ++ es
    else take_str 1 ds ++ "." ++ drop_str 1 ds ++ "e" ++ es.

Definition Number_toString (x : Num) : string :=
  match x with
  | NaN => "NaN"
  | Inf false => "Infinity"
  | Inf true => "-Infinity"
  | Fin q =>
      match Qcompare q 0 with
      | Eq => "0"
      | Gt => let '(k, s, n) := shortest q in layout k s n
      | Lt => let '(k, s, n) := shortest (Qopp q) in "-" ++ layout k s n
      end
  end.

(** ** Values and objects

    The values that flow through the engine: JSON scalars, plus the two
    kinds of value a property read can reach through [Object.prototype]
    (its methods, and the prototype itself under [__proto__]). *)

Inductive Val : Type :=
  | VUndef
  | VNull
  | VBool (b : bool)
  | VNum (n : Num)
  | VStr (s : string)
  | VFun (name : string)
  | VProto.

Definition truthy (v : Val) : bool :=
  match v with
  | VUndef | VNull => false
  | VBool b => b
  | VNum n => num_truthy n
  | VStr s => negb (String.eqb s "")
  | VFun _ | VProto => true
  end.

(** [a || b] *)
Definition or_else (a b : Val) : Val := if truthy a then a else b.

Definition is_string (v : Val) : bool :=
  match v with VStr _ => true | _ => false end.

(** [String(v)], also what a template literal applies to each hole. *)
Definition String_ (v : Val) : string :=
  match v with
  | VUndef => "undefined"
  | VNull => "null"
  | VBool true => "true"
  | VBool false => "false"
  | VNum n => Number_toString n
  | VStr s => s
  | VFun name => "function " ++ name ++ "() { [native code] }"
  | VProto => "[object Object]"
  end.

(** [index + 1] for an array index. *)
Definition succ_index (index : nat) : Val := VNum (num_of_nat (S index)).

(** An object is the finite map of its own properties. *)
Abbreviation Obj := (gmap string Val).

(** The own properties of [Object.prototype]. *)
Definition Object_prototype : Obj :=
  list_to_map
    [ ("constructor", VFun "Object");
      ("__defineGetter__", VFun "__defineGetter__");
      ("__defineSetter__", VFun "__defineSetter__");
      ("hasOwnProperty", VFun "hasOwnProperty");
      ("__lookupGetter__", VFun "__lookupGetter__");
      ("__lookupSetter__", VFun "__lookupSetter__");
      ("isPrototypeOf", VFun "isPrototypeOf");
      ("propertyIsEnumerable", VFun "propertyIsEnumerable");
      ("toString", VFun "toString");
      ("valueOf", VFun "valueOf");
      ("toLocaleString", VFun "toLocaleString");
      ("__proto__", VProto) ].

(** [o[k]] on an object literal or a parsed JSON object: the own
    property, else the one inherited from [Object.prototype], else
    [undefined]. *)
Definition get (o : Obj) (k : string) : Val :=
  match o !! k with
  | Some v => v
  | None => default VUndef (Object_prototype !! k)
  end.

(** [l.slice(i, j)] for [0 <= i <= j] *)
Definition slice {A} (i j : nat) (l : list A) : list A := take (j - i) (drop i l).

(** [Math.max(0, n)] *)
Definition max0 (n : Num) : Num :=
  match n with
  | NaN => NaN
  | Inf true => Fin 0
  | Inf false => n
  | Fin q => if Qle_bool q 0 then Fin 0 else n
  end.

(** [n - 1] *)
Definition pred_num (n : Num) : Num :=
  match n with
  | Fin q => to_double (Qminus q 1)
  | _ => n
  end.

Definition num_of_Z (z : Z) : Num := to_double (inject_Z z).

(** [encodeURIComponent]: every character but the unreserved ones
    becomes a percent sign and two upper-case hexadecimal digits. *)
Definition unreserved (c : ascii) : bool :=
  is_lower c || is_upper c || is_digit c
  || existsb (Ascii.eqb c) ["-"; "_"; "."; "!"; "~"; "*"; "'"; "("; ")"]%char.

Definition hex_digit (n : Z) : ascii :=
  ascii_of_nat (Z.to_nat (if n <? 10 then 48 + n else 55 + n)).

Fixpoint encodeURIComponent (s : string) : string :=
  match s with
  | EmptyString => EmptyString
  | String c r =>
      if unreserved c then String c (encodeURIComponent r)
      else String "%" (String (hex_digit (code c / 16))
                         (String (hex_digit (code c mod 16)) (encodeURIComponent r)))
  end.

(** ** String tests *)

Fixpoint all_chars (p : ascii -> bool) (s : string) : bool :=
  match s with
  | EmptyString => true
  | String c r => p c && all_chars p r
  end.

(** [s.includes(needle)] *)
Fixpoint includes (needle s : string) : bool :=
  starts_with needle s ||
  match s with
  | EmptyString => false
  | String _ r => includes needle r
  end.

(** [s.replace(/,/g, '')] *)
Fixpoint remove_commas (s : string) : string :=
  match s with
  | EmptyString => EmptyString
  | String c r => if Ascii.eqb c "," then remove_commas r else String c (remove_commas r)
  end.

Definition word_char (c : ascii) : bool :=
  is_lower c || is_upper c || is_digit c || Ascii.eqb c "_" || Ascii.eqb c "-".

(** [/^[a-zA-Z0-9_-]+$/.test(s)]; without the [m] flag [$] only matches
    at the end of the input. *)
Definition table_name_re (s : string) : bool :=
  negb (String.eqb s "") && all_chars word_char s.

(** [/^[a-zA-Z0-9_\- ]+$/.test(s)] *)
Definition conflict_column_re (s : string) : bool :=
  negb (String.eqb s "") && all_chars (fun c => word_char c || Ascii.eqb c " ") s.

End JS.

Import JS.

(* ===================================================================== *)
(** * Exceptions and state *)
(* ===================================================================== *)

Module Effects.

(** A thrown value.  [new Error(msg)] has only a message; the errors axios
    rejects with also carry the response it received, or the fact that a
    request went out unanswered. *)
(** [response.data] of such an error, as far as the code looks at it:
    missing, null (reading [message] off either is a TypeError), or any
    other value, with its [message] property. *)
Inductive ErrorBody : Type :=
  | Missing
  | Null
  | Carrying (m : Val).

Record ErrorResponse : Type := mkErrorResponse {
  status : Z;
  statusText : Val;
  data_message : ErrorBody
}.

Record Error : Type := mkError {
  message : string;
  response : option ErrorResponse;
  request : bool
}.

Definition new_Error (msg : string) : Error :=
  {| message := msg; response := None; request := false |}.

(** How an awaited call ends: with a value, with an exception, or not at
    all.  [Pending] is not an exception: no [catch] sees it. *)
Inductive Outcome (A : Type) : Type :=
  | Value (a : A)
  | Thrown (e : Error)
  | Pending.

Arguments Value {A} a.
Arguments Thrown {A} e.
Arguments Pending {A}.

Definition M (S A : Type) : Type := S -> Outcome A * S.

Definition ret {S A} (a : A) : M S A := fun s => (Value a, s).
Definition throw {S A} (e : Error) : M S A := fun s => (Thrown e, s).
Definition never {S A} : M S A := fun s => (Pending, s).

Definition bind {S A B} (m : M S A) (k : A -> M S B) : M S B :=
  fun s =>
    match m s with
    | (Value a, s') => k a s'
    | (Thrown e, s') => (Thrown e, s')
    | (Pending, s') => (Pending, s')
    end.

(** [try { m } catch (error) { handler error }] *)
Definition try_catch {S A} (m : M S A) (handler : Error -> M S A) : M S A :=
  fun s =>
    match m s with
    | (Thrown e, s') => handler e s'
    | r => r
    end.

Definition gets {S A} (f : S -> A) : M S A := fun s => (Value (f s), s).
Definition modify {S} (f : S -> S) : M S unit := fun s => (Value tt, f s).

Declare Scope monad_scope.
Delimit Scope monad_scope with monad.
Notation "x <- m ;; k" := (bind m (fun x => k))
  (at level 100, m at next level, right associativity) : monad_scope.
Notation "m ;;; k" := (bind m (fun _ => k))
  (at level 100, right associativity) : monad_scope.

End Effects.

Import Effects.
Local Open Scope monad_scope.

(* ===================================================================== *)
(** * The outside world *)
(* ===================================================================== *)

(** The two remote parties are known through the calls made to them.  A
    world is the chronological record of those calls; what a party
    answers may depend on everything that happened before. *)

Module World.

(** What [response.data] of a 2xx answer can be: a JSON document (a
    string when the body was text), of which the reader inspects the
    top-level fields [error], [data], [pageIndex], [totalPages],
    [hasMore]. *)
Inductive Data : Type :=
  | NotAnArray (v : Val)          (* absent ([VUndef]), null, or any scalar *)
  | DataArray (rows : list Obj).

Record Payload : Type := mkPayload {
  p_error : Val;
  p_data : Data;
  p_pageIndex : Val;
  p_totalPages : Val;
  p_hasMore : Val
}.

Inductive Json : Type :=
  | JScalar (v : Val)             (* null, a boolean, a number, a string *)
  | JArray                        (* a top-level array: none of the fields *)
  | JObject (p : Payload).

(** An answer with a 2xx status resolves the request; anything else
    rejects it, with the error axios builds ([response] set for another
    status, [request] set when nothing came back, neither when the request
    could not be set up or signed). *)
Inductive HttpReply : Type :=
  | Resolved (status : Z) (data : Json)
  | Rejected (e : Error).

(** The [{data, error, count}] answer of the store, or a rejection. *)
Record StoreError : Type := mkStoreError {
  se_message : string;
  se_code : string;
  se_details : option string
}.

Record StoreAnswer : Type := mkStoreAnswer {
  a_data : option (list Obj);
  a_count : Val;
  a_error : option StoreError
}.

Inductive StoreReply : Type :=
  | Answered (a : StoreAnswer)
  | Refused (e : Error).

(** What [upsert] resolves to: [{ count: 0 }], or
    [{ success: true, recordsProcessed, resultsReturned }], with the
    [results] themselves in the first implementation. *)
Inductive UpsertResult : Type :=
  | NothingUpserted
  | Upserted (recordsProcessed resultsReturned : nat) (results : option (list Obj)).

(** What a caller may pass where an array of records is expected. *)
Inductive Records : Type :=
  | Array (rows : list Obj)
  | NotArray (v : Val).

Inductive Event : Type :=
  | HttpGet (url : string) (reply : HttpReply)
  | Sleep (milliseconds : Z)
  | StoreUpsert (table : string) (chunk : list Obj) (onConflict : Val) (reply : StoreReply)
  | StoreCount (table : string) (reply : StoreReply)
  | StoreSelect (table : string) (reply : StoreReply).

Abbreviation Trace := (list Event).

Record Env : Type := mkEnv {
  http_get : Trace -> string -> HttpReply;
  store_upsert : Trace -> string -> list Obj -> Val -> StoreReply;
  store_count : Trace -> string -> StoreReply;
  store_select : Trace -> string -> StoreReply;
  (** the [index]-th reading of the wall clock since the last call *)
  Date_now : Trace -> nat -> string
}.

(** The urls requested so far, oldest first. *)
Definition requests (t : Trace) : list string :=
  omap (fun e => match e with HttpGet url _ => Some url | _ => None end) t.

(** The chunks sent to the store so far, oldest first. *)
Definition upsert_calls (t : Trace) : list (string * list Obj * Val) :=
  omap (fun e => match e with
                 | StoreUpsert table chunk c _ => Some (table, chunk, c)
                 | _ => None
                 end) t.

(** A chunk is committed when the store answered its upsert without an
    error. *)
Definition committed (t : Trace) : list (string * list Obj) :=
  omap (fun e => match e with
                 | StoreUpsert table chunk _ (Answered a) =>
                     match a_error a with
                     | None => Some (table, chunk)
                     | Some _ => None
                     end
                 | _ => None
                 end) t.

End World.

Import World.

(* ===================================================================== *)
(** * The mapping catalog *)
(* ===================================================================== *)

Module Config.

(** One entry of [mappings/searchToTable.json]. *)
Record Mapping : Type := mkMapping {
  searchId : string;
  type : string;
  name : string;
  table : string;
  method : string;
  (** not required by the loader; [VUndef] when the entry has none *)
  supabaseTable : Val
}.

End Config.

Import Config.

(* ===================================================================== *)
(** * src/netsuite/client.js: the source reader *)
(* ===================================================================== *)

Module Netsuite.

Definition json_truthy (j : Json) : bool :=
  match j with
  | JScalar v => truthy v
  | JArray | JObject _ => true
  end.

(** [j.error] on a value that is not null or undefined *)
Definition json_error (j : Json) : Val :=
  match j with
  | JObject p => p_error p
  | _ => VUndef
  end.

Record Page : Type := mkPage {
  data : list Obj;
  pageIndex : Val;
  totalPages : Val;
  hasMore : Val
}.

Section Client.

Variable env : Env.
(** [config.netsuite] *)
Variables accountId scriptId deployId : string.
(** [config.mappings] *)
Variable mappings : list Mapping.
(** [JSON.parse]: the document, or the message of the SyntaxError *)
Variable JSON_parse : string -> Json + string.

Definition baseUrl : string :=
  "https://" ++ accountId ++ ".restlets.api.netsuite.com/app/site/hosting/restlet.nl".

Definition axios_get (url : string) : M Trace (Z * Json) :=
  fun t =>
    let reply := http_get env t url in
    match reply with
    | Resolved st body => (Value (st, body), (t ++ [HttpGet url reply])%list)
    | Rejected e => (Thrown e, (t ++ [HttpGet url reply])%list)
    end.

(** [await new Promise(resolve => setTimeout(resolve, ms))] *)
Definition delay (ms : Z) : M Trace unit :=
  fun t => (Value tt, (t ++ [Sleep ms])%list).

Definition parseNetSuiteResponse (response : Json) : M Trace Page :=
  parsedResponse <-
    match response with
    | JScalar (VStr text) =>
        match JSON_parse text with
        | inl j => ret j
        | inr msg => throw (new_Error ("Failed to parse NetSuite response: " ++ msg))
        end
    | _ => ret response
    end ;;
  match parsedResponse with
  | JObject {| p_data := DataArray rows; p_pageIndex := pi; p_totalPages := tp; p_hasMore := hm |} =>
      ret {| data := rows;
             pageIndex := or_else pi (VNum (Fin 0));
             totalPages := or_else tp (VNum (Fin 1));
             hasMore := or_else hm (VBool false) |}
  | _ => throw (new_Error "Invalid response format from NetSuite API: missing data array")
  end.

Definition request_url (searchId : string) (page : Z) : string :=
  baseUrl ++ "?script=" ++ scriptId ++ "&deploy=" ++ deployId
          ++ "&searchId=" ++ searchId
          ++ "&page=" ++ Number_toString (to_double (inject_Z page)).

Definition fetchSavedSearch (searchId : string) (page : Z) : M Trace Json :=
  let url := request_url searchId page in
  try_catch
    (r <- axios_get url ;;
     let response_data := snd r in
     if negb (json_truthy response_data) then throw (new_Error "Empty response from NetSuite")
     else if truthy (json_error response_data)
       then throw (new_Error ("NetSuite API Error: " ++ String_ (json_error response_data)))
     else ret response_data)
    (fun error =>
       match response error with
       | Some r =>
           match data_message r with
           | Carrying m =>
               throw (new_Error ("NetSuite API Error: "
                                 ++ Number_toString (to_double (inject_Z (status r))) ++ " - "
                                 ++ String_ (or_else m (or_else (statusText r) (VStr "Unknown error")))))
           | Missing =>
               throw (new_Error "Cannot read properties of undefined (reading 'message')")
           | Null =>
               throw (new_Error "Cannot read properties of null (reading 'message')")
           end
       | None =>
           if request error
           then throw (new_Error ("No response received from NetSuite API: " ++ message error))
           else throw (new_Error ("Request setup error: " ++ message error))
       end).

Definition fetchSavedSearchPage (searchId : string) (pageIndex : Z) : M Trace (list Obj * Val) :=
  try_catch
    (let page := pageIndex - 1 in
     rawResponse <- fetchSavedSearch searchId page ;;
     parsedResponse <- parseNetSuiteResponse rawResponse ;;
     ret (data parsedResponse, hasMore parsedResponse))
    (fun error => throw error).

(** The [while (hasMore)] loop of [fetchAllSavedSearchPages]; [fuel]
    bounds the number of iterations, and running out of it stands for a
    loop that has not ended. *)
Fixpoint fetch_loop (fuel : nat) (searchId : string) (allResults : list Obj) (page : Z)
  : M Trace (list Obj) :=
  match fuel with
  | O => never
  | S fuel' =>
      rawResponse <- fetchSavedSearch searchId page ;;
      r <- try_catch
             (parsedResponse <- parseNetSuiteResponse rawResponse ;;
              let allResults := (allResults ++ data parsedResponse)%list in
              let hasMore := hasMore parsedResponse in
              let page := page + 1 in
              (if truthy hasMore then delay 1000 else ret tt) ;;;
              ret (allResults, hasMore, page))
             (fun error => throw error) ;;
      let '(allResults, hasMore, page) := r in
      if truthy hasMore then fetch_loop fuel' searchId allResults page
      else ret allResults
  end.

Definition fetchAllSavedSearchPages (fuel : nat) (searchId : string) : M Trace (list Obj) :=
  fetch_loop fuel searchId [] 0.

Definition validateCredentials : M Trace bool :=
  try_catch
    (match mappings with
     | m :: _ => fetchSavedSearch (searchId m) 0 ;;; ret true
     | [] => throw (new_Error "Cannot read properties of undefined (reading 'searchId')")
     end)
    (fun error =>
       if includes "401" (message error) || includes "403" (message error)
       then throw (new_Error ("Invalid NetSuite credentials: " ++ message error))
       else throw error).

End Client.

End Netsuite.

(* ===================================================================== *)
(** * lambda-package/src/netsuite/client.js: the source reader of the
      packaged variant *)
(* ===================================================================== *)

Module NetsuiteLambda.

Import Netsuite.

Section Client.

Variable env : Env.
(** [process.env.NS_*] *)
Variables accountId scriptId deployId : string.
Variables consumerKey consumerSecret tokenId tokenSecret : string.
Variable mappings : list Mapping.
Variable JSON_parse : string -> Json + string.

Definition baseUrl : string := Netsuite.baseUrl accountId.

Definition parseNetSuiteResponse (response : Json) : M Trace Page :=
  if negb (json_truthy response) then throw (new_Error "Empty response received from NetSuite")
  else
    parsedResponse <-
      match response with
      | JScalar (VStr text) =>
          if 50000000 <? Z.of_nat (String.length text)
          then throw (new_Error "Invalid JSON response from NetSuite")
          else
            match JSON_parse text with
            | inl j => ret j
            | inr _ => throw (new_Error "Invalid JSON response from NetSuite")
            end
      | _ => ret response
      end ;;
    match parsedResponse with
    | JScalar VNull => throw (new_Error "Cannot read properties of null (reading 'data')")
    | JScalar _ => throw (new_Error "Invalid response format: not an object")
    | JArray => throw (new_Error "Invalid response format: missing data property")
    | JObject p =>
        match p_data p with
        | NotAnArray v =>
            if truthy v then throw (new_Error "Invalid response format: data is not an array")
            else throw (new_Error "Invalid response format: missing data property")
        | DataArray rows =>
            ret {| data := rows;
                   pageIndex := match p_pageIndex p with VNum _ => p_pageIndex p | _ => VNum (Fin 0) end;
                   totalPages := match p_totalPages p with VNum _ => p_totalPages p | _ => VNum (Fin 1) end;
                   hasMore := VBool (truthy (p_hasMore p)) |}
        end
    end.

Definition request_url (searchId : string) (page : Num) : string :=
  baseUrl ++ "?script=" ++ encodeURIComponent scriptId
          ++ "&deploy=" ++ encodeURIComponent deployId
          ++ "&searchId=" ++ encodeURIComponent searchId
          ++ "&page=" ++ encodeURIComponent (Number_toString page).

Definition fetchSavedSearch (searchId : string) (page : Num) : M Trace Json :=
  if String.eqb searchId "" then throw (new_Error "Invalid searchId parameter")
  else
    match parseInt (Number_toString page) with
    | NaN => throw (new_Error "Invalid page parameter")
    | parsed =>
        let page := max0 parsed in
        let url := request_url searchId page in
        try_catch
          (r <- axios_get env url ;;
           let response_data := snd r in
           if negb (json_truthy response_data) then throw (new_Error "Empty response from NetSuite")
           else if truthy (json_error response_data)
             then throw (new_Error ("NetSuite API Error: " ++ String_ (json_error response_data)))
           else ret response_data)
          (fun error =>
             match response error with
             | Some r =>
                 let statusCode := status r in
                 if (statusCode =? 401) || (statusCode =? 403)
                 then throw (new_Error "Authentication failed. Please check NetSuite credentials.")
                 else if statusCode =? 404
                 then throw (new_Error
                   "NetSuite resource not found. Please check searchId and deployment parameters.")
                 else if 500 <=? statusCode
                 then throw (new_Error "NetSuite server error. Please try again later.")
                 else throw (new_Error ("NetSuite API Error: " ++ Number_toString (num_of_Z statusCode)))
             | None =>
                 if request error
                 then throw (new_Error
                   "Connection to NetSuite failed. Please check your network and try again.")
                 else throw (new_Error "Failed to set up request to NetSuite API")
             end)
    end.

Definition fetchSavedSearchPage (searchId : string) (pageIndex : Z) : M Trace (list Obj * Val) :=
  try_catch
    (if String.eqb searchId "" then throw (new_Error "Invalid searchId parameter")
     else
       match parseInt (Number_toString (num_of_Z pageIndex)) with
       | NaN => throw (new_Error "Invalid pageIndex parameter")
       | parsed =>
           let page := max0 (pred_num parsed) in
           rawResponse <- fetchSavedSearch searchId page ;;
           parsedResponse <- parseNetSuiteResponse rawResponse ;;
           ret (data parsedResponse, or_else (hasMore parsedResponse) (VBool false))
       end)
    (fun error =>
       if includes "Invalid" (message error) then throw error
       else if includes "Authentication failed" (message error) then throw error
       else if includes "NetSuite resource not found" (message error) then throw error
       else throw (new_Error ("Failed to fetch data from NetSuite saved search " ++ searchId))).

Fixpoint fetch_loop (fuel : nat) (searchId : string) (allResults : list Obj) (page : Z)
  : M Trace (list Obj) :=
  match fuel with
  | O => never
  | S fuel' =>
      rawResponse <- fetchSavedSearch searchId (num_of_Z page) ;;
      r <- try_catch
             (parsedResponse <- parseNetSuiteResponse rawResponse ;;
              let allResults := (allResults ++ data parsedResponse)%list in
              let hasMore := hasMore parsedResponse in
              let page := page + 1 in
              (if truthy hasMore then delay 1000 else ret tt) ;;;
              ret (allResults, hasMore, page))
             (fun error => throw error) ;;
      let '(allResults, hasMore, page) := r in
      if truthy hasMore then fetch_loop fuel' searchId allResults page
      else ret allResults
  end.

Definition fetchAllSavedSearchPages (fuel : nat) (searchId : string) : M Trace (list Obj) :=
  fetch_loop fuel searchId [] 0.

Definition validateCredentials : M Trace bool :=
  try_catch
    (if existsb (String.eqb "")
          [accountId; scriptId; deployId; consumerKey; consumerSecret; tokenId; tokenSecret]
     then throw (new_Error "Missing required NetSuite credentials")
     else
       match mappings with
       | [] => throw (new_Error "No mappings found for validation")
       | m :: _ => fetchSavedSearch (searchId m) (Fin 0) ;;; ret true
       end)
    (fun error =>
       if includes "401" (message error) || includes "403" (message error)
       then throw (new_Error "Authentication failed. Please check NetSuite credentials.")
       else
         match response error with
         | Some r =>
             if negb (status r =? 0)
             then throw (new_Error ("NetSuite API returned status code: "
                                    ++ Number_toString (num_of_Z (status r))))
             else if includes "Missing required NetSuite credentials" (message error)
             then throw error
             else throw (new_Error "Failed to validate NetSuite connection")
         | None =>
             if includes "Missing required NetSuite credentials" (message error)
             then throw error
             else throw (new_Error "Failed to validate NetSuite connection")
         end).

End Client.

End NetsuiteLambda.

(* ===================================================================== *)
(** * The destination writers *)
(* ===================================================================== *)

(** Both writers split the records with the same loop,
    [for (let i = 0; i < records.length; i += chunkSize) chunks.push(records.slice(i, i + chunkSize))]. *)
Module Chunks.

Definition chunkSize : nat := 500.

(** The loop from index [i] on.  [i] grows by [chunkSize] at each turn,
    so [length records] turns are never exhausted. *)
Fixpoint chunks_from {A} (turns : nat) (i : nat) (records : list A) : list (list A) :=
  match turns with
  | O => []
  | S turns' =>
      if (i <? length records)%nat
      then slice i (i + chunkSize) records :: chunks_from turns' (i + chunkSize) records
      else []
  end.

Definition chunks {A} (records : list A) : list (list A) :=
  chunks_from (length records) 0 records.

Arguments chunks : simpl never.

End Chunks.

Import Chunks.

(** ** src/supabase/client.js *)

Module Supabase.

Section Client.

Variable env : Env.
Variable mappings : list Mapping.

(** [await this.client.from(table).upsert(chunk, { onConflict, ignoreDuplicates: false }).select()] *)
Definition client_upsert (table : string) (chunk : list Obj) (onConflict : Val)
  : M Trace StoreAnswer :=
  fun t =>
    let reply := store_upsert env t table chunk onConflict in
    match reply with
    | Answered a => (Value a, (t ++ [StoreUpsert table chunk onConflict reply])%list)
    | Refused e => (Thrown e, (t ++ [StoreUpsert table chunk onConflict reply])%list)
    end.

(** [await this.client.from(table).select('*', { count: 'exact', head: true })] *)
Definition client_count (table : string) : M Trace StoreAnswer :=
  fun t =>
    let reply := store_count env t table in
    match reply with
    | Answered a => (Value a, (t ++ [StoreCount table reply])%list)
    | Refused e => (Thrown e, (t ++ [StoreCount table reply])%list)
    end.

(** [await this.client.from(table).select('*').limit(1)] *)
Definition client_select (table : string) : M Trace StoreAnswer :=
  fun t =>
    let reply := store_select env t table in
    match reply with
    | Answered a => (Value a, (t ++ [StoreSelect table reply])%list)
    | Refused e => (Thrown e, (t ++ [StoreSelect table reply])%list)
    end.

(** [throw error] for the error object of an answer *)
Definition store_error (e : StoreError) : Error := new_Error (se_message e).

(** The [for (const chunk of chunks)] loop. *)
Fixpoint upsert_chunks (table : string) (onConflict : Val)
  (chunks : list (list Obj)) (results : list Obj) : M Trace (list Obj) :=
  match chunks with
  | [] => ret results
  | chunk :: rest =>
      a <- client_upsert table chunk onConflict ;;
      match a_error a with
      | Some error =>
          throw (new_Error ("Supabase upsert error: " ++ se_message error
                            ++ " (details: "
                            ++ match se_details error with
                               | Some d => if String.eqb d "" then "none" else d
                               | None => "none"
                               end
                            ++ ")"))
      | None => upsert_chunks table onConflict rest (results ++ default [] (a_data a))%list
      end
  end.

Definition upsert (table : string) (records : Records) (onConflict : Val) : M Trace UpsertResult :=
  let onConflict := match onConflict with VUndef => VStr "id" | _ => onConflict end in
  match records with
  | NotArray _ | Array [] => throw (new_Error "No records provided for upsert")
  | Array records =>
      try_catch
        (results <- upsert_chunks table onConflict (chunks records) [] ;;
         ret (Upserted (length records) (length results) (Some results)))
        (fun error =>
           throw (new_Error ("Failed to upsert to table " ++ table ++ ": " ++ message error)))
  end.

Definition validateConnection : M Trace bool :=
  try_catch
    (match mappings with
     | m :: _ =>
         a <- client_select (table m) ;;
         match a_error a with
         | Some error => throw (store_error error)
         | None => ret true
         end
     | [] => throw (new_Error "Cannot read properties of undefined (reading 'table')")
     end)
    (fun error =>
       if includes "401" (message error) || includes "403" (message error)
       then throw (new_Error "Invalid Supabase credentials")
       else throw error).

Definition getRecordCount (table : string) : M Trace Val :=
  try_catch
    (a <- client_count table ;;
     match a_error a with
     | Some error => throw (store_error error)
     | None => ret (a_count a)
     end)
    (fun error =>
       throw (new_Error ("Failed to get record count for table " ++ table ++ ": " ++ message error))).

End Client.

End Supabase.

(** ** lambda-package/src/supabase/client.js *)

Module SupabaseLambda.

Definition _isValidTableName (tableName : Val) : bool :=
  match tableName with
  | VStr s => table_name_re s        (* the empty string fails the test as well *)
  | _ => false
  end.

Section Client.

Variable env : Env.

Definition client_upsert := Supabase.client_upsert env.
Definition client_count := Supabase.client_count env.

Fixpoint upsert_chunks (table : string) (onConflict : Val)
  (chunks : list (list Obj)) (results : list Obj) : M Trace (list Obj) :=
  match chunks with
  | [] => ret results
  | chunk :: rest =>
      a <- client_upsert table chunk onConflict ;;
      match a_error a with
      | Some error => throw (new_Error ("Supabase upsert error: " ++ se_message error))
      | None => upsert_chunks table onConflict rest (results ++ default [] (a_data a))%list
      end
  end.

Definition upsert (table : Val) (records : Records) (onConflict : Val) : M Trace UpsertResult :=
  let onConflict := match onConflict with VUndef => VStr "id" | _ => onConflict end in
  if negb (_isValidTableName table) then throw (new_Error "Invalid table name format")
  else
    match records with
    | NotArray _ => throw (new_Error "Records must be an array")
    | Array [] => ret NothingUpserted
    | Array records =>
        if truthy onConflict
           && negb (match onConflict with VStr c => conflict_column_re c | _ => false end)
        then throw (new_Error "Invalid conflict column format")
        else
          try_catch
            (results <- upsert_chunks (String_ table) onConflict (chunks records) [] ;;
             ret (Upserted (length records) (length results) None))
            (fun error =>
               throw (new_Error ("Failed to upsert to table " ++ String_ table ++ ": "
                                 ++ message error)))
    end.

Definition validateConnection (mapping : option Mapping) : M Trace bool :=
  match mapping with
  | None => throw (new_Error "Invalid mapping configuration: mapping is undefined")
  | Some mapping =>
      let table := or_else (supabaseTable mapping) (VStr (Config.table mapping)) in
      if negb (truthy table)
      then throw (new_Error "Invalid mapping configuration: missing supabaseTable or table property")
      else if negb (_isValidTableName table)
      then throw (new_Error ("Invalid table name format: " ++ String_ table))
      else
        try_catch
          (a <- client_count (String_ table) ;;
           match a_error a with
           | Some error =>
               if String.eqb (se_code error) "42P01" then ret false
               else throw (Supabase.store_error error)
           | None => ret true
           end)
          (fun error =>
             throw (new_Error ("Failed to validate Supabase connection: " ++ message error)))
  end.

Definition getRecordCount (table : Val) : M Trace Val :=
  if negb (_isValidTableName table) then throw (new_Error "Invalid table name format")
  else
    try_catch
      (a <- client_count (String_ table) ;;
       match a_error a with
       | Some error => throw (Supabase.store_error error)
       | None => ret (a_count a)
       end)
      (fun error => throw (new_Error ("Failed to get record count: " ++ message error))).

End Client.

End SupabaseLambda.

(* ===================================================================== *)
(** * lambda-package/src/sync.js: normalizer, conflict keys, orchestrator *)
(* ===================================================================== *)

Module Sync.

(** [const PAGINATED_TABLES = new Set([...])] *)
Definition PAGINATED_TABLES : gset string :=
  {[ "invoices_detailed"; "item_fulfillments_detailed"; "sales_orders_detailed" ]}.

Definition requiresPagination (table : string) : bool :=
  bool_decide (table ∈ PAGINATED_TABLES).

(** The helper closures of [processRecordsForTable]. *)
Definition parseNumber (value : Val) : Val :=
  if negb (truthy value) then VNull
  else or_else (VNum (parseFloat (remove_commas (String_ value)))) VNull.

Definition parseId (value : Val) : Val :=
  if negb (truthy value) then VNull
  else or_else (VNum (parseInt (String_ value))) VNull.

Section Normalizer.

(** [now index] is the text [new Date().toISOString()] yields when the row
    at [index] is built. *)
Variable now : nat -> string.

Definition timestamp (index : nat) : Val := VStr (now index).

(** [record[k] || '']  and  [record[k] || null] *)
Definition str (record : Obj) (k : string) : Val := or_else (get record k) (VStr "").
Definition date (record : Obj) (k : string) : Val := or_else (get record k) VNull.

(** The template literal of the detail tables. *)
Definition synthetic_pkey (record : Obj) (id_field : string) (index : nat) : Val :=
  VStr (String_ (or_else (parseId (get record id_field)) (succ_index index))
        ++ "_" ++
        String_ (or_else (parseId (get record "line_id")) (succ_index index))).

Definition cash_sales (index : nat) (record : Obj) : Obj :=
  list_to_map
    [ ("cash_sale_internal_id", or_else (parseId (get record "cash_sale_internal_id")) (succ_index index));
      ("date", date record "date");
      ("document_number", str record "document_number");
      ("po_number", str record "po_number");
      ("nuorder_order_number", str record "nuorder_order_number");
      ("created_from", str record "created_from");
      ("name", str record "name");
      ("amount", parseNumber (get record "amount"));
      ("status", str record "status");
      ("customer_internal_id", parseId (get record "customer_internal_id"));
      ("sales_order_internal_id", parseId (get record "sales_order_internal_id"));
      ("partner_internal_id", parseId (get record "partner_internal_id"));
      ("timestamp", timestamp index) ].

Definition credit_memos (index : nat) (record : Obj) : Obj :=
  list_to_map
    [ ("credit_memo_internal_id", or_else (parseId (get record "credit_memo_internal_id")) (succ_index index));
      ("date", date record "date");
      ("document_number", str record "document_number");
      ("po_number", str record "po_number");
      ("nuorder_order_number", str record "nuorder_order_number");
      ("created_from", str record "created_from");
      ("name", str record "name");
      ("amount", parseNumber (get record "amount"));
      ("status", str record "status");
      ("customer_internal_id", parseId (get record "customer_internal_id"));
      ("sales_order_internal_id", str record "sales_order_internal_id");
      ("partner_internal_id", parseId (get record "partner_internal_id"));
      ("timestamp", timestamp index) ].

Definition customers (index : nat) (record : Obj) : Obj :=
  list_to_map
    [ ("customer_internal_id", or_else (parseId (get record "customer_internal_id")) (succ_index index));
      ("number", parseId (get record "number"));
      ("company_name", str record "company_name");
      ("terms", str record "terms");
      ("partner", str record "partner");
      ("wholesale_customer_segment", str record "wholesale_customer_segment");
      ("price_level", str record "price_level");
      ("account_rating", str record "account_rating");
      ("email", str record "email");
      ("phone", str record "phone");
      ("default_billing_address", str record "default_billing_address");
      ("default_shipping_address", str record "default_shipping_address");
      ("tw_email_of_primary_contact", str record "tw_email_of_primary_contact");
      ("tw_email_of_billing_contact", str record "tw_email_of_billing_contact");
      ("tw_email_of_billing_contact_2", str record "tw_email_of_billing_contact_2");
      ("primary_currency", str record "primary_currency");
      ("hold_orders_for_cc_info", str record "hold_orders_for_cc_info");
      ("ar_red_flag", str record "ar_red_flag");
      ("partner_internal_id", parseId (get record "partner_internal_id"));
      ("timestamp", timestamp index) ].

Definition invoices (index : nat) (record : Obj) : Obj :=
  list_to_map
    [ ("invoice_internal_id", or_else (parseId (get record "invoice_internal_id")) (succ_index index));
      ("date", date record "date");
      ("document_number", str record "document_number");
      ("po_number", str record "po_number");
      ("nuorder_order_number", str record "nuorder_order_number");
      ("created_from", str record "created_from");
      ("name", str record "name");
      ("amount", parseNumber (get record "amount"));
      ("status", str record "status");
      ("customer_internal_id", parseId (get record "customer_internal_id"));
      ("sales_order_internal_id", parseId (get record "sales_order_internal_id"));
      ("payment_link", str record "payment_link");
      ("partner_internal_id", parseId (get record "partner_internal_id"));
      ("timestamp", timestamp index);
      ("due_date", date record "due_date") ].

Definition invoices_detailed (index : nat) (record : Obj) : Obj :=
  list_to_map
    [ ("invoice_internal_id", parseId (get record "invoice_internal_id"));
      ("date", date record "date");
      ("document_number", str record "document_number");
      ("po_number", str record "po_number");
      ("nuorder_order_number", str record "nuorder_order_number");
      ("name", str record "name");
      ("status", str record "status");
      ("item_name", str record "item_name");
      ("design", str record "design");
      ("class", str record "class");
      ("upc_code", str record "upc_code");
      ("quantity", parseId (get record "quantity"));
      ("amount", parseNumber (get record "amount"));
      ("customer_internal_id", parseId (get record "customer_internal_id"));
      ("sales_order_number",
        or_else (get record "sales_order_number") (or_else (get record "created_from") (VStr "")));
      ("sales_order_internal_id", parseId (get record "sales_order_internal_id"));
      ("pkey", or_else (parseId (get record "pkey")) (synthetic_pkey record "invoice_internal_id" index));
      ("sku", str record "sku");
      ("timestamp", timestamp index) ].

Definition item_fulfillments (index : nat) (record : Obj) : Obj :=
  list_to_map
    [ ("item_fulfillment_internal_id",
        or_else (parseId (get record "item_fulfillment_internal_id")) (succ_index index));
      ("date", date record "date");
      ("document_number", str record "document_number");
      ("created_from", str record "created_from");
      ("nuorder_order_number", str record "nuorder_order_number");
      ("po_check_number", str record "po_check_number");
      ("name", str record "name");
      ("amount", parseNumber (get record "amount"));
      ("status", str record "status");
      ("tracking_numbers", str record "tracking_numbers");
      ("sales_order_internal_id", parseId (get record "sales_order_internal_id"));
      ("customer_internal_id", parseId (get record "customer_internal_id"));
      ("timestamp", timestamp index) ].

Definition item_fulfillments_detailed (index : nat) (record : Obj) : Obj :=
  list_to_map
    [ ("item_fulfillment_internal_id", parseId (get record "item_fulfillment_internal_id"));
      ("date", date record "date");
      ("document_number", str record "document_number");
      ("name", str record "name");
      ("status", str record "status");
      ("item_name", str record "item_name");
      ("design", str record "design");
      ("class", str record "class");
      ("upc_code", str record "upc_code");
      ("quantity", parseId (get record "quantity"));
      ("pkey",
        or_else (parseId (get record "pkey"))
                (synthetic_pkey record "item_fulfillment_internal_id" index));
      ("sku", str record "sku");
      ("customer_internal_id", parseId (get record "customer_internal_id"));
      ("timestamp", timestamp index) ].

Definition partners (index : nat) (record : Obj) : Obj :=
  list_to_map
    [ ("partner_internal_id", or_else (parseId (get record "partner_internal_id")) (succ_index index));
      ("name", str record "name");
      ("email", str record "email");
      ("phone", str record "phone");
      ("office_phone", str record "office_phone");
      ("fax", str record "fax");
      ("code", str record "code");
      ("alt_email", str record "alt_email");
      ("timestamp", timestamp index) ].

Definition sales_orders (index : nat) (record : Obj) : Obj :=
  list_to_map
    [ ("sales_order_internal_id", or_else (parseId (get record "sales_order_internal_id")) (succ_index index));
      ("date", date record "date");
      ("document_number", str record "document_number");
      ("po_number", str record "po_number");
      ("nuorder_order_number", str record "nuorder_order_number");
      ("customer_name", or_else (get record "customer_name") (or_else (get record "name") (VStr "")));
      ("amount", parseNumber (get record "amount"));
      ("status", str record "status");
      ("customer_internal_id", parseId (get record "customer_internal_id"));
      ("ship_date", date record "ship_date");
      ("ship_date_end", date record "ship_date_end");
      ("partner_internal_id", parseId (get record "partner_internal_id"));
      ("timestamp", timestamp index) ].

Definition sales_orders_detailed (index : nat) (record : Obj) : Obj :=
  list_to_map
    [ ("sales_order_internal_id", parseId (get record "sales_order_internal_id"));
      ("date", date record "date");
      ("document_number", str record "document_number");
      ("po_number", str record "po_number");
      ("nuorder_order_number", str record "nuorder_order_number");
      ("customer_name", or_else (get record "customer_name") (or_else (get record "name") (VStr "")));
      ("status", str record "status");
      ("item_name", str record "item_name");
      ("design", str record "design");
      ("class", str record "class");
      ("upc_code", str record "upc_code");
      ("quantity", parseId (get record "quantity"));
      ("amount", parseNumber (get record "amount"));
      ("line_id", parseId (get record "line_id"));
      ("customer_internal_id", parseId (get record "customer_internal_id"));
      ("pkey",
        or_else (parseId (get record "pkey")) (synthetic_pkey record "sales_order_internal_id" index));
      ("sku", str record "sku");
      ("timestamp", timestamp index) ].

Definition forecast (index : nat) (record : Obj) : Obj :=
  list_to_map
    [ ("month", date record "month");
      ("partner", or_else (get record "sales_rep") (or_else (get record "partner") (VStr "")));
      ("forecasted_amount", parseNumber (get record "forecasted_amount"));
      ("partner_internal_id",
        parseId (or_else (get record "partner_internal_id") (get record "partner_id")));
      ("pkey", or_else (parseId (get record "pkey")) (succ_index index)) ].

(** The generic branch: one field of the output per own key of the
    record, converted by the shape of the key. *)
Definition generic_field (key : string) (value : Val) : Val :=
  if includes "internal_id" key || includes "_id" key || String.eqb key "id" then parseId value
  else if includes "amount" key || includes "price" key || includes "total" key then parseNumber value
  else if includes "date" key then or_else value VNull
  else or_else value (VStr "").

Definition has_internal_id_key (o : Obj) : bool :=
  existsb (includes "internal_id") (map fst (map_to_list o)).

Definition generic (index : nat) (record : Obj) : Obj :=
  let processedRecord : Obj :=
    map_imap (fun key value =>
                if String.eqb key "__proto__" then None   (* a primitive stored under
                                                             [__proto__] is discarded *)
                else Some (generic_field key value)) record in
  let processedRecord :=
    if negb (truthy (get processedRecord "id")) && negb (has_internal_id_key processedRecord)
    then <["id" := succ_index index]> processedRecord
    else processedRecord in
  <["timestamp" := timestamp index]> processedRecord.

Definition processRecordsForTable (table : string) (rawRecords : list Obj) : list Obj :=
  if String.eqb table "cash_sales" then imap cash_sales rawRecords
  else if String.eqb table "credit_memos" then imap credit_memos rawRecords
  else if String.eqb table "customers" then imap customers rawRecords
  else if String.eqb table "invoices" then imap invoices rawRecords
  else if String.eqb table "invoices_detailed" then imap invoices_detailed rawRecords
  else if String.eqb table "item_fulfillments" then imap item_fulfillments rawRecords
  else if String.eqb table "item_fulfillments_detailed" then imap item_fulfillments_detailed rawRecords
  else if String.eqb table "partners" then imap partners rawRecords
  else if String.eqb table "sales_orders" then imap sales_orders rawRecords
  else if String.eqb table "sales_orders_detailed" then imap sales_orders_detailed rawRecords
  else if String.eqb table "forecast" then imap forecast rawRecords
  else imap generic rawRecords.

End Normalizer.

(** [getTableIdColumn]: the lookup [tableIdMap[table] || 'id'] on an
    object literal. *)
Definition tableIdMap : Obj :=
  list_to_map
    [ ("cash_sales", VStr "cash_sale_internal_id");
      ("credit_memos", VStr "credit_memo_internal_id");
      ("customers", VStr "customer_internal_id");
      ("invoices", VStr "invoice_internal_id");
      ("invoices_detailed", VStr "invoice_internal_id");
      ("item_fulfillments", VStr "item_fulfillment_internal_id");
      ("item_fulfillments_detailed", VStr "item_fulfillment_internal_id");
      ("partners", VStr "partner_internal_id");
      ("sales_orders", VStr "sales_order_internal_id");
      ("sales_orders_detailed", VStr "sales_order_internal_id");
      ("forecast", VStr "pkey") ].

Definition getTableIdColumn (table : string) : Val :=
  or_else (get tableIdMap table) (VStr "id").

(** ** The orchestrator

    The two clients are required modules; the orchestrator only uses the
    operations below, so it is stated over any implementation of them,
    acting on any world [W]. *)

Record NetsuiteClient (W : Type) : Type := mkNetsuiteClient {
  validateCredentials : M W bool;
  fetchSavedSearchPage : string -> Z -> M W (list Obj * Val);
  fetchAllSavedSearchPages : string -> M W (list Obj)
}.

Record SupabaseClient (W : Type) : Type := mkSupabaseClient {
  validateConnection : option Mapping -> M W bool;
  getRecordCount : string -> M W Val;
  upsert : string -> Records -> Val -> M W UpsertResult
}.

Arguments validateCredentials {W}.
Arguments fetchSavedSearchPage {W}.
Arguments fetchAllSavedSearchPages {W}.
Arguments validateConnection {W}.
Arguments getRecordCount {W}.
Arguments upsert {W}.

Record ErrorEntry : Type := mkErrorEntry {
  entry_message : string;
  entry_error : string;
  entry_timestamp : string
}.

Record SyncStats : Type := mkSyncStats {
  startTime : option string;
  endTime : option string;
  totalMappings : nat;
  successfulSyncs : nat;
  failedSyncs : nat;
  errors : list ErrorEntry
}.

(** The state of a [SyncManager], together with the world it acts on. *)
Record Manager (W : Type) : Type := mkManager {
  syncStats : SyncStats;
  world : W
}.

Arguments mkManager {W}.
Arguments syncStats {W}.
Arguments world {W}.

(** [new SyncManager()] *)
Definition constructor : SyncStats :=
  {| startTime := None; endTime := None; totalMappings := 0;
     successfulSyncs := 0; failedSyncs := 0; errors := [] |}.

Section Orchestrator.

Context {W : Type}.
Variable netsuiteClient : NetsuiteClient W.
Variable supabaseClient : SupabaseClient W.
(** [config.mappings] *)
Variable mappings : list Mapping.
(** [clock w i]: the [i]-th reading of [new Date().toISOString()] while
    the world is [w] *)
Variable clock : W -> nat -> string.

(** A call to a client: it acts on the world and leaves the statistics
    alone. *)
Definition call {A} (m : M W A) : M (Manager W) A :=
  fun s =>
    let (r, w) := m (world s) in
    (r, {| syncStats := syncStats s; world := w |}).

Definition update (f : SyncStats -> SyncStats) : M (Manager W) unit :=
  modify (fun s => {| syncStats := f (syncStats s); world := world s |}).

Definition toISOString : M (Manager W) string := gets (fun s => clock (world s) 0).

Definition logError (message : string) (error : Error) : M (Manager W) unit :=
  t <- toISOString ;;
  update (fun st =>
    {| startTime := startTime st; endTime := endTime st;
       totalMappings := totalMappings st;
       successfulSyncs := successfulSyncs st; failedSyncs := failedSyncs st;
       errors := (errors st ++ [ {| entry_message := message;
                                    entry_error := Effects.message error;
                                    entry_timestamp := t |} ])%list |}).

Definition validateConnections : M (Manager W) bool :=
  try_catch
    (call (validateCredentials netsuiteClient) ;;;
     match mappings with
     | [] => throw (new_Error "No mappings found for validation")
     | firstMapping :: _ =>
         call (validateConnection supabaseClient (Some firstMapping)) ;;;
         ret true
     end)
    (fun error => logError "Connection validation failed" error ;;; ret false).

Definition is_detail_table (table : string) : bool :=
  String.eqb table "sales_orders_detailed" || String.eqb table "invoices_detailed"
  || String.eqb table "item_fulfillments_detailed".

(** The conflict key as [syncMappingWithPagination] computes it. *)
Definition conflictKey_page (table : string) : Val :=
  let conflictKey := getTableIdColumn table in
  if is_detail_table table then VStr "pkey" else conflictKey.

(** The conflict key as [syncMapping] computes it. *)
Definition conflictKey_bulk (table : string) : Val :=
  let conflictKey := getTableIdColumn table in
  if is_detail_table table then VStr "pkey" else conflictKey.

Definition normalize (table : string) (rawRecords : list Obj) : M (Manager W) (list Obj) :=
  gets (fun s => processRecordsForTable (clock (world s)) table rawRecords).

(** The [while (hasMorePages)] loop; [fuel] bounds its iterations. *)
Fixpoint page_loop (fuel : nat) (mapping : Mapping) (pageIndex : Z)
  (totalRecordsProcessed : nat) : M (Manager W) nat :=
  match fuel with
  | O => never
  | S fuel' =>
      p <- call (fetchSavedSearchPage netsuiteClient (searchId mapping) pageIndex) ;;
      let (pageData, hasMore) := p : list Obj * Val in
      total <-
        match pageData with
        | _ :: _ =>
            processedRecords <- normalize (table mapping) pageData ;;
            let conflictKey := conflictKey_page (table mapping) in
            call (upsert supabaseClient (table mapping) (Array processedRecords) conflictKey) ;;;
            ret (totalRecordsProcessed + length processedRecords)%nat
        | [] => ret totalRecordsProcessed
        end ;;
      if truthy hasMore then page_loop fuel' mapping (pageIndex + 1) total
      else ret total
  end.

(** The [try] block of [syncMappingWithPagination]. *)
Definition syncMappingWithPagination_try (fuel : nat) (mapping : Mapping) : M (Manager W) bool :=
  call (getRecordCount supabaseClient (table mapping)) ;;;
  page_loop fuel mapping 1 0 ;;;
  call (getRecordCount supabaseClient (table mapping)) ;;;
  ret true.

Definition syncMappingWithPagination (fuel : nat) (mapping : Mapping) : M (Manager W) bool :=
  try_catch
    (syncMappingWithPagination_try fuel mapping)
    (fun error =>
       logError ("Failed to sync " ++ name mapping ++ " to " ++ table mapping
                 ++ " during pagination") error ;;;
       ret false).

(** The [try] block of [syncMapping]. *)
Definition syncMapping_try (fuel : nat) (mapping : Mapping) : M (Manager W) bool :=
  if requiresPagination (table mapping) then syncMappingWithPagination fuel mapping
  else
    call (getRecordCount supabaseClient (table mapping)) ;;;
    rawRecords <- call (fetchAllSavedSearchPages netsuiteClient (searchId mapping)) ;;
    match rawRecords with
    | [] => ret true
    | _ :: _ =>
        processedRecords <- normalize (table mapping) rawRecords ;;
        match processedRecords with
        | _ :: _ =>
            let conflictKey := conflictKey_bulk (table mapping) in
            call (upsert supabaseClient (table mapping) (Array processedRecords) conflictKey) ;;;
            call (getRecordCount supabaseClient (table mapping)) ;;;
            ret true
        | [] => ret true
        end
    end.

Definition syncMapping (fuel : nat) (mapping : Mapping) : M (Manager W) bool :=
  try_catch
    (syncMapping_try fuel mapping)
    (fun error =>
       logError ("Failed to sync " ++ name mapping ++ " to " ++ table mapping) error ;;;
       ret false).

Definition count_success (st : SyncStats) : SyncStats :=
  {| startTime := startTime st; endTime := endTime st; totalMappings := totalMappings st;
     successfulSyncs := S (successfulSyncs st); failedSyncs := failedSyncs st;
     errors := errors st |}.

Definition count_failure (st : SyncStats) : SyncStats :=
  {| startTime := startTime st; endTime := endTime st; totalMappings := totalMappings st;
     successfulSyncs := successfulSyncs st; failedSyncs := S (failedSyncs st);
     errors := errors st |}.

(** [for (const mapping of config.mappings)] *)
Fixpoint sync_each (fuel : nat) (ms : list Mapping) : M (Manager W) unit :=
  match ms with
  | [] => ret tt
  | mapping :: rest =>
      success <- syncMapping fuel mapping ;;
      update (if success : bool then count_success else count_failure) ;;;
      sync_each fuel rest
  end.

(** The first two statements of [runSync]. *)
Definition start : M (Manager W) unit :=
  t <- toISOString ;;
  update (fun st =>
    {| startTime := Some t; endTime := endTime st; totalMappings := length mappings;
       successfulSyncs := successfulSyncs st; failedSyncs := failedSyncs st;
       errors := errors st |}).

(** [this.syncStats.endTime = new Date().toISOString()] *)
Definition finish : M (Manager W) unit :=
  t <- toISOString ;;
  update (fun st =>
    {| startTime := startTime st; endTime := Some t; totalMappings := totalMappings st;
       successfulSyncs := successfulSyncs st; failedSyncs := failedSyncs st;
       errors := errors st |}).

Definition runSync (fuel : nat) : M (Manager W) SyncStats :=
  start ;;;
  ok <- validateConnections ;;
  if negb ok then gets syncStats
  else
    sync_each fuel mappings ;;;
    finish ;;;
    gets syncStats.

End Orchestrator.

End Sync.

Import Sync.

(* ===================================================================== *)
(** * The packaged program: [lambda-package/src/sync.js] with the modules
      it requires *)
(* ===================================================================== *)

Module Package.

(** [process.env] *)
Record Settings : Type := mkSettings {
  NS_ACCOUNT_ID : string;
  NS_SCRIPT_ID : string;
  NS_DEPLOY_ID : string;
  NS_CONSUMER_KEY : string;
  NS_CONSUMER_SECRET : string;
  NS_TOKEN_ID : string;
  NS_TOKEN_SECRET : string
}.

Section Wiring.

Variable env : Env.
Variable settings : Settings.
Variable mappings : list Mapping.
Variable JSON_parse : string -> Json + string.
Variable fuel : nat.

Definition netsuiteClient : NetsuiteClient Trace :=
  {| validateCredentials :=
       NetsuiteLambda.validateCredentials env
         (NS_ACCOUNT_ID settings) (NS_SCRIPT_ID settings) (NS_DEPLOY_ID settings)
         (NS_CONSUMER_KEY settings) (NS_CONSUMER_SECRET settings)
         (NS_TOKEN_ID settings) (NS_TOKEN_SECRET settings) mappings;
     fetchSavedSearchPage :=
       NetsuiteLambda.fetchSavedSearchPage env
         (NS_ACCOUNT_ID settings) (NS_SCRIPT_ID settings) (NS_DEPLOY_ID settings) JSON_parse;
     fetchAllSavedSearchPages :=
       NetsuiteLambda.fetchAllSavedSearchPages env
         (NS_ACCOUNT_ID settings) (NS_SCRIPT_ID settings) (NS_DEPLOY_ID settings) JSON_parse fuel |}.

Definition supabaseClient : SupabaseClient Trace :=
  {| validateConnection := SupabaseLambda.validateConnection env;
     getRecordCount := fun table => SupabaseLambda.getRecordCount env (VStr table);
     upsert := fun table => SupabaseLambda.upsert env (VStr table) |}.

Definition runSync : M (Manager Trace) SyncStats :=
  Sync.runSync netsuiteClient supabaseClient mappings (Date_now env) fuel.

End Wiring.

End Package.

(* ===================================================================== *)
(** * The configuration loader: [lambda-package/src/config/index.js] *)
(* ===================================================================== *)

(** [process.env] is a finite map from names to texts, and the mappings
    file is given by what reading and parsing it comes to. *)

Module ConfigLoader.

Definition requiredEnvVars : list string :=
  [ "NS_ACCOUNT_ID"; "NS_CONSUMER_KEY"; "NS_CONSUMER_SECRET"; "NS_TOKEN_ID";
    "NS_TOKEN_SECRET"; "NS_SCRIPT_ID"; "NS_DEPLOY_ID"; "SUPABASE_URL";
    "SUPABASE_SERVICE_KEY" ].

(** [process.env[varName]]: a string, or undefined *)
Definition env_var (process_env : gmap string string) (varName : string) : Val :=
  match process_env !! varName with
  | Some value => VStr value
  | None => VUndef
  end.

(** [list.join(', ')] *)
Definition join (l : list string) : string := String.concat ", " l.

Definition validateEnvVars (process_env : gmap string string) : Error + unit :=
  let missingVars :=
    List.filter (fun varName => negb (truthy (env_var process_env varName))) requiredEnvVars in
  match missingVars with
  | _ :: _ =>
      inl (new_Error ("Missing required environment variables: " ++ join missingVars))
  | [] => inr tt
  end.

(** An element of the [mappings] array of the file: an object, null, or
    any other JSON value (a number, a string, a boolean, an array), none
    of which has one of the required fields. *)
Inductive Entry : Type :=
  | EObject (o : Obj)
  | ENull
  | EOther.

(** What [JSON.parse(fs.readFileSync(mappingsPath, 'utf8'))] comes to:
    the file is not there; another failure (the read, the parse, a
    document that is null); a document, with its [mappings] field when
    that is an array. *)
Inductive File : Type :=
  | ENOENT
  | Failed (e : Error)
  | Document (mappings : option (list Entry)).

Definition requiredFields : list string := [ "searchId"; "type"; "name"; "table"; "method" ].

(** [requiredFields.filter(field => !mapping[field])] *)
Definition missingFields (mapping : Entry) : Error + list string :=
  match mapping with
  | EObject o => inr (List.filter (fun field => negb (truthy (get o field))) requiredFields)
  | ENull => inl (new_Error "Cannot read properties of null (reading 'searchId')")
  | EOther => inr requiredFields
  end.

(** [mappings.mappings.forEach((mapping, index) => ...)], from [index] on *)
Fixpoint check_each (index : nat) (entries : list Entry) : Error + unit :=
  match entries with
  | [] => inr tt
  | mapping :: rest =>
      match missingFields mapping with
      | inl e => inl e
      | inr [] => check_each (S index) rest
      | inr missing =>
          inl (new_Error ("Invalid mapping at index " ++ Number_toString (num_of_nat index)
                          ++ ": missing required fields " ++ join missing))
      end
  end.

Definition loadMappings (mappingsPath : string) (file : File) : Error + list Entry :=
  match file with
  | ENOENT => inl (new_Error ("Mappings file not found at " ++ mappingsPath))
  | Failed e => inl e
  | Document None => inl (new_Error "Invalid mappings file: missing or invalid mappings array")
  | Document (Some entries) =>
      match check_each 0 entries with
      | inl e => inl e
      | inr _ => inr entries
      end
  end.

Record Configuration : Type := mkConfiguration {
  mappings : list Entry;
  syncInterval : Num
}.

Definition init (process_env : gmap string string) (mappingsPath : string) (file : File)
  : Error + Configuration :=
  match validateEnvVars process_env with
  | inl e => inl e
  | inr _ =>
      match loadMappings mappingsPath file with
      | inl e => inl e
      | inr mappings =>
          inr {| mappings := mappings;
                 syncInterval :=
                   parseInt (String_ (or_else (env_var process_env "SYNC_INTERVAL")
                                              (VStr "21600000"))) |}
      end
  end.

End ConfigLoader.

(* ===================================================================== *)
(** * The Lambda entry point: [lambda.js], on the manager of [./sync] *)
(* ===================================================================== *)

Module Entry.

(** The [body] of a response, before [JSON.stringify]. *)
Inductive Body : Type :=
  | Complete (stats : SyncStats)      (* { message: "Sync complete", stats } *)
  | Failure (error : string).         (* { error: error.message } *)

Record Response : Type := mkResponse {
  statusCode : Z;
  body : Body
}.

Section Handler.

Context {W : Type}.
Variable netsuiteClient : NetsuiteClient W.
Variable supabaseClient : SupabaseClient W.
Variable mappings : list Mapping.
Variable clock : W -> nat -> string.

(** [exports.handler], on the manager the module [./sync] exports. *)
Definition handler (fuel : nat) : M (Manager W) Response :=
  try_catch
    (stats <- runSync netsuiteClient supabaseClient mappings clock fuel ;;
     ret {| statusCode := 200; body := Complete stats |})
    (fun error => ret {| statusCode := 500; body := Failure (message error) |}).

End Handler.

End Entry.

(* ===================================================================== *)
(** * Vocabulary of the properties *)
(* ===================================================================== *)

(** The destination tables with a branch of their own in the normalizer,
    each with the column [getTableIdColumn] gives it. *)
Definition header_tables : list (string * string) :=
  [ ("cash_sales", "cash_sale_internal_id");
    ("credit_memos", "credit_memo_internal_id");
    ("customers", "customer_internal_id");
    ("invoices", "invoice_internal_id");
    ("item_fulfillments", "item_fulfillment_internal_id");
    ("partners", "partner_internal_id");
    ("sales_orders", "sales_order_internal_id") ].

Definition detail_tables : list (string * string) :=
  [ ("invoices_detailed", "invoice_internal_id");
    ("item_fulfillments_detailed", "item_fulfillment_internal_id");
    ("sales_orders_detailed", "sales_order_internal_id") ].

(** A raw row supplies a field when the value under it is truthy: not
    absent, not null, not the empty string. *)
Definition supplies (record : Obj) (field : string) : bool := truthy (get record field).

(** Every row the normalizer produces, for whatever table, carries the
    clock reading taken when it was built. *)
Definition every_row_has_timestamp : Prop :=
  forall now table rawRecords index row,
    processRecordsForTable now table rawRecords !! index = Some row ->
    get row "timestamp" = VStr (now index).

(** ** Identifiers that read zero, and the synthesized key *)




(** The integer a text starts with: the value of its longest prefix of
    decimal digits, when it has one. *)
Definition leading_integer (text : string) : option Z :=
  match fst (span_digits text) with
  | EmptyString => None
  | d => Some (digits_value d)
  end.

(** C6 as the specification words it: the record-id component of the
    synthesized key is the parent internal id the row supplies, and
    [index + 1] when it supplies none. *)
Definition synthetic_key_as_worded : Prop :=
  forall now table column rawRecords index record,
    In (table, column) detail_tables ->
    rawRecords !! index = Some record ->
    supplies record "pkey" = false ->
    supplies record "line_id" = false ->
    exists row,
      processRecordsForTable now table rawRecords !! index = Some row
      /\ get row "pkey"
         = VStr (String_ (or_else (get record column) (succ_index index))
                 ++ "_" ++ String_ (succ_index index)).

(** The store-level calls, and the commits, that sending the chunks [cs]
    one after the other adds to a trace. *)
Definition calls_for (table : string) (onConflict : Val) (cs : list (list Obj))
  : list (string * list Obj * Val) :=
  map (fun c => (table, c, onConflict)) cs.

Definition commits_for (table : string) (cs : list (list Obj)) : list (string * list Obj) :=
  map (fun c => (table, c)) cs.

(** How a chunked upsert of [rows] ends, from the trace [t]: either every
    chunk was sent, in order, and committed; or the operation threw after
    sending the first [k + 1] chunks, of which the first [k] are committed
    and the last one failed. *)
Definition chunked_outcome (table : string) (onConflict : Val) (rows : list Obj)
  (t : Trace) (r : Outcome UpsertResult * Trace) : Prop :=
  match r with
  | (Value res, t') =>
      (exists n results, res = Upserted (length rows) n results)
      /\ upsert_calls t' = (upsert_calls t ++ calls_for table onConflict (chunks rows))%list
      /\ committed t' = (committed t ++ commits_for table (chunks rows))%list
  | (Thrown e, t') =>
      exists k msg,
        (k < length (chunks rows))%nat
        /\ e = new_Error ("Failed to upsert to table " ++ table ++ ": " ++ msg)
        /\ upsert_calls t' = (upsert_calls t ++ calls_for table onConflict (take (S k) (chunks rows)))%list
        /\ committed t' = (committed t ++ commits_for table (take k (chunks rows)))%list
  | (Pending, _) => False
  end.

(** What the loop over the chunks leaves behind, whatever the error
    message it builds: [loop] is the loop of either writer. *)
Definition loop_outcome (table : string) (c : Val) (cs : list (list Obj)) (t : Trace)
  (r : Outcome (list Obj) * Trace) : Prop :=
  match r with
  | (Value _, t') =>
      upsert_calls t' = (upsert_calls t ++ calls_for table c cs)%list
      /\ committed t' = (committed t ++ commits_for table cs)%list
  | (Thrown _, t') =>
      exists k,
        (k < length cs)%nat
        /\ upsert_calls t' = (upsert_calls t ++ calls_for table c (take (S k) cs))%list
        /\ committed t' = (committed t ++ commits_for table (take k cs))%list
  | (Pending, _) => False
  end.

(** The upsert of 1200 rows threw at the second chunk: the first two
    chunks were sent, the first is committed, the third was never sent. *)
Definition aborted_at_second (table : string) (onConflict : Val) (rows : list Obj)
  (t : Trace) (r : Outcome UpsertResult * Trace) : Prop :=
  match r with
  | (Thrown e, t') =>
      upsert_calls t'
      = (upsert_calls t ++ [ (table, take 500 rows, onConflict);
                             (table, take 500 (drop 500 rows), onConflict) ])%list
      /\ committed t' = (committed t ++ [ (table, take 500 rows) ])%list
  | _ => False
  end.

(** The store fails a call when it refuses it or answers with an error. *)
Definition failed (reply : StoreReply) : Prop :=
  match reply with
  | Answered a => a_error a <> None
  | Refused _ => True
  end.

(** ** Page sequences *)

(** A page the reader accepts: no embedded error, and a [data] array. *)
Definition well_formed (p : Payload) : Prop :=
  truthy (p_error p) = false /\ exists rows, p_data p = DataArray rows.

Definition page_rows (p : Payload) : list Obj :=
  match p_data p with
  | DataArray rows => rows
  | NotAnArray _ => []
  end.

(** [hasMore] is true on every page but the last, and false on the
    last. *)
Fixpoint ends_at_last (pages : list Payload) : Prop :=
  match pages with
  | [] => False
  | [p] => truthy (p_hasMore p) = false
  | p :: rest => truthy (p_hasMore p) = true /\ ends_at_last rest
  end.

(** The trace once page [p] has been received in answer to [url], and
    the pause before the next request has elapsed. *)
Definition received (t : Trace) (url : string) (status : Z) (p : Payload) : Trace :=
  (t ++ HttpGet url (Resolved status (JObject p))
     :: (if truthy (p_hasMore p) then [Sleep 1000] else []))%list.

(** From the trace [t] on, the remote answers the requests for the pages
    [page], [page + 1], ... with [pages], each request made once the
    answer to the one before is in. *)
Fixpoint serves (env : Env) (url_of : Z -> string) (t : Trace) (page : Z)
  (pages : list Payload) : Prop :=
  match pages with
  | [] => True
  | p :: rest =>
      exists status,
        http_get env t (url_of page) = Resolved status (JObject p)
        /\ serves env url_of (received t (url_of page) status p) (page + 1) rest
  end.

(** [from], [from + 1], ..., [n] indices in all. *)
Definition page_indices (from : Z) (n : nat) : list Z :=
  map (fun i => from + Z.of_nat i) (seq 0 n).

(** ** Runs of the orchestrator *)

Definition settles {W A} (m : M W A) : Prop := forall w, fst (m w) <> Pending.

Definition clients_settle {W} (ns : NetsuiteClient W) (sb : SupabaseClient W) : Prop :=
  settles (validateCredentials ns)
  /\ (forall sid page, settles (fetchSavedSearchPage ns sid page))
  /\ (forall sid, settles (fetchAllSavedSearchPages ns sid))
  /\ (forall m, settles (validateConnection sb m))
  /\ (forall table, settles (getRecordCount sb table))
  /\ (forall table records c, settles (upsert sb table records c)).

(** The page numbered [last] of a search never announces a further
    page. *)
Definition pages_end_by {W} (ns : NetsuiteClient W) (last : nat) : Prop :=
  forall sid w rows more w',
    fetchSavedSearchPage ns sid (Z.of_nat last) w = (Value (rows, more), w') ->
    truthy more = false.

(** Both connection checks go through, taking the world from [w] to
    [w']. *)
Definition validation_passes {W} (ns : NetsuiteClient W) (sb : SupabaseClient W)
  (mappings : list Mapping) (w w' : W) : Prop :=
  exists m ms b1 w1 b2,
    mappings = m :: ms
    /\ validateCredentials ns w = (Value b1, w1)
    /\ validateConnection sb (Some m) w1 = (Value b2, w').

(** [st] with [ok] more successes, [ko] more failures and the [entries]
    appended to its errors. *)
Definition tally (st : SyncStats) (ok ko : nat) (entries : list ErrorEntry) : SyncStats :=
  {| startTime := startTime st; endTime := endTime st; totalMappings := totalMappings st;
     successfulSyncs := successfulSyncs st + ok; failedSyncs := failedSyncs st + ko;
     errors := (errors st ++ entries)%list |}.

Definition with_stats {W} (s : Manager W) (st : SyncStats) : Manager W :=
  {| syncStats := st; world := world s |}.

(** What [syncMapping] can do to the manager it starts from: return true
    and leave the statistics as they are, or return false with one more
    entry in [errors]; it never throws. *)
Definition guarded_outcome {W} (s : Manager W) (r : Outcome bool * Manager W) : Prop :=
  match r with
  | (Value true, s') => syncStats s' = syncStats s
  | (Value false, s') => exists entry, syncStats s' = tally (syncStats s) 0 0 [entry]
  | (Thrown _, _) => False
  | (Pending, s') => syncStats s' = syncStats s
  end.

(** A step of the orchestrator that never touches the statistics. *)
Definition steady {W A} (c : M (Manager W) A) : Prop :=
  forall s, syncStats (snd (c s)) = syncStats s.

(** How the loop over the mappings ends: with as many successes and
    failures as there are mappings, and one entry in [errors] per
    failure. *)
Definition tallied {W} (ms : list Mapping) (s : Manager W) (r : Outcome unit * Manager W)
  : Prop :=
  match r with
  | (Value _, s') =>
      exists ok ko entries,
        (ok + ko)%nat = length ms /\ length entries = ko
        /\ syncStats s' = tally (syncStats s) ok ko entries
  | (Thrown _, _) => False
  | (Pending, _) => True
  end.

(** Every page the remote serves, and every text [JSON.parse] decodes,
    says there is no further page. *)
Definition single_page (env : Env) (JSON_parse : string -> Json + string) : Prop :=
  (forall t url status p,
      http_get env t url = Resolved status (JObject p) -> truthy (p_hasMore p) = false)
  /\ (forall text p, JSON_parse text = inl (JObject p) -> truthy (p_hasMore p) = false).

(** The store fails no upsert. *)
Definition store_accepts (env : Env) : Prop :=
  forall t table chunk c, ~ failed (store_upsert env t table chunk c).



(** ** Sample worlds *)

Module Sample.

Definition page_of (rows : list Obj) (more : bool) : Json :=
  JObject {| p_error := VUndef; p_data := DataArray rows;
             p_pageIndex := VNum (Fin 0); p_totalPages := VNum (Fin 1);
             p_hasMore := VBool more |}.

Definition accepted (chunk : list Obj) : StoreReply :=
  Answered {| a_data := Some chunk; a_count := VNull; a_error := None |}.

Definition counted (n : Z) : StoreReply :=
  Answered {| a_data := None; a_count := VNum (num_of_Z n); a_error := None |}.

Definition rejected_row : StoreReply :=
  Answered {| a_data := None; a_count := VNull;
              a_error := Some {| se_message := "value too long for type character varying(32)";
                                 se_code := "22001"; se_details := None |} |}.

Definition clock (i : nat) : string :=
  "2024-05-01T06:00:00." ++ pretty (100 + i)%nat ++ "Z".

(** A store that accepts every call, behind a remote that has a single
    page of one row for every search. *)
Definition calm : Env :=
  {| http_get := fun _ _ => Resolved 200 (page_of [ {[ "name" := VStr "North" ]} ] false);
     store_upsert := fun _ _ chunk _ => accepted chunk;
     store_count := fun _ _ => counted 0;
     store_select := fun _ _ => accepted [];
     Date_now := fun _ => clock |}.

(** The same, but the store fails the second upsert call it receives. *)
Definition second_upsert_fails : Env :=
  {| http_get := http_get calm;
     store_upsert := fun t _ chunk _ =>
       if Nat.eqb (length (upsert_calls t)) 1 then rejected_row else accepted chunk;
     store_count := store_count calm;
     store_select := store_select calm;
     Date_now := Date_now calm |}.

(** A remote with three pages for every search, one row on each. *)
Definition page_row (i : Z) : Obj := {[ "partner_internal_id" := VStr (pretty i) ]}.

Definition three_pages : Env :=
  {| http_get := fun _ url =>
       if includes "&page=0" url then Resolved 200 (page_of [page_row 10] true)
       else if includes "&page=1" url then Resolved 200 (page_of [page_row 11] true)
       else Resolved 200 (page_of [page_row 12] false);
     store_upsert := store_upsert calm;
     store_count := store_count calm;
     store_select := store_select calm;
     Date_now := Date_now calm |}.

(** The same as [calm], but the remote answers 500 for the search 102. *)
Definition search_102_down : Env :=
  {| http_get := fun t url =>
       if includes "searchId=102" url
       then Rejected {| message := "Request failed with status code 500";
                        response := Some {| status := 500;
                                            statusText := VStr "Internal Server Error";
                                            data_message := Carrying VUndef |};
                        request := true |}
       else http_get calm t url;
     store_upsert := store_upsert calm;
     store_count := store_count calm;
     store_select := store_select calm;
     Date_now := Date_now calm |}.

Definition catalog : list Mapping :=
  [ mkMapping "101" "search" "Customers" "customers" "upsert" VUndef;
    mkMapping "102" "search" "Partners" "partners" "upsert" VUndef;
    mkMapping "103" "search" "Invoices" "invoices" "upsert" VUndef ].

Definition settings : Package.Settings :=
  Package.mkSettings "1234567" "77" "1" "ck" "cs" "tk" "ts".

(** [JSON.parse] on a text that is not JSON *)
Definition not_json (text : string) : Json + string := inr "Unexpected token".

Definition rows_1200 : list Obj :=
  map (fun i => {[ "customer_internal_id" := VNum (num_of_nat i) ]}) (seq 1 1200).

End Sample.

(* ===================================================================== *)
(** * Vocabulary of the further properties *)
(* ===================================================================== *)

(** Connection validation fails with the error [e], taking the world from
    [w] to [w']: the credentials check throws; or it passes and there is
    no mapping; or it passes and the check of the first table throws. *)
Definition validation_fails {W} (ns : NetsuiteClient W) (sb : SupabaseClient W)
  (mappings : list Mapping) (w : W) (e : Error) (w' : W) : Prop :=
  validateCredentials ns w = (Thrown e, w')
  \/ (exists b, validateCredentials ns w = (Value b, w')
                /\ mappings = [] /\ e = new_Error "No mappings found for validation")
  \/ (exists b w1 m ms, validateCredentials ns w = (Value b, w1)
                        /\ mappings = m :: ms
                        /\ validateConnection sb (Some m) w1 = (Thrown e, w')).

(** The statistics an aborted run returns: started, no mapping counted,
    never ended, one more entry in [errors]. *)
Definition aborted_stats (st : SyncStats) (started : string) (n : nat) (entry : ErrorEntry)
  : SyncStats :=
  {| startTime := Some started; endTime := endTime st; totalMappings := n;
     successfulSyncs := successfulSyncs st; failedSyncs := failedSyncs st;
     errors := (errors st ++ [entry])%list |}.

(** What the Lambda handler can answer: status 200 with the statistics of
    the manager, never status 500, and it never throws. *)
Definition answers_200 {W} (r : Outcome Entry.Response * Manager W) : Prop :=
  match r with
  | (Value response, s') =>
      Entry.statusCode response = 200 /\ Entry.body response = Entry.Complete (syncStats s')
  | (Thrown _, _) => False
  | (Pending, _) => True
  end.

(** An operation that leaves a view of the trace as it found it, however
    it ends. *)
Definition keeps {A X} (view : Trace -> X) (m : M Trace A) : Prop :=
  forall t, view (snd (m t)) = view t.

(** A reader that never sends anything to the store, and a writer that
    never calls the remote and only writes through [upsert]. *)
Definition reader_is_read_only (ns : NetsuiteClient Trace) : Prop :=
  keeps upsert_calls (validateCredentials ns)
  /\ (forall sid pageIndex, keeps upsert_calls (fetchSavedSearchPage ns sid pageIndex))
  /\ (forall sid, keeps upsert_calls (fetchAllSavedSearchPages ns sid)).

Definition writer_stays_local (sb : SupabaseClient Trace) : Prop :=
  (forall m, keeps requests (validateConnection sb m)
             /\ keeps upsert_calls (validateConnection sb m))
  /\ (forall table, keeps requests (getRecordCount sb table)
                    /\ keeps upsert_calls (getRecordCount sb table))
  /\ (forall table records c, keeps requests (upsert sb table records c)).

(** ** Further sample worlds *)

Module Cases.

(** The remote rejects every request with 401. *)
Definition unauthorized : Error :=
  {| message := "Request failed with status code 401";
     response := Some {| status := 401; statusText := VStr "Unauthorized";
                         data_message := Carrying (VStr "Invalid login attempt.") |};
     request := true |}.

Definition forbidden : Env :=
  {| http_get := fun _ _ => Rejected unauthorized;
     store_upsert := store_upsert Sample.calm;
     store_count := store_count Sample.calm;
     store_select := store_select Sample.calm;
     Date_now := Date_now Sample.calm |}.

(** The store knows none of the tables. *)
Definition undefined_table : StoreReply :=
  Answered {| a_data := None; a_count := VNull;
              a_error := Some {| se_message := "relation does not exist";
                                 se_code := "42P01"; se_details := None |} |}.

Definition no_tables : Env :=
  {| http_get := http_get Sample.calm;
     store_upsert := store_upsert Sample.calm;
     store_count := fun _ _ => undefined_table;
     store_select := store_select Sample.calm;
     Date_now := Date_now Sample.calm |}.

(** A catalog whose second table has a name the writer refuses. *)
Definition spaced_catalog : list Mapping :=
  [ mkMapping "101" "search" "Customers" "customers" "upsert" VUndef;
    mkMapping "104" "search" "Price list" "price list" "upsert" VUndef ].

(** The remote answers 200 with an [error] field. *)
Definition search_not_found : Json :=
  JObject {| p_error := VStr "Search 101 not found"; p_data := NotAnArray VUndef;
             p_pageIndex := VUndef; p_totalPages := VUndef; p_hasMore := VUndef |}.

Definition embedded_error : Env :=
  {| http_get := fun _ _ => Resolved 200 search_not_found;
     store_upsert := store_upsert Sample.calm;
     store_count := store_count Sample.calm;
     store_select := store_select Sample.calm;
     Date_now := Date_now Sample.calm |}.

(** The remote serves a first page and answers 500 from the second on. *)
Definition server_error : Error :=
  {| message := "Request failed with status code 500";
     response := Some {| status := 500; statusText := VStr "Internal Server Error";
                         data_message := Carrying VUndef |};
     request := true |}.

Definition first_page : Payload :=
  {| p_error := VUndef; p_data := DataArray [Sample.page_row 10];
     p_pageIndex := VNum (Fin 0); p_totalPages := VNum (Fin 2); p_hasMore := VBool true |}.

Definition second_page_down : Env :=
  {| http_get := fun _ url =>
       if includes "&page=0" url then Resolved 200 (JObject first_page)
       else Rejected server_error;
     store_upsert := store_upsert Sample.calm;
     store_count := store_count Sample.calm;
     store_select := store_select Sample.calm;
     Date_now := Date_now Sample.calm |}.

(** A detail search of three pages of one line each. *)
Definition detail_mapping : Mapping :=
  mkMapping "2019" "search" "Invoice lines" "invoices_detailed" "upsert" VUndef.

Definition line_page (i : Z) (more : bool) : Payload :=
  {| p_error := VUndef; p_data := DataArray [Sample.page_row i];
     p_pageIndex := VNum (Fin 0); p_totalPages := VNum (Fin 1); p_hasMore := VBool more |}.

(** The remote serves two pages of a detail search and answers 500 from
    the third on. *)
Definition third_page_down : Env :=
  {| http_get := fun _ url =>
       if includes "&page=0" url then Resolved 200 (JObject (line_page 10 true))
       else if includes "&page=1" url then Resolved 200 (JObject (line_page 11 true))
       else Rejected server_error;
     store_upsert := store_upsert Sample.calm;
     store_count := store_count Sample.calm;
     store_select := store_select Sample.calm;
     Date_now := Date_now Sample.calm |}.

End Cases.

(** A 2xx answer that [fetchSavedSearch] turns down: an empty body, or
    one with a truthy [error] field; and the message of the error its
    [try] block throws for it. *)
Definition turned_down (j : Json) : Prop :=
  Netsuite.json_truthy j = false \/ truthy (Netsuite.json_error j) = true.

Definition inner_message (j : Json) : string :=
  if Netsuite.json_truthy j
  then "NetSuite API Error: " ++ String_ (Netsuite.json_error j)
  else "Empty response from NetSuite".

(** All seven credentials of the packaged reader are set. *)
Definition credentials_set (settings : Package.Settings) : Prop :=
  existsb (String.eqb "")
    [ Package.NS_ACCOUNT_ID settings; Package.NS_SCRIPT_ID settings;
      Package.NS_DEPLOY_ID settings; Package.NS_CONSUMER_KEY settings;
      Package.NS_CONSUMER_SECRET settings; Package.NS_TOKEN_ID settings;
      Package.NS_TOKEN_SECRET settings ] = false.

(** From the trace [t] on, the remote has answered the requests for the
    pages [page], [page + 1], ... with [pages], and the trace is now [t']. *)
Fixpoint served (env : Env) (url_of : Z -> string) (t : Trace) (page : Z)
  (pages : list Payload) (t' : Trace) : Prop :=
  match pages with
  | [] => t' = t
  | p :: rest =>
      exists status,
        http_get env t (url_of page) = Resolved status (JObject p)
        /\ served env url_of (received t (url_of page) status p) (page + 1) rest t'
  end.

(** An answer the first reader does not accept as a page: a rejection,
    an empty body or one with an [error], an object without a [data]
    array. *)
Definition not_a_page (reply : HttpReply) : Prop :=
  match reply with
  | Rejected _ => True
  | Resolved _ j =>
      turned_down j \/ exists p v, j = JObject p /\ p_data p = NotAnArray v
  end.

(** An entry of the catalog with every required field set. *)
Definition complete (entry : ConfigLoader.Entry) : Prop :=
  exists o, entry = ConfigLoader.EObject o
            /\ Forall (fun field => truthy (get o field) = true) ConfigLoader.requiredFields.

(** The environment sets all nine required variables. *)
Definition environment_set (process_env : gmap string string) : Prop :=
  Forall (fun varName => exists value, process_env !! varName = Some value /\ value <> "")
         ConfigLoader.requiredEnvVars.

(** ** The paginated path, as seen from outside *)

(** What the two remote parties see of a run: the urls requested and the
    chunks written, in the order in which it happened. *)
Inductive Step : Type :=
  | Requested (url : string)
  | Wrote (table : string) (rows : nat) (onConflict : Val).

Definition steps (t : Trace) : list Step :=
  omap (fun e => match e with
                 | HttpGet url _ => Some (Requested url)
                 | StoreUpsert table chunk c _ => Some (Wrote table (length chunk) c)
                 | _ => None
                 end) t.

(** The steps for one page: its request, then one write per chunk of its
    rows, under the conflict key "pkey". *)
Definition page_steps (url : string) (table : string) (p : Payload) : list Step :=
  Requested url :: map (fun c => Wrote table (length c) (VStr "pkey")) (chunks (page_rows p)).

(** The trace once the page [p] has been received in answer to [url] and
    its rows, if any, have been normalized and written to [table]. *)
Definition page_written (env : Env) (table : string) (t : Trace) (url : string)
  (status : Z) (p : Payload) : Trace :=
  let t1 := (t ++ [HttpGet url (Resolved status (JObject p))])%list in
  match page_rows p with
  | [] => t1
  | _ :: _ =>
      snd (SupabaseLambda.upsert env (VStr table)
             (Array (processRecordsForTable (Date_now env t1) table (page_rows p)))
             (VStr "pkey") t1)
  end.

(** The steps of the pages [pages], numbered from [page] on. *)
Fixpoint pages_steps (url_of : Z -> string) (table : string) (page : Z)
  (pages : list Payload) : list Step :=
  match pages with
  | [] => []
  | p :: rest =>
      (page_steps (url_of page) table p ++ pages_steps url_of table (page + 1) rest)%list
  end.

(** From the trace [t] on, the pages [pages] have been served and
    written, one after the other, and the trace is now [t']. *)
Fixpoint written_pages (env : Env) (url_of : Z -> string) (table : string) (t : Trace)
  (page : Z) (pages : list Payload) (t' : Trace) : Prop :=
  match pages with
  | [] => t' = t
  | p :: rest =>
      exists status,
        http_get env t (url_of page) = Resolved status (JObject p)
        /\ written_pages env url_of table (page_written env table t (url_of page) status p)
             (page + 1) rest t'
  end.

(** The store answers the count of the rows of [table], asked at [t]. *)
Definition count_answered (env : Env) (t : Trace) (table : string) : Prop :=
  exists a, store_count env t table = Answered a /\ a_error a = None.

(** The trace once the count of [table] has been asked at [t]. *)
Definition counted (env : Env) (t : Trace) (table : string) : Trace :=
  (t ++ [StoreCount table (store_count env t table)])%list.

(** The url the packaged reader requests for the 0-based [page] of the
    search of [m]. *)
Definition page_url (settings : Package.Settings) (m : Mapping) (page : Z) : string :=
  NetsuiteLambda.request_url (Package.NS_ACCOUNT_ID settings) (Package.NS_SCRIPT_ID settings)
    (Package.NS_DEPLOY_ID settings) (searchId m) (num_of_Z page).

(* ===================================================================== *)
(** * Numeric coercion *)
(* ===================================================================== *)

Lemma parseNumber_falsy v : truthy v = false -> parseNumber v = VNull.
Proof. intros H. unfold parseNumber. now rewrite H. Qed.

Lemma parseId_falsy v : truthy v = false -> parseId v = VNull.
Proof. intros H. unfold parseId. now rewrite H. Qed.




(** The result of either coercion is null or a Number that is neither
    NaN nor zero. *)
Lemma parseId_cases v :
  parseId v = VNull \/ exists n, parseId v = VNum n /\ num_truthy n = true.
Proof.
  unfold parseId, or_else. destruct (truthy v); simpl; [|now left].
  destruct (num_truthy (parseInt (String_ v))) eqn:E; [right; eauto | now left].
Qed.

(** C7. The numeric coercions on the four inputs of the specification:
    [parseNumber] (asFloat) maps "1,234.50" to the Number 1234.50 and the
    empty string to null; [parseId] (asInteger) maps "007" to 7 and null
    to null. *)
Theorem C7_numeric_coercion :
  (exists q, parseNumber (VStr "1,234.50") = VNum (Fin q) /\ Qeq q (123450 # 100))
  /\ parseNumber (VStr "") = VNull
  /\ parseId (VStr "007") = VNum (Fin 7)
  /\ parseId VNull = VNull.
Proof.
  repeat split.
  - exists (2469 # 2). split; [vm_compute; reflexivity | reflexivity].
Qed.


Section ZeroIds.

Variable now : nat -> string.










End ZeroIds.




(* ===================================================================== *)
(** * The synthetic key of the detail tables *)
(* ===================================================================== *)

Lemma detail_pkey_field now table column rawRecords index record :
  In (table, column) detail_tables ->
  rawRecords !! index = Some record ->
  exists row,
    processRecordsForTable now table rawRecords !! index = Some row
    /\ get row "pkey" = or_else (parseId (get record "pkey")) (synthetic_pkey record column index).
Proof.
  intros Hin Hrec. unfold detail_tables in Hin. simpl in Hin.
  repeat (destruct Hin as [Hin | Hin];
          [ injection Hin as <- <-; unfold processRecordsForTable; simpl;
            rewrite list_lookup_imap, Hrec; simpl; eexists; split; reflexivity | ]).
  contradiction.
Qed.

(* ===================================================================== *)
(** * The timestamp of the output rows *)
(* ===================================================================== *)

Lemma imap_lookup_get {A B} (f : nat -> A -> B) (l : list A) i y :
  imap f l !! i = Some y -> exists x, l !! i = Some x /\ y = f i x.
Proof.
  rewrite list_lookup_imap. destruct (l !! i) as [x|]; simpl; [|discriminate].
  intros [= <-]. eauto.
Qed.

Lemma generic_timestamp now index record :
  get (generic now index record) "timestamp" = VStr (now index).
Proof. unfold generic, get. now rewrite lookup_insert_eq. Qed.

(** C4 as the specification words it does not hold: a row of the forecast
    table has no [timestamp]. *)
Lemma C4_forecast_row_without_timestamp :
  (exists row,
     processRecordsForTable (fun _ => "2024-05-01T06:00:00.000Z") "forecast"
       [ {[ "month" := VStr "2024-05"; "forecasted_amount" := VStr "1,000.00" ]} ] = [row]
     /\ row !! "timestamp" = None
     /\ get row "timestamp" = VUndef)
  /\ ~ every_row_has_timestamp.
Proof.
  split.
  - eexists. split; [reflexivity | split; reflexivity].
  - intros H.
    specialize (H (fun _ => "2024-05-01T06:00:00.000Z") "forecast" [∅] 0%nat _ eq_refl).
    discriminate H.
Qed.

(** C4 (amended). For every destination table other than [forecast], every
    raw row yields an output row whose [timestamp] is the clock reading
    taken when that row was built; a forecast row has the fields [month],
    [partner], [forecasted_amount], [partner_internal_id] and [pkey], and
    no [timestamp]. *)
Theorem C4_timestamp_except_forecast :
  forall now table rawRecords index,
    (table <> "forecast" ->
     forall row,
       processRecordsForTable now table rawRecords !! index = Some row ->
       get row "timestamp" = VStr (now index))
    /\ (forall row,
          processRecordsForTable now "forecast" rawRecords !! index = Some row ->
          dom row = {[ "month"; "partner"; "forecasted_amount"; "partner_internal_id"; "pkey" ]}
          /\ get row "timestamp" = VUndef)
    /\ (forall record,
          rawRecords !! index = Some record ->
          is_Some (processRecordsForTable now table rawRecords !! index)).
Proof.
  intros now table rawRecords index. split; [| split].
  - intros Hne row. unfold processRecordsForTable.
    repeat match goal with
           | |- context [String.eqb table ?t] =>
               destruct (String.eqb_spec table t) as [-> | _]
           end;
      try congruence;
      intros H; apply imap_lookup_get in H as (record & _ & ->);
      first [ apply generic_timestamp | reflexivity ].
  - intros row H. unfold processRecordsForTable in H. simpl in H.
    apply imap_lookup_get in H as (record & _ & ->).
    split; [| reflexivity].
    unfold forecast. simpl. rewrite !dom_insert_L, dom_empty_L. set_solver.
  - intros record Hrec. unfold processRecordsForTable.
    repeat match goal with
           | |- context [String.eqb table ?t] => destruct (String.eqb table t)
           end;
      rewrite list_lookup_imap, Hrec; simpl; eauto.
Qed.

Lemma C4_timestamp_except_forecast_witness :
  exists row,
    processRecordsForTable (fun i => if Nat.eqb i 0 then "2024-05-01T06:00:00.000Z"
                                     else "2024-05-01T06:00:00.001Z") "partners"
      [ {[ "partner_internal_id" := VStr "12" ]}; {[ "name" := VStr "North" ]} ] !! 1%nat = Some row
    /\ get row "timestamp" = VStr "2024-05-01T06:00:00.001Z".
Proof.
  destruct (C4_timestamp_except_forecast
              (fun i => if Nat.eqb i 0 then "2024-05-01T06:00:00.000Z"
                        else "2024-05-01T06:00:00.001Z") "partners"
              [ {[ "partner_internal_id" := VStr "12" ]}; {[ "name" := VStr "North" ]} ] 1%nat)
    as (Hstamp & _ & Hrow).
  destruct (Hrow {[ "name" := VStr "North" ]} eq_refl) as [row Hlookup].
  exists row. split; [exact Hlookup |].
  apply Hstamp; [discriminate | exact Hlookup].
Defined.

(* ===================================================================== *)
(** * Chunking *)
(* ===================================================================== *)

Section ChunkFacts.

Context {A : Type}.
Implicit Types (records : list A) (i turns k : nat).
Local Open Scope nat_scope.

Lemma slice_chunk i records : slice i (i + chunkSize) records = take chunkSize (drop i records).
Proof. unfold slice. f_equal. lia. Qed.

Lemma chunks_from_lt turns i records :
  (i < length records)%nat ->
  chunks_from (S turns) i records
  = slice i (i + chunkSize) records :: chunks_from turns (i + chunkSize) records.
Proof. intros H. simpl. apply Nat.ltb_lt in H. now rewrite H. Qed.

Lemma chunks_from_ge turns i records :
  (length records <= i)%nat -> chunks_from turns i records = [].
Proof. intros H. destruct turns; simpl; [reflexivity |]. apply Nat.ltb_ge in H. now rewrite H. Qed.

(** The turns granted are enough: the chunks from [i] on make up the
    records from [i] on. *)
Lemma chunks_from_concat turns i records :
  (length records - i <= turns)%nat ->
  concat (chunks_from turns i records) = drop i records.
Proof.
  revert i. induction turns as [| turns IH]; intros i Hfuel.
  - simpl. rewrite drop_ge by lia. reflexivity.
  - destruct (Nat.lt_ge_cases i (length records)) as [Hlt | Hge].
    + rewrite chunks_from_lt by exact Hlt. simpl.
      rewrite IH by (unfold chunkSize; lia).
      rewrite slice_chunk, <- (drop_drop records chunkSize i).
      apply take_drop.
    + rewrite chunks_from_ge by exact Hge. rewrite drop_ge by exact Hge. reflexivity.
Qed.

Lemma chunks_from_lookup turns i records k c :
  chunks_from turns i records !! k = Some c ->
  c = slice (i + chunkSize * k) (i + chunkSize * k + chunkSize) records
  /\ (i + chunkSize * k < length records)%nat.
Proof.
  revert i k. induction turns as [| turns IH]; intros i k; [discriminate |].
  destruct (Nat.lt_ge_cases i (length records)) as [Hlt | Hge].
  - rewrite chunks_from_lt by exact Hlt. destruct k as [| k].
    + intros [= <-]. split; [f_equal; lia | lia].
    + intros H. change (chunks_from turns (i + chunkSize) records !! k = Some c) in H.
      apply IH in H as [-> Hk]. split; [f_equal; lia | lia].
  - rewrite chunks_from_ge by exact Hge. discriminate.
Qed.

Lemma chunks_concat records : concat (chunks records) = records.
Proof. unfold chunks. rewrite chunks_from_concat by lia. reflexivity. Qed.

(** The [k]-th chunk is the slice of the records from [500 k] to
    [500 k + 500]: between 1 and 500 records, and 500 of them unless it is
    the last. *)
Lemma chunks_lookup records k c :
  chunks records !! k = Some c ->
  c = slice (chunkSize * k) (chunkSize * k + chunkSize) records
  /\ (0 < length c <= chunkSize)%nat
  /\ (chunkSize * k + chunkSize <= length records -> length c = chunkSize).
Proof.
  intros H. apply chunks_from_lookup in H as [-> Hk]. simpl in Hk |- *.
  split; [reflexivity |].
  rewrite slice_chunk, length_take, length_drop. unfold chunkSize in *. lia.
Qed.

Lemma chunks_nonempty records : records <> [] -> chunks records <> [].
Proof.
  intros Hne. destruct records as [| x records]; [contradiction |].
  unfold chunks. change (length (x :: records)) with (S (length records)).
  rewrite chunks_from_lt by (simpl; lia). discriminate.
Qed.

(** 1200 records make three chunks: the first 500, the next 500, the
    last 200. *)
Lemma chunks_1200 records :
  length records = 1200%nat ->
  chunks records
  = [ take 500 records; take 500 (drop 500 records); drop 1000 records ]
  /\ map length (chunks records) = [500; 500; 200]%nat.
Proof.
  intros Hlen.
  assert (Hc : chunks records
               = [ take 500 records; take 500 (drop 500 records); drop 1000 records ]).
  { unfold chunks. rewrite Hlen.
    change 1200%nat with (S (S (S (S 1196)))).
    rewrite chunks_from_lt by lia.
    rewrite chunks_from_lt by (unfold chunkSize; lia).
    rewrite chunks_from_lt by (unfold chunkSize; lia).
    rewrite chunks_from_ge by (unfold chunkSize; lia).
    rewrite !slice_chunk. unfold chunkSize. simpl Nat.add.
    rewrite drop_0. do 2 f_equal. f_equal.
    apply take_ge. rewrite length_drop. lia. }
  split; [exact Hc |].
  rewrite Hc. simpl. rewrite !length_take, !length_drop. f_equal; [lia |].
  f_equal; [lia |]. f_equal. lia.
Qed.

End ChunkFacts.

(* ===================================================================== *)
(** * The destination writers *)
(* ===================================================================== *)

Section WriterFacts.

Variable env : Env.

Lemma upsert_calls_snoc t e :
  upsert_calls (t ++ [e])%list
  = (upsert_calls t ++ match e with
                       | StoreUpsert table chunk c _ => [(table, chunk, c)]
                       | _ => []
                       end)%list.
Proof. unfold upsert_calls. rewrite omap_app. now destruct e. Qed.

Lemma committed_snoc t e :
  committed (t ++ [e])%list
  = (committed t ++ match e with
                    | StoreUpsert table chunk _ (Answered a) =>
                        match a_error a with None => [(table, chunk)] | Some _ => [] end
                    | _ => []
                    end)%list.
Proof.
  unfold committed. rewrite omap_app. destruct e as [| | ? ? ? [a |] | |]; try reflexivity.
  simpl. now destruct (a_error a).
Qed.

Lemma loop_outcome_step table c chunk rest t a r :
  a_error a = None ->
  loop_outcome table c rest (t ++ [StoreUpsert table chunk c (Answered a)])%list r ->
  loop_outcome table c (chunk :: rest) t r.
Proof.
  intros Ha. unfold loop_outcome. destruct r as [[res | e |] t']; [| | tauto].
  - rewrite upsert_calls_snoc, committed_snoc, Ha. simpl.
    rewrite <- !app_assoc. simpl. tauto.
  - rewrite upsert_calls_snoc, committed_snoc, Ha.
    intros (k & Hk & Hcalls & Hcommit). exists (S k). simpl.
    rewrite <- !app_assoc in *. simpl in *. repeat split; [lia | exact Hcalls | exact Hcommit].
Qed.

Lemma loop_outcome_fail table c chunk rest t reply e :
  failed reply ->
  loop_outcome table c (chunk :: rest) t (Thrown e, (t ++ [StoreUpsert table chunk c reply])%list).
Proof.
  intros Hf. exists 0%nat. rewrite upsert_calls_snoc, committed_snoc. simpl.
  repeat split; [lia |].
  destruct reply as [a |]; simpl in *; [| reflexivity].
  destruct (a_error a); [reflexivity | contradiction].
Qed.

Lemma lambda_loop table c cs results t :
  loop_outcome table c cs t (SupabaseLambda.upsert_chunks env table c cs results t).
Proof.
  revert results t. induction cs as [| chunk rest IH]; intros results t; simpl.
  - unfold ret. simpl. now rewrite !app_nil_r.
  - unfold bind, SupabaseLambda.client_upsert, Supabase.client_upsert.
    destruct (store_upsert env t table chunk c) as [a | e] eqn:Hreply.
    + destruct (a_error a) as [err |] eqn:Ha.
      * apply loop_outcome_fail. simpl. now rewrite Ha.
      * eapply loop_outcome_step; [exact Ha | apply IH].
    + now apply loop_outcome_fail.
Qed.

Lemma src_loop table c cs results t :
  loop_outcome table c cs t (Supabase.upsert_chunks env table c cs results t).
Proof.
  revert results t. induction cs as [| chunk rest IH]; intros results t; simpl.
  - unfold ret. simpl. now rewrite !app_nil_r.
  - unfold bind, Supabase.client_upsert.
    destruct (store_upsert env t table chunk c) as [a | e] eqn:Hreply.
    + destruct (a_error a) as [err |] eqn:Ha.
      * apply loop_outcome_fail. simpl. now rewrite Ha.
      * eapply loop_outcome_step; [exact Ha | apply IH].
    + now apply loop_outcome_fail.
Qed.

Lemma lambda_upsert_loop table column row rows t :
  table_name_re table = true ->
  conflict_column_re column = true ->
  SupabaseLambda.upsert env (VStr table) (Array (row :: rows)) (VStr column) t
  = match SupabaseLambda.upsert_chunks env table (VStr column) (chunks (row :: rows)) [] t with
    | (Value results, t') => (Value (Upserted (length (row :: rows)) (length results) None), t')
    | (Thrown e, t') =>
        (Thrown (new_Error ("Failed to upsert to table " ++ table ++ ": " ++ message e)), t')
    | (Pending, t') => (Pending, t')
    end.
Proof.
  intros Ht Hc. unfold SupabaseLambda.upsert.
  remember (chunks (row :: rows)) as cs eqn:Hcs. simpl.
  rewrite Ht, Hc. simpl.
  assert (Hne : negb (column =? "")%string = true).
  { unfold conflict_column_re in Hc. now apply andb_true_iff in Hc as [-> _]. }
  rewrite Hne. simpl. unfold try_catch, bind.
  now destruct (SupabaseLambda.upsert_chunks env table (VStr column) cs [] t) as [[? | ? |] ?].
Qed.

Lemma src_upsert_loop table column row rows t :
  Supabase.upsert env table (Array (row :: rows)) (VStr column) t
  = match Supabase.upsert_chunks env table (VStr column) (chunks (row :: rows)) [] t with
    | (Value results, t') =>
        (Value (Upserted (length (row :: rows)) (length results) (Some results)), t')
    | (Thrown e, t') =>
        (Thrown (new_Error ("Failed to upsert to table " ++ table ++ ": " ++ message e)), t')
    | (Pending, t') => (Pending, t')
    end.
Proof.
  unfold Supabase.upsert, try_catch, bind.
  remember (chunks (row :: rows)) as cs eqn:Hcs.
  now destruct (Supabase.upsert_chunks env table (VStr column) cs [] t) as [[? | ? |] ?].
Qed.

Lemma lambda_upsert_chunked table column rows t :
  rows <> [] ->
  table_name_re table = true ->
  conflict_column_re column = true ->
  chunked_outcome table (VStr column) rows t
    (SupabaseLambda.upsert env (VStr table) (Array rows) (VStr column) t).
Proof.
  intros Hne Ht Hc. destruct rows as [| row rows]; [contradiction |].
  rewrite lambda_upsert_loop by assumption.
  pose proof (lambda_loop table (VStr column) (chunks (row :: rows)) [] t) as Hloop.
  destruct (SupabaseLambda.upsert_chunks env table (VStr column) _ [] t) as [[results | e |] t'];
    simpl in Hloop |- *.
  - split; [eauto | exact Hloop].
  - destruct Hloop as (k & Hk & Hcalls & Hcommit).
    exists k, (message e). repeat split; assumption.
  - exact Hloop.
Qed.

Lemma src_upsert_chunked table column rows t :
  rows <> [] ->
  chunked_outcome table (VStr column) rows t
    (Supabase.upsert env table (Array rows) (VStr column) t).
Proof.
  intros Hne. destruct rows as [| row rows]; [contradiction |].
  rewrite src_upsert_loop.
  pose proof (src_loop table (VStr column) (chunks (row :: rows)) [] t) as Hloop.
  destruct (Supabase.upsert_chunks env table (VStr column) _ [] t) as [[results | e |] t'];
    simpl in Hloop |- *.
  - split; [eauto | exact Hloop].
  - destruct Hloop as (k & Hk & Hcalls & Hcommit).
    exists k, (message e). repeat split; assumption.
  - exact Hloop.
Qed.

Lemma lambda_second_fails table c c1 c2 rest results t a1 :
  store_upsert env t table c1 c = Answered a1 ->
  a_error a1 = None ->
  failed (store_upsert env (t ++ [StoreUpsert table c1 c (Answered a1)])%list table c2 c) ->
  exists e,
    SupabaseLambda.upsert_chunks env table c (c1 :: c2 :: rest) results t
    = (Thrown e,
       (t ++ [ StoreUpsert table c1 c (Answered a1);
               StoreUpsert table c2 c
                 (store_upsert env (t ++ [StoreUpsert table c1 c (Answered a1)])%list table c2 c) ])%list).
Proof.
  intros H1 Ha1 H2. simpl.
  unfold bind at 1. unfold SupabaseLambda.client_upsert, Supabase.client_upsert at 1.
  rewrite H1, Ha1. unfold bind, Supabase.client_upsert.
  destruct (store_upsert env _ table c2 c) as [a2 | e2] eqn:Hreply.
  - simpl in H2. destruct (a_error a2) as [err |]; [| contradiction].
    eexists. unfold throw. rewrite <- app_assoc. reflexivity.
  - eexists. rewrite <- app_assoc. reflexivity.
Qed.

Lemma src_second_fails table c c1 c2 rest results t a1 :
  store_upsert env t table c1 c = Answered a1 ->
  a_error a1 = None ->
  failed (store_upsert env (t ++ [StoreUpsert table c1 c (Answered a1)])%list table c2 c) ->
  exists e,
    Supabase.upsert_chunks env table c (c1 :: c2 :: rest) results t
    = (Thrown e,
       (t ++ [ StoreUpsert table c1 c (Answered a1);
               StoreUpsert table c2 c
                 (store_upsert env (t ++ [StoreUpsert table c1 c (Answered a1)])%list table c2 c) ])%list).
Proof.
  intros H1 Ha1 H2. simpl.
  unfold bind at 1. unfold Supabase.client_upsert at 1.
  rewrite H1, Ha1. unfold bind, Supabase.client_upsert.
  destruct (store_upsert env _ table c2 c) as [a2 | e2] eqn:Hreply.
  - simpl in H2. destruct (a_error a2) as [err |]; [| contradiction].
    eexists. unfold throw. rewrite <- app_assoc. reflexivity.
  - eexists. rewrite <- app_assoc. reflexivity.
Qed.

Lemma aborted_trace table c rows t e a1 reply :
  a_error a1 = None ->
  failed reply ->
  aborted_at_second table c rows t
    (Thrown e, (t ++ [ StoreUpsert table (take 500 rows) c (Answered a1);
                       StoreUpsert table (take 500 (drop 500 rows)) c reply ])%list).
Proof.
  intros Ha1 Hf. unfold aborted_at_second.
  change (t ++ [ StoreUpsert table (take 500 rows) c (Answered a1);
                 StoreUpsert table (take 500 (drop 500 rows)) c reply ])%list
    with (t ++ [StoreUpsert table (take 500 rows) c (Answered a1)]
            ++ [StoreUpsert table (take 500 (drop 500 rows)) c reply])%list.
  rewrite app_assoc, !upsert_calls_snoc, !committed_snoc, Ha1, <- !app_assoc. simpl.
  split; [reflexivity |].
  destruct reply as [a2 |]; simpl in Hf |- *; [| reflexivity].
  destruct (a_error a2); [reflexivity | contradiction].
Qed.

End WriterFacts.

(** C2. A non-empty list of rows is split into consecutive chunks of at
    most 500, in order; either writer sends one store-level upsert per
    chunk, one after the other, and at the first chunk the store fails it
    throws "Failed to upsert to table ...", the chunks before it committed
    and the chunks after it never sent.  1200 rows make the chunks 500, 500,
    200; if the store fails the second call, the first chunk stays
    committed and the third is not sent. *)
Theorem C2_chunked_upsert :
  forall env table column rows t,
    rows <> [] ->
    table_name_re table = true ->
    conflict_column_re column = true ->
    concat (chunks rows) = rows
    /\ (forall k c, chunks rows !! k = Some c ->
          c = slice (500 * k) (500 * k + 500) rows
          /\ (0 < length c <= 500)%nat
          /\ (500 * k + 500 <= length rows -> length c = 500)%nat)
    /\ chunked_outcome table (VStr column) rows t
         (SupabaseLambda.upsert env (VStr table) (Array rows) (VStr column) t)
    /\ chunked_outcome table (VStr column) rows t
         (Supabase.upsert env table (Array rows) (VStr column) t)
    /\ (length rows = 1200%nat ->
        map length (chunks rows) = [500; 500; 200]%nat
        /\ forall a1,
             store_upsert env t table (take 500 rows) (VStr column) = Answered a1 ->
             a_error a1 = None ->
             failed (store_upsert env
                       (t ++ [StoreUpsert table (take 500 rows) (VStr column) (Answered a1)])%list
                       table (take 500 (drop 500 rows)) (VStr column)) ->
             aborted_at_second table (VStr column) rows t
               (SupabaseLambda.upsert env (VStr table) (Array rows) (VStr column) t)
             /\ aborted_at_second table (VStr column) rows t
                  (Supabase.upsert env table (Array rows) (VStr column) t)).
Proof.
  intros env table column rows t Hne Ht Hc.
  split; [apply chunks_concat |].
  split; [intros k c H; apply (chunks_lookup rows k c H) |].
  split; [now apply lambda_upsert_chunked |].
  split; [now apply src_upsert_chunked |].
  intros Hlen. destruct (chunks_1200 rows Hlen) as [Hchunks Hsizes].
  split; [exact Hsizes |].
  intros a1 H1 Ha1 H2.
  destruct rows as [| row rows]; [contradiction |].
  rewrite (lambda_upsert_loop env) by assumption.
  rewrite src_upsert_loop. rewrite Hchunks.
  destruct (lambda_second_fails env table (VStr column) _ _ [drop 1000 (row :: rows)] [] t a1
              H1 Ha1 H2) as (e & ->).
  destruct (src_second_fails env table (VStr column) _ _ [drop 1000 (row :: rows)] [] t a1
              H1 Ha1 H2) as (e' & ->).
  split; now apply aborted_trace.
Qed.

Lemma C2_chunked_upsert_witness :
  map length (chunks Sample.rows_1200) = [500; 500; 200]%nat
  /\ aborted_at_second "customers" (VStr "customer_internal_id") Sample.rows_1200 []
       (SupabaseLambda.upsert Sample.second_upsert_fails (VStr "customers")
          (Array Sample.rows_1200) (VStr "customer_internal_id") []).
Proof.
  assert (Hne : Sample.rows_1200 <> []).
  { intros H. apply (f_equal length) in H. vm_compute in H. discriminate H. }
  assert (Hlen : length Sample.rows_1200 = 1200%nat) by (vm_compute; reflexivity).
  destruct (C2_chunked_upsert Sample.second_upsert_fails "customers" "customer_internal_id"
              Sample.rows_1200 [] Hne eq_refl eq_refl) as (_ & _ & _ & _ & H).
  destruct (H Hlen) as [Hsizes Habort].
  split; [exact Hsizes |].
  apply (Habort {| a_data := Some (take 500 Sample.rows_1200); a_count := VNull; a_error := None |}).
  - reflexivity.
  - reflexivity.
  - vm_compute. discriminate.
Defined.

(** C5 as the specification words it does not hold of the packaged
    writer: an empty list of records is answered with [{ count: 0 }], not
    with an error. *)
Lemma C5_packaged_writer_accepts_empty :
  SupabaseLambda.upsert Sample.calm (VStr "customers") (Array []) (VStr "customer_internal_id") []
  = (Value NothingUpserted, [])
  /\ ~ (exists e t,
          SupabaseLambda.upsert Sample.calm (VStr "customers") (Array [])
            (VStr "customer_internal_id") [] = (Thrown e, t)).
Proof.
  split; [reflexivity |]. intros (e & t & H). discriminate H.
Qed.

(** C5 (amended). With a valid table name and conflict column, neither
    writer issues a store-level call for an empty list of records or for
    an argument that is not an array.  The first writer throws "No records
    provided for upsert" in both cases; the packaged writer throws "Records
    must be an array" for a non-array, and for an empty list returns
    [{ count: 0 }] without throwing. *)
Theorem C5_empty_or_not_array :
  forall env table column v t,
    table_name_re table = true ->
    conflict_column_re column = true ->
    Supabase.upsert env table (Array []) (VStr column) t
    = (Thrown (new_Error "No records provided for upsert"), t)
    /\ Supabase.upsert env table (NotArray v) (VStr column) t
       = (Thrown (new_Error "No records provided for upsert"), t)
    /\ SupabaseLambda.upsert env (VStr table) (NotArray v) (VStr column) t
       = (Thrown (new_Error "Records must be an array"), t)
    /\ SupabaseLambda.upsert env (VStr table) (Array []) (VStr column) t
       = (Value NothingUpserted, t).
Proof.
  intros env table column v t Ht Hc.
  repeat split; try reflexivity;
    unfold SupabaseLambda.upsert; simpl; rewrite Ht; reflexivity.
Qed.

Lemma C5_empty_or_not_array_witness :
  Supabase.upsert Sample.calm "customers" (Array []) (VStr "customer_internal_id") []
  = (Thrown (new_Error "No records provided for upsert"), [])
  /\ SupabaseLambda.upsert Sample.calm (VStr "customers") (NotArray (VStr "a,b"))
       (VStr "customer_internal_id") []
     = (Thrown (new_Error "Records must be an array"), []).
Proof.
  destruct (C5_empty_or_not_array Sample.calm "customers" "customer_internal_id"
              (VStr "a,b") [] eq_refl eq_refl) as (H1 & _ & H3 & _).
  split; [exact H1 | exact H3].
Defined.

(** C9 as the specification words it does not hold: the first writer
    sends rows to a table called "bad table!", and the packaged writer
    does not look at an empty conflict column. *)
Lemma C9_unvalidated_names_reach_the_store :
  (exists res t,
     Supabase.upsert Sample.calm "bad table!" (Array [ {[ "id" := VNum (Fin 1) ]} ]) (VStr "id") []
     = (Value res, t)
     /\ upsert_calls t = [ ("bad table!", [ {[ "id" := VNum (Fin 1) ]} ], VStr "id") ])
  /\ (conflict_column_re "" = false
      /\ exists res t,
           SupabaseLambda.upsert Sample.calm (VStr "customers")
             (Array [ {[ "id" := VNum (Fin 1) ]} ]) (VStr "") []
           = (Value res, t)
           /\ upsert_calls t = [ ("customers", [ {[ "id" := VNum (Fin 1) ]} ], VStr "") ]).
Proof.
  split; [| split; [reflexivity |]]; do 2 eexists; split; reflexivity.
Qed.

(** C9 (amended). The packaged writer rejects, before any store-level
    call: every table name that does not match [^[A-Za-z0-9_-]+$] (such as
    "bad table!"), with "Invalid table name format"; and, for a valid
    table and a non-empty array of records, every conflict column that is
    truthy and is not a string matching [^[A-Za-z0-9_ -]+$], with "Invalid
    conflict column format". *)
Theorem C9_packaged_writer_validation :
  forall env table records onConflict t,
    (forall name, table = VStr name -> table_name_re name = false) ->
    SupabaseLambda.upsert env table records onConflict t
    = (Thrown (new_Error "Invalid table name format"), t)
    /\ SupabaseLambda.upsert env (VStr "bad table!") records onConflict t
       = (Thrown (new_Error "Invalid table name format"), t)
    /\ forall name row rows,
         table_name_re name = true ->
         truthy onConflict = true ->
         (forall column, onConflict = VStr column -> conflict_column_re column = false) ->
         SupabaseLambda.upsert env (VStr name) (Array (row :: rows)) onConflict t
         = (Thrown (new_Error "Invalid conflict column format"), t).
Proof.
  intros env table records onConflict t Hbad. split; [| split].
  - unfold SupabaseLambda.upsert.
    assert (Hv : SupabaseLambda._isValidTableName table = false).
    { destruct table; try reflexivity. simpl. now apply Hbad. }
    now rewrite Hv.
  - reflexivity.
  - intros name row rows Hname Htruthy Hcol.
    unfold SupabaseLambda.upsert.
    change (SupabaseLambda._isValidTableName (VStr name)) with (table_name_re name).
    rewrite Hname.
    destruct onConflict as [| | b | n | column | f |]; simpl in Htruthy |- *;
      try discriminate; try (rewrite Htruthy; reflexivity); try reflexivity.
    rewrite Htruthy, (Hcol column eq_refl). reflexivity.
Qed.

Lemma C9_packaged_writer_validation_witness :
  SupabaseLambda.upsert Sample.calm (VStr "bad table!") (Array [ {[ "id" := VNum (Fin 1) ]} ])
    (VStr "id") []
  = (Thrown (new_Error "Invalid table name format"), [])
  /\ SupabaseLambda.upsert Sample.calm (VStr "customers") (Array [ {[ "id" := VNum (Fin 1) ]} ])
       (VStr "id; drop") []
     = (Thrown (new_Error "Invalid conflict column format"), []).
Proof.
  assert (Hbad : forall name, VStr "bad table!" = VStr name -> table_name_re name = false).
  { intros name [= <-]. reflexivity. }
  assert (Hcol : forall column, VStr "id; drop" = VStr column -> conflict_column_re column = false).
  { intros column [= <-]. reflexivity. }
  destruct (C9_packaged_writer_validation Sample.calm (VStr "bad table!")
              (Array [ {[ "id" := VNum (Fin 1) ]} ]) (VStr "id") [] Hbad) as (H1 & _ & _).
  destruct (C9_packaged_writer_validation Sample.calm (VStr "bad table!")
              (Array [ {[ "id" := VNum (Fin 1) ]} ]) (VStr "id; drop") [] Hbad) as (_ & _ & H3).
  split; [exact H1 |].
  apply (H3 "customers" _ []); [reflexivity | reflexivity | exact Hcol].
Defined.

(* ===================================================================== *)
(** * Pagination *)
(* ===================================================================== *)

Section ReaderFacts.

Variable env : Env.
Variables accountId scriptId deployId : string.
Variable JSON_parse : string -> Json + string.
Variable searchId : string.

Local Abbreviation url_of := (Netsuite.request_url accountId scriptId deployId searchId).

Lemma truthy_or_false v : truthy (or_else v (VBool false)) = truthy v.
Proof. unfold or_else. now destruct (truthy v) eqn:E. Qed.

Lemma requests_snoc t e :
  requests (t ++ [e])%list
  = (requests t ++ match e with HttpGet url _ => [url] | _ => [] end)%list.
Proof. unfold requests. rewrite omap_app. now destruct e. Qed.

Lemma requests_received t url status p :
  requests (received t url status p) = (requests t ++ [url])%list.
Proof.
  unfold received. destruct (truthy (p_hasMore p)).
  - change (t ++ [HttpGet url (Resolved status (JObject p)); Sleep 1000])%list
      with (t ++ [HttpGet url (Resolved status (JObject p))] ++ [Sleep 1000])%list.
    rewrite app_assoc, !requests_snoc. simpl. now rewrite app_nil_r.
  - now rewrite requests_snoc.
Qed.

Lemma page_indices_cons from n :
  page_indices from (S n) = from :: page_indices (from + 1) n.
Proof.
  unfold page_indices. simpl. f_equal; [lia |].
  rewrite <- seq_shift, map_map. apply map_ext. intros i. lia.
Qed.

(** One well-formed page is fetched and parsed without an exception. *)
Lemma fetch_one t page status p rows :
  http_get env t (url_of page) = Resolved status (JObject p) ->
  truthy (p_error p) = false ->
  p_data p = DataArray rows ->
  Netsuite.fetchSavedSearch env accountId scriptId deployId searchId page t
  = (Value (JObject p), (t ++ [HttpGet (url_of page) (Resolved status (JObject p))])%list)
  /\ forall t0,
       exists pg,
         Netsuite.parseNetSuiteResponse JSON_parse (JObject p) t0 = (Value pg, t0)
         /\ Netsuite.data pg = rows
         /\ truthy (Netsuite.hasMore pg) = truthy (p_hasMore p).
Proof.
  intros Hget Herr Hdata. split.
  - unfold Netsuite.fetchSavedSearch, try_catch, bind, Netsuite.axios_get.
    fold (url_of page). rewrite Hget. simpl. now rewrite Herr.
  - intros t0. destruct p as [perr pdata ppi ptp phm]. simpl in *. subst pdata.
    eexists. split; [reflexivity |]. split; [reflexivity | apply truthy_or_false].
Qed.

Lemma fetch_loop_serves pages : forall fuel allResults page t,
  Forall well_formed pages ->
  ends_at_last pages ->
  serves env url_of t page pages ->
  (length pages <= fuel)%nat ->
  exists t',
    Netsuite.fetch_loop env accountId scriptId deployId JSON_parse fuel searchId allResults page t
    = (Value (allResults ++ concat (map page_rows pages))%list, t')
    /\ requests t' = (requests t ++ map url_of (page_indices page (length pages)))%list.
Proof.
  induction pages as [| p rest IH]; intros fuel allResults page t Hwf Hend Hserves Hfuel;
    [contradiction |].
  destruct fuel as [| fuel]; [simpl in Hfuel; lia |].
  apply Forall_cons in Hwf as [[Herr [rows Hdata]] Hwf].
  destruct Hserves as (status & Hget & Hserves).
  destruct (fetch_one t page status p rows Hget Herr Hdata) as [Hfetch Hparse].
  destruct (Hparse (t ++ [HttpGet (url_of page) (Resolved status (JObject p))])%list)
    as (pg & Hpg & Hrows & Hmore).
  assert (Hpr : page_rows p = rows) by (unfold page_rows; now rewrite Hdata).
  cbn [Netsuite.fetch_loop]. unfold bind at 1. rewrite Hfetch.
  unfold bind at 1. unfold try_catch at 1. unfold bind at 1. rewrite Hpg.
  change (length (p :: rest)) with (S (length rest)).
  rewrite page_indices_cons. cbn [map concat]. rewrite Hpr, Hrows.
  unfold received in Hserves. rewrite <- Hmore in Hserves.
  destruct (truthy (Netsuite.hasMore pg)) eqn:Hm.
  - cbv beta iota delta [ret bind Netsuite.delay]. rewrite Hm.
    destruct rest as [| p' rest'].
    + simpl in Hend. rewrite Hmore in Hm. congruence.
    + destruct Hend as [_ Hend].
      destruct (IH fuel (allResults ++ rows)%list (page + 1)
                  ((t ++ [HttpGet (url_of page) (Resolved status (JObject p))]) ++ [Sleep 1000])%list
                  Hwf Hend) as (t' & Hrun & Hreq).
      { rewrite <- app_assoc. exact Hserves. }
      { simpl in Hfuel |- *. lia. }
      exists t'. rewrite Hrun. split; [now rewrite <- app_assoc |].
      rewrite Hreq, !requests_snoc. simpl. rewrite app_nil_r, <- app_assoc. reflexivity.
  - cbv beta iota delta [ret bind]. rewrite Hm.
    destruct rest as [| p' rest'].
    + eexists. split; [simpl; now rewrite app_nil_r |].
      rewrite requests_snoc. reflexivity.
    + destruct Hend as [Hend _]. rewrite Hmore in Hm. congruence.
Qed.

End ReaderFacts.

(** C3. When the remote answers the successive requests with a sequence
    of well-formed pages whose [hasMore] is true on all but the last,
    [fetchAllSavedSearchPages] requests the pages 0, 1, 2, ... once each,
    in that order, stops after the page whose [hasMore] is false, and
    returns the rows of all pages concatenated in page order; for three
    pages it issues exactly three requests. *)
Theorem C3_fetch_all_pages :
  forall env accountId scriptId deployId JSON_parse searchId pages fuel t,
    Forall well_formed pages ->
    ends_at_last pages ->
    serves env (Netsuite.request_url accountId scriptId deployId searchId) t 0 pages ->
    (length pages <= fuel)%nat ->
    exists t',
      Netsuite.fetchAllSavedSearchPages env accountId scriptId deployId JSON_parse fuel searchId t
      = (Value (concat (map page_rows pages)), t')
      /\ requests t'
         = (requests t ++ map (Netsuite.request_url accountId scriptId deployId searchId)
                            (page_indices 0 (length pages)))%list
      /\ (length pages = 3%nat -> length (requests t') = (length (requests t) + 3)%nat).
Proof.
  intros env accountId scriptId deployId JSON_parse searchId pages fuel t Hwf Hend Hserves Hfuel.
  destruct (fetch_loop_serves env accountId scriptId deployId JSON_parse searchId pages
              fuel [] 0 t Hwf Hend Hserves Hfuel) as (t' & Hrun & Hreq).
  exists t'. split; [exact Hrun | split; [exact Hreq |]].
  intros H3. rewrite Hreq, length_app, length_map. unfold page_indices.
  rewrite length_map, length_seq, H3. reflexivity.
Qed.

Lemma C3_fetch_all_pages_witness :
  exists t',
    Netsuite.fetchAllSavedSearchPages Sample.three_pages "1234567" "77" "1"
      (fun _ => inr "Unexpected token") 3 "2019" []
    = (Value [ Sample.page_row 10; Sample.page_row 11; Sample.page_row 12 ], t')
    /\ requests t'
       = [ "https://1234567.restlets.api.netsuite.com/app/site/hosting/restlet.nl?script=77&deploy=1&searchId=2019&page=0";
           "https://1234567.restlets.api.netsuite.com/app/site/hosting/restlet.nl?script=77&deploy=1&searchId=2019&page=1";
           "https://1234567.restlets.api.netsuite.com/app/site/hosting/restlet.nl?script=77&deploy=1&searchId=2019&page=2" ].
Proof.
  pose (p0 := {| p_error := VUndef; p_data := DataArray [Sample.page_row 10];
                 p_pageIndex := VNum (Fin 0); p_totalPages := VNum (Fin 1);
                 p_hasMore := VBool true |}).
  pose (p1 := {| p_error := VUndef; p_data := DataArray [Sample.page_row 11];
                 p_pageIndex := VNum (Fin 0); p_totalPages := VNum (Fin 1);
                 p_hasMore := VBool true |}).
  pose (p2 := {| p_error := VUndef; p_data := DataArray [Sample.page_row 12];
                 p_pageIndex := VNum (Fin 0); p_totalPages := VNum (Fin 1);
                 p_hasMore := VBool false |}).
  assert (Hwf : Forall well_formed [p0; p1; p2]).
  { repeat constructor; eexists; reflexivity. }
  assert (Hend : ends_at_last [p0; p1; p2]) by (simpl; tauto).
  assert (Hserves : serves Sample.three_pages
                      (Netsuite.request_url "1234567" "77" "1" "2019") [] 0 [p0; p1; p2]).
  { cbv beta iota delta [serves].
    exists 200. split; [vm_compute; reflexivity |].
    exists 200. split; [vm_compute; reflexivity |].
    exists 200. split; [vm_compute; reflexivity | exact I]. }
  destruct (C3_fetch_all_pages Sample.three_pages "1234567" "77" "1"
              (fun _ => inr "Unexpected token") "2019" [p0; p1; p2] 3 []
              Hwf Hend Hserves (le_n 3)) as (t' & Hrun & Hreq & _).
  exists t'. split; [exact Hrun |].
  rewrite Hreq. vm_compute. reflexivity.
Defined.

(* ===================================================================== *)
(** * Conflict keys *)
(* ===================================================================== *)

Lemma get_tableIdMap_own table v :
  tableIdMap !! table = Some v -> getTableIdColumn table = or_else v (VStr "id").
Proof. intros H. unfold getTableIdColumn, get. now rewrite H. Qed.

(** The policy, for every table whose name is not that of a property of
    [Object.prototype]: both paths compute the same key; a detail table
    gets "pkey", another table of the static map its own column, and any
    other table "id". *)
Lemma conflict_key_policy table :
  conflictKey_page table = conflictKey_bulk table
  /\ (forall column, In (table, column) detail_tables -> conflictKey_bulk table = VStr "pkey")
  /\ (forall column, In (table, column) (header_tables ++ [("forecast", "pkey")])%list ->
        conflictKey_bulk table = VStr column /\ getTableIdColumn table = VStr column)
  /\ (tableIdMap !! table = None -> Object_prototype !! table = None ->
        conflictKey_bulk table = VStr "id" /\ getTableIdColumn table = VStr "id").
Proof.
  split; [reflexivity |]. split; [| split].
  - intros column Hin. simpl in Hin.
    repeat (destruct Hin as [Hin | Hin]; [injection Hin as <- <-; reflexivity |]).
    contradiction.
  - intros column Hin. simpl in Hin.
    repeat (destruct Hin as [Hin | Hin]; [injection Hin as <- <-; split; reflexivity |]).
    contradiction.
  - intros Hmap Hproto.
    assert (Hid : getTableIdColumn table = VStr "id").
    { unfold getTableIdColumn, get. now rewrite Hmap, Hproto. }
    split; [| exact Hid].
    unfold conflictKey_bulk. rewrite Hid.
    destruct (is_detail_table table) eqn:E; [| reflexivity].
    unfold is_detail_table in E.
    repeat match type of E with
           | context [String.eqb table ?t] =>
               destruct (String.eqb_spec table t) as [-> | _]
           end; try discriminate Hmap; discriminate E.
Qed.

(** C8, at the table name "constructor": it passes the table-name test
    and is not in the static map, yet [getTableIdColumn] does not answer
    "id": the lookup [tableIdMap[table]] finds the inherited
    [Object.prototype.constructor], a function, which is truthy and is
    returned.  The bulk path then passes it to [upsert], which rejects it. *)
Theorem C8_inherited_name_is_not_defaulted :
  table_name_re "constructor" = true
  /\ tableIdMap !! "constructor" = None
  /\ getTableIdColumn "constructor" = VFun "Object"
  /\ getTableIdColumn "constructor" <> VStr "id"
  /\ conflictKey_bulk "constructor" = VFun "Object"
  /\ forall env row t,
       SupabaseLambda.upsert env (VStr "constructor") (Array [row])
         (conflictKey_bulk "constructor") t
       = (Thrown (new_Error "Invalid conflict column format"), t).
Proof.
  repeat split; try reflexivity; discriminate.
Qed.

(* ===================================================================== *)
(** * Calls that settle *)
(* ===================================================================== *)

Section Settling.

Context {S : Type}.

Lemma settle_bind {A B} (c : M S A) (k : A -> M S B) s :
  fst (c s) <> Pending ->
  (forall a s1, c s = (Value a, s1) -> fst (k a s1) <> Pending) ->
  fst (bind c k s) <> Pending.
Proof.
  intros Hc Hk. unfold bind. destruct (c s) as [[a | e |] s1]; simpl in *;
    [now apply Hk | discriminate | contradiction].
Qed.

Lemma settle_catch {A} (c : M S A) h s :
  fst (c s) <> Pending ->
  (forall e s1, c s = (Thrown e, s1) -> fst (h e s1) <> Pending) ->
  fst (try_catch c h s) <> Pending.
Proof.
  intros Hc Hh. unfold try_catch. destruct (c s) as [[a | e |] s1]; simpl in *;
    [discriminate | now apply Hh | contradiction].
Qed.

End Settling.

Lemma settle_call {W A} (c : M W A) (s : Manager W) : settles c -> fst (call c s) <> Pending.
Proof. intros H. unfold call. specialize (H (world s)). now destruct (c (world s)). Qed.

(* ===================================================================== *)
(** * Isolation of the mappings *)
(* ===================================================================== *)

Section Isolation.

Context {W : Type}.
Variable ns : NetsuiteClient W.
Variable sb : SupabaseClient W.
Variable mappings : list Mapping.
Variable clock : W -> nat -> string.

Implicit Types (s : Manager W) (m : Mapping).

Lemma steady_ret {A} (a : A) : @steady W A (ret a).
Proof. now intros s. Qed.

Lemma steady_throw {A} e : @steady W A (throw e).
Proof. now intros s. Qed.

Lemma steady_never {A} : @steady W A never.
Proof. now intros s. Qed.

Lemma steady_call {A} (c : M W A) : steady (call c).
Proof. intros s. unfold call. now destruct (c (world s)). Qed.

Lemma steady_gets {A} (f : Manager W -> A) : steady (gets f).
Proof. now intros s. Qed.

Lemma steady_bind {A B} (c : M (Manager W) A) (k : A -> M (Manager W) B) :
  steady c -> (forall a, steady (k a)) -> steady (bind c k).
Proof.
  intros Hc Hk s. unfold bind. specialize (Hc s).
  destruct (c s) as [[a | e |] s1]; simpl in *; [| assumption | assumption].
  now rewrite (Hk a s1).
Qed.

Lemma steady_normalize table rows : steady (normalize clock table rows).
Proof. apply steady_gets. Qed.

Lemma steady_page_loop fuel m : forall page total, steady (page_loop ns sb clock fuel m page total).
Proof.
  induction fuel as [| fuel IH]; intros page total; simpl; [apply steady_never |].
  apply steady_bind; [apply steady_call |]. intros [pageData more].
  apply steady_bind.
  - destruct pageData; [apply steady_ret |].
    apply steady_bind; [apply steady_normalize |]. intros processed.
    apply steady_bind; [apply steady_call | intros _; apply steady_ret].
  - intros total'. destruct (truthy more); [apply IH | apply steady_ret].
Qed.

Lemma steady_pagination_try fuel m : steady (syncMappingWithPagination_try ns sb clock fuel m).
Proof.
  unfold syncMappingWithPagination_try.
  repeat (apply steady_bind; [first [apply steady_call | apply steady_page_loop] | intros ?]).
  apply steady_ret.
Qed.

(** The two [try] blocks only ever return [true]. *)
Lemma pagination_try_true fuel m s b s' :
  syncMappingWithPagination_try ns sb clock fuel m s = (Value b, s') -> b = true.
Proof.
  unfold syncMappingWithPagination_try, bind, ret.
  destruct (call _ s) as [[? | ? |] s1]; try discriminate.
  destruct (page_loop _ _ _ _ _ _ _ s1) as [[? | ? |] s2]; try discriminate.
  destruct (call _ s2) as [[? | ? |] s3]; try discriminate.
  now intros [= <- _].
Qed.

Lemma logError_spec msg e s :
  logError clock msg e s
  = (Value tt,
     with_stats s (tally (syncStats s) 0 0
                     [ {| entry_message := msg; entry_error := message e;
                          entry_timestamp := clock (world s) 0 |} ])).
Proof.
  unfold logError, toISOString, update, modify, gets, bind, with_stats, tally. simpl.
  now rewrite !Nat.add_0_r.
Qed.

(** The boundary: a steady [try] block that only returns [true], under
    the [catch] that logs and returns [false]. *)
Lemma boundary (body : M (Manager W) bool) msg s :
  steady body ->
  (forall b s', body s = (Value b, s') -> b = true) ->
  guarded_outcome s (try_catch body (fun error => logError clock msg error ;;; ret false) s)
  /\ forall e s1,
       body s = (Thrown e, s1) ->
       try_catch body (fun error => logError clock msg error ;;; ret false) s
       = (Value false,
          with_stats s1 (tally (syncStats s) 0 0
                           [ {| entry_message := msg; entry_error := message e;
                                entry_timestamp := clock (world s1) 0 |} ])).
Proof.
  intros Hsteady Htrue. specialize (Hsteady s). unfold try_catch.
  destruct (body s) as [[b | e |] s1] eqn:Hbody; simpl in Hsteady.
  - split; [| discriminate]. rewrite (Htrue b s1 eq_refl). exact Hsteady.
  - unfold bind. rewrite logError_spec. unfold ret. rewrite Hsteady.
    split; [simpl; eauto | now intros e' s1' [= <- <-]].
  - split; [exact Hsteady | discriminate].
Qed.

Lemma pagination_guarded fuel m s :
  guarded_outcome s (syncMappingWithPagination ns sb clock fuel m s).
Proof.
  apply boundary; [apply steady_pagination_try |].
  intros b s'. apply pagination_try_true.
Qed.

Lemma bulk_try_steady fuel m :
  requiresPagination (table m) = false -> steady (syncMapping_try ns sb clock fuel m).
Proof.
  intros Hp. unfold syncMapping_try. rewrite Hp.
  apply steady_bind; [apply steady_call | intros _].
  apply steady_bind; [apply steady_call | intros raw].
  destruct raw; [apply steady_ret |].
  apply steady_bind; [apply steady_normalize | intros processed].
  destruct processed; [apply steady_ret |].
  repeat (apply steady_bind; [apply steady_call | intros _]). apply steady_ret.
Qed.

Lemma bulk_try_true fuel m s b s' :
  requiresPagination (table m) = false ->
  syncMapping_try ns sb clock fuel m s = (Value b, s') -> b = true.
Proof.
  intros Hp. unfold syncMapping_try. rewrite Hp. unfold bind, ret.
  destruct (call _ s) as [[? | ? |] s1]; try discriminate.
  destruct (call _ s1) as [[raw | ? |] s2]; try discriminate.
  destruct raw; [now intros [= <- _] |].
  destruct (normalize _ _ _ s2) as [[processed | ? |] s3]; try discriminate.
  destruct processed; [now intros [= <- _] |].
  destruct (call _ s3) as [[? | ? |] s4]; try discriminate.
  destruct (call _ s4) as [[? | ? |] s5]; try discriminate.
  now intros [= <- _].
Qed.

(** [syncMapping] never throws: whatever happens inside the mapping ends
    as [true], or as [false] with one entry in [errors]. *)
Lemma syncMapping_guarded fuel m s :
  guarded_outcome s (syncMapping ns sb clock fuel m s).
Proof.
  destruct (requiresPagination (table m)) eqn:Hp.
  - unfold syncMapping, syncMapping_try, try_catch. rewrite Hp.
    pose proof (pagination_guarded fuel m s) as H.
    destruct (syncMappingWithPagination ns sb clock fuel m s) as [[b | e |] s1]; simpl in *;
      [exact H | contradiction | exact H].
  - apply boundary; [now apply bulk_try_steady |].
    intros b s'. now apply bulk_try_true.
Qed.

Lemma syncMapping_catches fuel m s e s1 :
  requiresPagination (table m) = false ->
  syncMapping_try ns sb clock fuel m s = (Thrown e, s1) ->
  syncMapping ns sb clock fuel m s
  = (Value false,
     with_stats s1 (tally (syncStats s) 0 0
                      [ {| entry_message := "Failed to sync " ++ name m ++ " to " ++ table m;
                           entry_error := message e;
                           entry_timestamp := clock (world s1) 0 |} ])).
Proof.
  intros Hp Hbody. unfold syncMapping.
  apply boundary; [now apply bulk_try_steady | | exact Hbody].
  intros b s'. now apply bulk_try_true.
Qed.

Lemma syncMapping_catches_page fuel m s e s1 :
  requiresPagination (table m) = true ->
  syncMappingWithPagination_try ns sb clock fuel m s = (Thrown e, s1) ->
  syncMapping ns sb clock fuel m s
  = (Value false,
     with_stats s1 (tally (syncStats s) 0 0
                      [ {| entry_message := "Failed to sync " ++ name m ++ " to " ++ table m
                                            ++ " during pagination";
                           entry_error := message e;
                           entry_timestamp := clock (world s1) 0 |} ])).
Proof.
  intros Hp Hbody. unfold syncMapping, syncMapping_try. rewrite Hp.
  assert (Hinner : syncMappingWithPagination ns sb clock fuel m s
                   = (Value false,
                      with_stats s1 (tally (syncStats s) 0 0
                        [ {| entry_message := "Failed to sync " ++ name m ++ " to " ++ table m
                                              ++ " during pagination";
                             entry_error := message e;
                             entry_timestamp := clock (world s1) 0 |} ]))).
  { unfold syncMappingWithPagination.
    apply boundary; [apply steady_pagination_try | | exact Hbody].
    intros b s'. apply pagination_try_true. }
  unfold try_catch at 1. now rewrite Hinner.
Qed.

(** The loop goes on with the next mapping, whatever the outcome. *)
Lemma sync_each_step fuel m rest s b s1 :
  syncMapping ns sb clock fuel m s = (Value b, s1) ->
  sync_each ns sb clock fuel (m :: rest) s
  = sync_each ns sb clock fuel rest
      (with_stats s1 (if b then count_success (syncStats s1) else count_failure (syncStats s1))).
Proof.
  intros H. simpl. unfold bind at 1. rewrite H.
  unfold bind, update, modify, with_stats. simpl. now destruct b.
Qed.

Lemma tally_none st : tally st 0 0 [] = st.
Proof. destruct st. unfold tally. simpl. now rewrite !Nat.add_0_r, app_nil_r. Qed.

Lemma tally_success st ok ko entries :
  tally (count_success st) ok ko entries = tally st (S ok) ko entries.
Proof. unfold tally, count_success. simpl. f_equal. lia. Qed.

Lemma tally_failure st entry ok ko entries :
  tally (count_failure (tally st 0 0 [entry])) ok ko entries
  = tally st ok (S ko) (entry :: entries).
Proof.
  unfold tally, count_failure. simpl. f_equal; [lia | lia |].
  now rewrite <- app_assoc.
Qed.

Lemma sync_each_tallied fuel ms : forall s,
  tallied ms s (sync_each ns sb clock fuel ms s).
Proof.
  induction ms as [| m rest IH]; intros s.
  - simpl. exists 0%nat, 0%nat, []. now rewrite tally_none.
  - pose proof (syncMapping_guarded fuel m s) as Hg.
    destruct (syncMapping ns sb clock fuel m s) as [[b | e |] s1] eqn:Hm.
    + rewrite (sync_each_step fuel m rest s b s1 Hm).
      match goal with |- tallied _ _ (sync_each _ _ _ _ _ ?s2) => specialize (IH s2) end.
      destruct (sync_each _ _ _ _ _ _) as [[u | e |] s3]; simpl in IH |- *; [| exact IH | exact I].
      destruct IH as (ok & ko & entries & Hsum & Hlen & Hstats).
      destruct b; simpl in Hg, Hstats.
      * rewrite Hg, tally_success in Hstats.
        exists (S ok), ko, entries. repeat split; [lia | exact Hlen | exact Hstats].
      * destruct Hg as [entry Hg]. rewrite Hg, tally_failure in Hstats.
        exists ok, (S ko), (entry :: entries).
        repeat split; [lia | simpl; now rewrite Hlen | exact Hstats].
    + contradiction.
    + simpl. unfold bind at 1. rewrite Hm. exact I.
Qed.

(** ** Runs that end *)

Lemma settle_log {A} msg (a : A) e s : fst ((logError clock msg e ;;; ret a) s) <> Pending.
Proof. unfold bind. rewrite logError_spec. discriminate. Qed.

Section Ending.

Variable last : nat.
Hypothesis Hsettle : clients_settle ns sb.
Hypothesis Hlast : pages_end_by ns last.

Lemma page_loop_ends m : forall fuel page total s,
  (1 <= fuel)%nat ->
  Z.of_nat fuel + page = Z.of_nat last + 1 ->
  fst (page_loop ns sb clock fuel m page total s) <> Pending.
Proof.
  destruct Hsettle as (_ & Hpage & _ & _ & _ & Hupsert).
  induction fuel as [| fuel IH]; intros page total s Hge Hsum; [lia |].
  cbn [page_loop]. apply settle_bind; [apply settle_call, Hpage |].
  intros [pageData more] s1 Hfetch.
  apply settle_bind.
  - destruct pageData; [discriminate |].
    apply settle_bind; [discriminate |]. intros processed s2 _.
    apply settle_bind; [apply settle_call, Hupsert | discriminate].
  - intros total' s2 _. destruct (truthy more) eqn:Hmore; [| discriminate].
    destruct fuel as [| fuel'].
    + exfalso. assert (page = Z.of_nat last) as -> by lia.
      unfold call in Hfetch.
      destruct (fetchSavedSearchPage ns (searchId m) (Z.of_nat last) (world s))
        as [[[rows hm] | e |] w'] eqn:Hf; try discriminate.
      injection Hfetch as -> -> _.
      rewrite (Hlast _ _ _ _ _ Hf) in Hmore. discriminate.
    + apply IH; lia.
Qed.

Lemma syncMapping_ends m s :
  (1 <= last)%nat -> fst (syncMapping ns sb clock last m s) <> Pending.
Proof.
  intros Hge. pose proof Hsettle as (_ & _ & Hall & _ & Hcount & Hupsert).
  unfold syncMapping. apply settle_catch; [| intros; apply settle_log].
  unfold syncMapping_try. destruct (requiresPagination (table m)).
  - unfold syncMappingWithPagination. apply settle_catch; [| intros; apply settle_log].
    unfold syncMappingWithPagination_try.
    apply settle_bind; [apply settle_call, Hcount | intros _ s1 _].
    apply settle_bind; [apply page_loop_ends; lia | intros _ s2 _].
    apply settle_bind; [apply settle_call, Hcount | discriminate].
  - apply settle_bind; [apply settle_call, Hcount | intros _ s1 _].
    apply settle_bind; [apply settle_call, Hall | intros raw s2 _].
    destruct raw; [discriminate |].
    apply settle_bind; [discriminate | intros processed s3 _].
    destruct processed; [discriminate |].
    apply settle_bind; [apply settle_call, Hupsert | intros _ s4 _].
    apply settle_bind; [apply settle_call, Hcount | discriminate].
Qed.

Lemma sync_each_ends ms : forall s,
  (1 <= last)%nat -> fst (sync_each ns sb clock last ms s) <> Pending.
Proof.
  induction ms as [| m rest IH]; intros s Hge; [discriminate |].
  cbn [sync_each]. apply settle_bind; [now apply syncMapping_ends |].
  intros b s1 _. apply settle_bind; [discriminate |]. intros _ s2 _. now apply IH.
Qed.

End Ending.

Lemma validation_true s w' :
  validation_passes ns sb mappings (world s) w' ->
  validateConnections ns sb mappings clock s = (Value true, {| syncStats := syncStats s; world := w' |}).
Proof.
  intros (m & ms & b1 & w1 & b2 & -> & H1 & H2).
  unfold validateConnections, try_catch, bind, call. rewrite H1. simpl. now rewrite H2.
Qed.

(** A run in which validation passes and every call settles returns the
    statistics, with every mapping counted once. *)
Lemma runSync_totals fuel s w' :
  clients_settle ns sb ->
  pages_end_by ns fuel ->
  (1 <= fuel)%nat ->
  validation_passes ns sb mappings (world s) w' ->
  exists stats s' ok ko entries,
    runSync ns sb mappings clock fuel s = (Value stats, s')
    /\ stats = syncStats s'
    /\ totalMappings stats = length mappings
    /\ (ok + ko)%nat = length mappings
    /\ length entries = ko
    /\ successfulSyncs stats = (successfulSyncs (syncStats s) + ok)%nat
    /\ failedSyncs stats = (failedSyncs (syncStats s) + ko)%nat
    /\ errors stats = (errors (syncStats s) ++ entries)%list.
Proof.
  intros Hsettle Hlast Hge Hval.
  unfold runSync, start, toISOString, update, modify, gets.
  unfold bind at 1. unfold bind at 1. cbn beta iota.
  unfold bind at 1. cbn beta iota.
  match goal with
  | |- context [validateConnections ns sb mappings clock ?s0] =>
      rewrite (validation_true s0 w' Hval)
  end.
  cbn [negb syncStats world]. unfold bind at 1.
  match goal with
  | |- context [sync_each ns sb clock fuel mappings ?s1] =>
      pose proof (sync_each_tallied fuel mappings s1) as Ht;
      pose proof (sync_each_ends fuel Hsettle Hlast mappings s1 Hge) as He;
      destruct (sync_each ns sb clock fuel mappings s1) as [[u | e |] s2]
  end; simpl in Ht, He; [| contradiction | contradiction].
  destruct Ht as (ok & ko & entries & Hsum & Hlen & Hstats).
  unfold finish, toISOString, update, modify, gets, bind. cbn beta iota.
  do 2 eexists. exists ok, ko, entries.
  split; [reflexivity |]. cbn [syncStats]. rewrite Hstats. simpl.
  repeat split; assumption.
Qed.

(** ** Three mappings, the second of which cannot be fetched *)






End Isolation.

(* ===================================================================== *)
(** * The packaged clients *)
(* ===================================================================== *)

Section PackagedFacts.

Variable env : Env.
Variable settings : Package.Settings.
Variable mappings : list Mapping.
Variable JSON_parse : string -> Json + string.

Local Abbreviation accountId := (Package.NS_ACCOUNT_ID settings).
Local Abbreviation scriptId := (Package.NS_SCRIPT_ID settings).
Local Abbreviation deployId := (Package.NS_DEPLOY_ID settings).

Ltac settle :=
  repeat first
    [ discriminate
    | apply settle_bind; [| intros ? ? ?]
    | apply settle_catch; [| intros ? ? ?]
    | match goal with
      | |- fst ((if ?b then _ else _) _) <> Pending => destruct b
      | |- fst ((match ?x with _ => _ end) _) <> Pending => destruct x
      | |- fst (match ?x with _ => _ end) <> Pending => destruct x
      end ].

Lemma client_count_settles table t : fst (Supabase.client_count env table t) <> Pending.
Proof. unfold Supabase.client_count. now destruct (store_count env t table). Qed.

Lemma client_upsert_settles table chunk c t :
  fst (Supabase.client_upsert env table chunk c t) <> Pending.
Proof. unfold Supabase.client_upsert. now destruct (store_upsert env t table chunk c). Qed.

Lemma axios_get_settles url t : fst (Netsuite.axios_get env url t) <> Pending.
Proof. unfold Netsuite.axios_get. now destruct (http_get env t url). Qed.

Lemma getRecordCount_settles table : settles (SupabaseLambda.getRecordCount env table).
Proof.
  intros t. unfold SupabaseLambda.getRecordCount, SupabaseLambda.client_count.
  settle. apply client_count_settles.
Qed.

Lemma validateConnection_settles m : settles (SupabaseLambda.validateConnection env m).
Proof.
  intros t. unfold SupabaseLambda.validateConnection, SupabaseLambda.client_count.
  settle. apply client_count_settles.
Qed.

Lemma upsert_settles table records c : settles (SupabaseLambda.upsert env table records c).
Proof.
  intros t. unfold SupabaseLambda.upsert.
  destruct (negb (SupabaseLambda._isValidTableName table)); [discriminate |].
  destruct records as [[| row rows] | v]; try discriminate.
  match goal with |- fst ((if ?b then _ else _) _) <> Pending => destruct b end;
    [discriminate |].
  apply settle_catch; [| discriminate].
  apply settle_bind; [| discriminate].
  match goal with
  | |- fst (SupabaseLambda.upsert_chunks env ?tb ?k ?cs ?r t) <> Pending =>
      pose proof (lambda_loop env tb k cs r t) as H;
      destruct (SupabaseLambda.upsert_chunks env tb k cs r t) as [[? | ? |] ?]
  end; [discriminate | discriminate | contradiction].
Qed.

Lemma parse_settles j t :
  fst (NetsuiteLambda.parseNetSuiteResponse JSON_parse j t) <> Pending.
Proof. unfold NetsuiteLambda.parseNetSuiteResponse. settle. Qed.

Lemma fetchSavedSearch_settles sid page t :
  fst (NetsuiteLambda.fetchSavedSearch env accountId scriptId deployId sid page t) <> Pending.
Proof.
  unfold NetsuiteLambda.fetchSavedSearch.
  destruct (sid =? "")%string; [discriminate |].
  destruct (parseInt (Number_toString page)); [discriminate | |];
    (apply settle_catch; [| intros ? ? ?; settle]);
    (apply settle_bind; [apply axios_get_settles | intros ? ? ?; settle]).
Qed.

Lemma fetchSavedSearchPage_settles sid page :
  settles (NetsuiteLambda.fetchSavedSearchPage env accountId scriptId deployId JSON_parse sid page).
Proof.
  intros t. unfold NetsuiteLambda.fetchSavedSearchPage.
  apply settle_catch; [| intros ? ? ?; settle].
  destruct (sid =? "")%string; [discriminate |].
  destruct (parseInt _); [discriminate | |];
    (apply settle_bind; [apply fetchSavedSearch_settles | intros ? ? ?]);
    (apply settle_bind; [apply parse_settles | discriminate]).
Qed.

Lemma validateCredentials_settles :
  settles (NetsuiteLambda.validateCredentials env accountId scriptId deployId
             (Package.NS_CONSUMER_KEY settings) (Package.NS_CONSUMER_SECRET settings)
             (Package.NS_TOKEN_ID settings) (Package.NS_TOKEN_SECRET settings) mappings).
Proof.
  intros t. unfold NetsuiteLambda.validateCredentials.
  apply settle_catch; [| intros ? ? ?; settle].
  match goal with |- fst ((if ?b then _ else _) _) <> Pending => destruct b end;
    [discriminate |].
  destruct mappings; [discriminate |].
  apply settle_bind; [apply fetchSavedSearch_settles | discriminate].
Qed.

(** What a successful fetch and a successful parse say about the
    remote's answer. *)
Lemma fetchSavedSearch_value sid page t j t' :
  NetsuiteLambda.fetchSavedSearch env accountId scriptId deployId sid page t = (Value j, t') ->
  exists url status, http_get env t url = Resolved status j.
Proof.
  unfold NetsuiteLambda.fetchSavedSearch.
  destruct (sid =? "")%string; [discriminate |].
  destruct (parseInt (Number_toString page)); [discriminate | |];
    unfold try_catch, bind, Netsuite.axios_get;
    match goal with
    | |- context [http_get env t ?u] => destruct (http_get env t u) as [st body | e] eqn:Hget
    end; simpl.
  1, 3: destruct (Netsuite.json_truthy body); simpl; [| discriminate];
        destruct (truthy (Netsuite.json_error body)); simpl; [discriminate |];
        intros [= <- _]; eauto.
  all: destruct (response e) as [r |]; simpl;
       [ repeat match goal with |- context [if ?b then _ else _] => destruct b end; discriminate
       | destruct (request e); discriminate ].
Qed.

Lemma parse_value j t pg t' :
  NetsuiteLambda.parseNetSuiteResponse JSON_parse j t = (Value pg, t') ->
  exists p,
    Netsuite.hasMore pg = VBool (truthy (p_hasMore p))
    /\ (j = JObject p \/ exists text, j = JScalar (VStr text) /\ JSON_parse text = inl (JObject p)).
Proof.
  unfold NetsuiteLambda.parseNetSuiteResponse.
  destruct (negb (Netsuite.json_truthy j)); [discriminate |].
  assert (Hfinal : forall j0 s0,
             (match j0 with
              | JScalar VNull => throw (new_Error "Cannot read properties of null (reading 'data')")
              | JScalar _ => throw (new_Error "Invalid response format: not an object")
              | JArray => throw (new_Error "Invalid response format: missing data property")
              | JObject p =>
                  match p_data p with
                  | NotAnArray v =>
                      if truthy v
                      then throw (new_Error "Invalid response format: data is not an array")
                      else throw (new_Error "Invalid response format: missing data property")
                  | DataArray rows =>
                      ret {| Netsuite.data := rows;
                             Netsuite.pageIndex :=
                               match p_pageIndex p with VNum _ => p_pageIndex p | _ => VNum (Fin 0) end;
                             Netsuite.totalPages :=
                               match p_totalPages p with VNum _ => p_totalPages p | _ => VNum (Fin 1) end;
                             Netsuite.hasMore := VBool (truthy (p_hasMore p)) |}
                  end
              end) s0 = (Value pg, t') ->
             exists p, Netsuite.hasMore pg = VBool (truthy (p_hasMore p)) /\ j0 = JObject p).
  { intros j0 s0. destruct j0 as [v | | p]; [destruct v; discriminate | discriminate |].
    destruct (p_data p); [destruct (truthy v); discriminate |].
    intros [= <- _]. eauto. }
  destruct j as [v | | p].
  - destruct v as [| | b | n | text | f |]; try discriminate.
    destruct (50000000 <? Z.of_nat (String.length text)); [discriminate |].
    destruct (JSON_parse text) as [j' | msg] eqn:Hparse; [| discriminate].
    unfold bind, ret. intros H. apply Hfinal in H as (p & Hm & ->). eauto 6.
  - discriminate.
  - unfold bind, ret. intros H. apply (Hfinal (JObject p)) in H as (p' & Hm & [= <-]). eauto.
Qed.

Section SinglePage.

Hypothesis Hsingle : single_page env JSON_parse.

Lemma single_page_more sid page t j t1 pg t2 :
  NetsuiteLambda.fetchSavedSearch env accountId scriptId deployId sid page t = (Value j, t1) ->
  NetsuiteLambda.parseNetSuiteResponse JSON_parse j t1 = (Value pg, t2) ->
  truthy (Netsuite.hasMore pg) = false.
Proof.
  intros Hfetch Hparse. destruct Hsingle as [Hremote Hjson].
  apply fetchSavedSearch_value in Hfetch as (url & st & Hget).
  apply parse_value in Hparse as (p & -> & [-> | (text & -> & Htext)]); simpl.
  - exact (Hremote _ _ _ _ Hget).
  - exact (Hjson _ _ Htext).
Qed.

Lemma fetchAll_settles fuel sid :
  settles (NetsuiteLambda.fetchAllSavedSearchPages env accountId scriptId deployId JSON_parse
             (S fuel) sid).
Proof.
  intros t. unfold NetsuiteLambda.fetchAllSavedSearchPages. cbn [NetsuiteLambda.fetch_loop].
  apply settle_bind; [apply fetchSavedSearch_settles | intros j t1 Hfetch].
  cbv beta iota delta [bind try_catch].
  destruct (NetsuiteLambda.parseNetSuiteResponse JSON_parse j t1) as [[pg | e |] t2] eqn:Hparse.
  - rewrite (single_page_more _ _ _ _ _ _ _ Hfetch Hparse).
    cbv beta iota delta [ret]. rewrite (single_page_more _ _ _ _ _ _ _ Hfetch Hparse).
    discriminate.
  - discriminate.
  - exfalso. now apply (parse_settles j t1); rewrite Hparse.
Qed.

Lemma packaged_pages_end fuel last :
  pages_end_by (Package.netsuiteClient env settings mappings JSON_parse fuel) last.
Proof.
  intros sid t rows more t'. simpl. unfold NetsuiteLambda.fetchSavedSearchPage, try_catch.
  match goal with
  | |- (let (o, s') := ?body t in _) = _ -> _ => destruct (body t) as [[[rows0 more0] | e |] t0] eqn:Hbody
  end.
  - intros [= -> -> _]. revert Hbody.
    destruct (sid =? "")%string; [discriminate |].
    destruct (parseInt _); [discriminate | |]; unfold bind;
      match goal with
      | |- context [NetsuiteLambda.fetchSavedSearch ?a ?b ?c ?d ?e ?f t] =>
          destruct (NetsuiteLambda.fetchSavedSearch a b c d e f t) as [[j | ? |] t1] eqn:Hfetch
      end; try discriminate;
      destruct (NetsuiteLambda.parseNetSuiteResponse JSON_parse j t1) as [[pg | ? |] t2] eqn:Hparse;
      try discriminate;
      intros [= _ <- _]; rewrite truthy_or_false;
      exact (single_page_more _ _ _ _ _ _ _ Hfetch Hparse).
  - repeat match goal with |- context [if ?b then _ else _] => destruct b end; discriminate.
  - discriminate.
Qed.

Lemma packaged_clients_settle fuel :
  clients_settle (Package.netsuiteClient env settings mappings JSON_parse (S fuel))
                 (Package.supabaseClient env).
Proof.
  repeat split; simpl.
  - apply validateCredentials_settles.
  - intros sid page. apply fetchSavedSearchPage_settles.
  - intros sid. apply fetchAll_settles.
  - intros m. apply validateConnection_settles.
  - intros table. apply getRecordCount_settles.
  - intros table records c. apply upsert_settles.
Qed.

End SinglePage.


End PackagedFacts.


(** The packaged program on a remote that answers 500 for the second of
    three searches. *)
Lemma packaged_run_second_search_down :
  fst (Package.runSync Sample.search_102_down Sample.settings Sample.catalog Sample.not_json 1
         (mkManager constructor []))
  = Value {| startTime := Some "2024-05-01T06:00:00.100Z";
             endTime := Some "2024-05-01T06:00:00.100Z";
             totalMappings := 3; successfulSyncs := 2; failedSyncs := 1;
             errors := [ {| entry_message := "Failed to sync Partners to partners";
                            entry_error := "NetSuite server error. Please try again later.";
                            entry_timestamp := "2024-05-01T06:00:00.100Z" |} ] |}.
Proof. vm_compute. reflexivity. Qed.

Lemma sample_single_page : single_page Sample.search_102_down Sample.not_json.
Proof.
  split; [| discriminate].
  intros t url status p. unfold Sample.search_102_down. simpl.
  destruct (includes "searchId=102" url); [discriminate |]. now intros [= _ <-].
Qed.

Lemma sample_store_accepts : store_accepts Sample.search_102_down.
Proof. intros t table chunk c H. now apply H. Qed.




(* ===================================================================== *)
(** * Further properties: identifiers and amounts *)
(* ===================================================================== *)

Lemma digit_not_space c : is_digit c = true -> is_space c = false.
Proof. unfold is_digit, is_space. lia. Qed.

(** A text that starts with a digit starts with no white space, of one
    byte or more. *)
Lemma trim_start_digit c r : is_digit c = true -> trim_start (String c r) = String c r.
Proof.
  intros Hc. cbn [trim_start]. rewrite (digit_not_space _ Hc).
  assert (H2 : forall b, is_space2 c b = false) by (intros b; unfold is_digit, is_space2 in *; lia).
  assert (H3 : forall b x, is_space3 c b x = false)
    by (intros b x; unfold is_digit, is_space3 in *; lia).
  destruct r as [| b r1]; [reflexivity |]. rewrite H2.
  destruct r1 as [| x r2]; [reflexivity |]. now rewrite H3.
Qed.

Lemma take_sign_digit c r : is_digit c = true -> take_sign (String c r) = (false, String c r).
Proof.
  intros H. destruct c as [[] [] [] [] [] [] [] []]; try reflexivity; discriminate H.
Qed.

Lemma span_digits_all d : all_chars is_digit d = true -> span_digits d = (d, "").
Proof.
  induction d as [| c d IH]; [reflexivity |]. simpl.
  intros [Hc Hd]%andb_true_iff. now rewrite Hc, (IH Hd).
Qed.

Lemma span_digits_app d c rest :
  all_chars is_digit d = true -> is_digit c = false ->
  span_digits (d ++ String c rest) = (d, String c rest).
Proof.
  intros Hd Hc. induction d as [| c0 d IH]; simpl.
  - now rewrite Hc.
  - simpl in Hd. apply andb_true_iff in Hd as [Hc0 Hd]. now rewrite Hc0, (IH Hd).
Qed.

(** [parseInt] reads the leading run of digits and nothing after it. *)
Lemma parseInt_leading_digits d c rest :
  d <> "" -> all_chars is_digit d = true -> is_digit c = false ->
  parseInt (d ++ String c rest) = parseInt d.
Proof.
  intros Hne Hd Hc. destruct d as [| c0 d]; [contradiction |].
  pose proof Hd as Hd'. simpl in Hd'. apply andb_true_iff in Hd' as [Hc0 _].
  unfold parseInt.
  change (String c0 d ++ String c rest) with (String c0 (d ++ String c rest)).
  rewrite !(trim_start_digit _ _ Hc0), !(take_sign_digit _ _ Hc0).
  change (String c0 (d ++ String c rest)) with (String c0 d ++ String c rest).
  now rewrite (span_digits_app _ _ _ Hd Hc), (span_digits_all _ Hd).
Qed.

Lemma remove_commas_idem s : remove_commas (remove_commas s) = remove_commas s.
Proof.
  induction s as [| c s IH]; [reflexivity |]. simpl.
  destruct (Ascii.eqb c ",") eqn:E; [exact IH |]. simpl. now rewrite E, IH.
Qed.

(** X1. [parseId] reads an identifier up to its first character that is
    not a digit: a text made of a non-empty run of digits followed by
    anything else is read as the run alone.  A detail row whose [pkey] is
    such a text gets the number its leading digits denote, when that is
    not zero, as its key: the key "55_5" received from the remote is
    stored as 55. *)
Theorem parseId_reads_leading_digits :
  forall d c rest,
    d <> "" -> all_chars is_digit d = true -> is_digit c = false ->
    parseId (VStr (d ++ String c rest)) = parseId (VStr d)
    /\ forall now table column rawRecords index record,
         In (table, column) detail_tables ->
         rawRecords !! index = Some record ->
         get record "pkey" = VStr (d ++ String c rest) ->
         num_truthy (parseInt d) = true ->
         exists row,
           processRecordsForTable now table rawRecords !! index = Some row
           /\ get row "pkey" = VNum (parseInt d).
Proof.
  intros d c rest Hne Hd Hc.
  assert (Hid : parseId (VStr (d ++ String c rest)) = parseId (VStr d)).
  { unfold parseId. cbn [String_ truthy].
    rewrite (parseInt_leading_digits _ _ _ Hne Hd Hc).
    destruct d as [| c0 d]; [contradiction | reflexivity]. }
  split; [exact Hid |].
  intros now table column rawRecords index record Hin Hrec Hpkey Ht.
  destruct (detail_pkey_field now _ _ _ _ _ Hin Hrec) as (row & Hrow & Hget).
  exists row. split; [exact Hrow |].
  rewrite Hget, Hpkey, Hid. unfold parseId. cbn [String_ truthy].
  destruct d as [| c0 d]; [contradiction |]. cbn [String.eqb negb].
  unfold or_else. cbn [truthy]. rewrite Ht. cbn [truthy]. now rewrite Ht.
Qed.

Lemma parseId_reads_leading_digits_witness :
  parseId (VStr "55_5") = VNum (Fin 55)
  /\ exists row,
       processRecordsForTable (fun _ => "2024-05-01T06:00:00.000Z") "invoices_detailed"
         [ {[ "pkey" := VStr "55_5"; "invoice_internal_id" := VStr "55" ]} ] !! 0%nat = Some row
       /\ get row "pkey" = VNum (Fin 55).
Proof.
  destruct (parseId_reads_leading_digits "55" "_" "5") as [Hid Hrow];
    [discriminate | reflexivity | reflexivity |].
  split; [exact Hid |].
  apply (Hrow (fun _ => "2024-05-01T06:00:00.000Z") "invoices_detailed" "invoice_internal_id"
              [ {[ "pkey" := VStr "55_5"; "invoice_internal_id" := VStr "55" ]} ] 0%nat
              {[ "pkey" := VStr "55_5"; "invoice_internal_id" := VStr "55" ]}).
  - simpl. tauto.
  - reflexivity.
  - vm_compute. reflexivity.
  - reflexivity.
Defined.

Lemma remove_commas_app a b :
  remove_commas (a ++ b) = remove_commas a ++ remove_commas b.
Proof.
  induction a as [| c a IH]; [reflexivity |].
  change (String c a ++ b) with (String c (a ++ b)). cbn [remove_commas].
  destruct (Ascii.eqb c ","); [exact IH |].
  change (String c (remove_commas a) ++ remove_commas b)
    with (String c (remove_commas a ++ remove_commas b)).
  now rewrite IH.
Qed.

(** What [parseNumber] makes of a text: the number read from the text
    without its commas, or null. *)
Lemma parseNumber_text s :
  parseNumber (VStr s) = or_else (VNum (parseFloat (remove_commas s))) VNull.
Proof.
  unfold parseNumber. cbn [String_ truthy].
  destruct (String.eqb_spec s "") as [-> | Hs]; reflexivity.
Qed.

(** X2. [parseNumber] drops the commas of a text before it reads it,
    wherever they stand: a text is read as the text without its commas, and
    removing one comma anywhere does not change the amount read.
    [parseId] does not: an identifier that starts with digits followed by
    a comma is read as those digits alone. *)
Theorem parseNumber_ignores_commas :
  forall s,
    parseNumber (VStr s) = parseNumber (VStr (remove_commas s))
    /\ (forall a b, s = a ++ "," ++ b -> parseNumber (VStr s) = parseNumber (VStr (a ++ b)))
    /\ (forall d rest,
          s = d ++ "," ++ rest -> d <> "" -> all_chars is_digit d = true ->
          parseId (VStr s) = parseId (VStr d)).
Proof.
  intros s. split; [| split].
  - now rewrite !parseNumber_text, remove_commas_idem.
  - intros a b ->. now rewrite !parseNumber_text, !remove_commas_app.
  - intros d rest -> Hne Hd. unfold parseId. cbn [String_ truthy].
    change (d ++ "," ++ rest) with (d ++ String "," rest).
    rewrite (parseInt_leading_digits d "," rest Hne Hd eq_refl).
    destruct d as [| c0 d]; [contradiction | reflexivity].
Qed.

Lemma parseNumber_ignores_commas_witness :
  parseNumber (VStr "1,234.50") = parseNumber (VStr "1234.50")
  /\ parseId (VStr "1,234") = parseId (VStr "1").
Proof.
  destruct (parseNumber_ignores_commas "1,234.50") as (_ & H2 & _).
  destruct (parseNumber_ignores_commas "1,234") as (_ & _ & H3).
  split.
  - exact (H2 "1" "234.50" eq_refl).
  - apply (H3 "1" "234"); [reflexivity | discriminate | reflexivity].
Defined.

(** X3. The synthesized key of a detail row depends on the position of
    the row in the list handed to the normalizer, not on the list: two
    rows at the same index of two lists (two pages of one search, which
    the paginated path normalizes one at a time) that supply no usable
    [pkey] and have the same readings of the parent identifier and of
    [line_id] get the same key. *)
Theorem synthetic_pkey_is_page_relative :
  forall now1 now2 table column page1 page2 index r1 r2,
    In (table, column) detail_tables ->
    page1 !! index = Some r1 ->
    page2 !! index = Some r2 ->
    parseId (get r1 "pkey") = VNull ->
    parseId (get r2 "pkey") = VNull ->
    parseId (get r1 column) = parseId (get r2 column) ->
    parseId (get r1 "line_id") = parseId (get r2 "line_id") ->
    exists row1 row2,
      processRecordsForTable now1 table page1 !! index = Some row1
      /\ processRecordsForTable now2 table page2 !! index = Some row2
      /\ get row1 "pkey" = get row2 "pkey".
Proof.
  intros now1 now2 table column page1 page2 index r1 r2 Hin H1 H2 Hp1 Hp2 Hid Hline.
  destruct (detail_pkey_field now1 _ _ _ _ _ Hin H1) as (row1 & Hrow1 & Hget1).
  destruct (detail_pkey_field now2 _ _ _ _ _ Hin H2) as (row2 & Hrow2 & Hget2).
  exists row1, row2. split; [exact Hrow1 |]. split; [exact Hrow2 |].
  rewrite Hget1, Hget2, Hp1, Hp2. unfold synthetic_pkey. now rewrite Hid, Hline.
Qed.

Lemma synthetic_pkey_is_page_relative_witness :
  exists row1 row2,
    processRecordsForTable (fun _ => "2024-05-01T06:00:00.000Z") "invoices_detailed"
      [ {[ "invoice_internal_id" := VStr "55"; "item_name" := VStr "Scarf" ]} ] !! 0%nat = Some row1
    /\ processRecordsForTable (fun _ => "2024-05-01T06:00:07.000Z") "invoices_detailed"
         [ {[ "invoice_internal_id" := VStr "55"; "item_name" := VStr "Gloves" ]} ] !! 0%nat = Some row2
    /\ get row1 "pkey" = get row2 "pkey".
Proof.
  apply (synthetic_pkey_is_page_relative
           (fun _ => "2024-05-01T06:00:00.000Z") (fun _ => "2024-05-01T06:00:07.000Z")
           "invoices_detailed" "invoice_internal_id"
           [ {[ "invoice_internal_id" := VStr "55"; "item_name" := VStr "Scarf" ]} ]
           [ {[ "invoice_internal_id" := VStr "55"; "item_name" := VStr "Gloves" ]} ]
           0%nat
           {[ "invoice_internal_id" := VStr "55"; "item_name" := VStr "Scarf" ]}
           {[ "invoice_internal_id" := VStr "55"; "item_name" := VStr "Gloves" ]});
    [simpl; tauto | reflexivity | reflexivity | vm_compute; reflexivity | vm_compute; reflexivity
    | vm_compute; reflexivity | vm_compute; reflexivity].
Defined.


(** X4. The conflict key is decided by the table name alone, and in the
    same way on the paginated and on the bulk path.  The tables
    synchronized page by page are exactly the three detail tables, and
    their key is "pkey"; every other table gets what [getTableIdColumn]
    answers: its own column for a table of the static map, and "id" for a
    name that is neither in the map nor a property of [Object.prototype]. *)
Theorem conflict_key_by_table :
  forall table,
    requiresPagination table = is_detail_table table
    /\ conflictKey_page table = conflictKey_bulk table
    /\ (requiresPagination table = true -> conflictKey_page table = VStr "pkey")
    /\ (requiresPagination table = false -> conflictKey_bulk table = getTableIdColumn table)
    /\ (forall column, In (table, column) (header_tables ++ [("forecast", "pkey")])%list ->
          requiresPagination table = false /\ conflictKey_bulk table = VStr column)
    /\ (tableIdMap !! table = None -> Object_prototype !! table = None ->
          requiresPagination table = false /\ conflictKey_bulk table = VStr "id").
Proof.
  intros table.
  assert (Hroute : requiresPagination table = is_detail_table table).
  { unfold requiresPagination, is_detail_table, PAGINATED_TABLES.
    destruct (String.eqb_spec table "sales_orders_detailed") as [-> | H1];
      [apply bool_decide_eq_true_2; set_solver |].
    destruct (String.eqb_spec table "invoices_detailed") as [-> | H2];
      [apply bool_decide_eq_true_2; set_solver |].
    destruct (String.eqb_spec table "item_fulfillments_detailed") as [-> | H3];
      [apply bool_decide_eq_true_2; set_solver |].
    apply bool_decide_eq_false_2.
    rewrite !elem_of_union, !elem_of_singleton. tauto. }
  split; [exact Hroute |]. split; [reflexivity |].
  split; [| split; [| split]].
  - intros H. unfold conflictKey_page. rewrite <- Hroute, H. reflexivity.
  - intros H. unfold conflictKey_bulk. rewrite <- Hroute, H. reflexivity.
  - intros column Hin. simpl in Hin.
    repeat (destruct Hin as [Hin | Hin];
            [injection Hin as [= <- <-]; split; [vm_compute; reflexivity | reflexivity] |]).
    contradiction.
  - intros Hmap Hproto.
    destruct (conflict_key_policy table) as (_ & _ & _ & H).
    destruct (H Hmap Hproto) as [Hbulk _]. split; [| exact Hbulk].
    rewrite Hroute. unfold is_detail_table.
    repeat match goal with
           | |- context [String.eqb table ?t] =>
               destruct (String.eqb_spec table t) as [-> | _]
           end; try discriminate Hmap; reflexivity.
Qed.

Lemma conflict_key_by_table_witness :
  conflictKey_page "invoices_detailed" = VStr "pkey"
  /\ conflictKey_bulk "customers" = VStr "customer_internal_id"
  /\ conflictKey_bulk "warehouses" = VStr "id".
Proof.
  split; [| split].
  - destruct (conflict_key_by_table "invoices_detailed") as (_ & _ & H & _).
    apply H. vm_compute. reflexivity.
  - destruct (conflict_key_by_table "customers") as (_ & _ & _ & _ & H & _).
    apply (H "customer_internal_id"). simpl. tauto.
  - destruct (conflict_key_by_table "warehouses") as (_ & _ & _ & _ & _ & H).
    apply H; reflexivity.
Defined.

(* ===================================================================== *)
(** * Further properties: the orchestrator and its clients *)
(* ===================================================================== *)

Section Runs.

Context {W : Type}.
Variable ns : NetsuiteClient W.
Variable sb : SupabaseClient W.
Variable mappings : list Mapping.
Variable clock : W -> nat -> string.

Lemma validation_false s e w' :
  validation_fails ns sb mappings (world s) e w' ->
  validateConnections ns sb mappings clock s
  = (Value false,
     {| syncStats := tally (syncStats s) 0 0
                       [ {| entry_message := "Connection validation failed";
                            entry_error := message e;
                            entry_timestamp := clock w' 0%nat |} ];
        world := w' |}).
Proof.
  intros Hfail. unfold validateConnections, try_catch, bind, call.
  destruct Hfail as [H | [(b & H & -> & ->) | (b & w1 & m & ms & H & -> & H2)]];
    rewrite H; cbn [world syncStats throw]; try rewrite H2;
    rewrite logError_spec; reflexivity.
Qed.

Lemma runSync_aborts fuel s e w' :
  validation_fails ns sb mappings (world s) e w' ->
  runSync ns sb mappings clock fuel s
  = (Value (aborted_stats (syncStats s) (clock (world s) 0%nat) (length mappings)
              {| entry_message := "Connection validation failed";
                 entry_error := message e;
                 entry_timestamp := clock w' 0%nat |}),
     {| syncStats := aborted_stats (syncStats s) (clock (world s) 0%nat) (length mappings)
                       {| entry_message := "Connection validation failed";
                          entry_error := message e;
                          entry_timestamp := clock w' 0%nat |};
        world := w' |}).
Proof.
  intros Hfail.
  unfold runSync, start, toISOString, update, modify, gets.
  unfold bind at 1. unfold bind at 1. cbn beta iota.
  unfold bind at 1. cbn beta iota.
  match goal with
  | |- context [validateConnections ns sb mappings clock ?s0] =>
      rewrite (validation_false s0 e w' Hfail)
  end.
  cbn [negb]. unfold aborted_stats, tally. simpl.
  now rewrite !Nat.add_0_r.
Qed.

Lemma validateConnections_never_throws s e s' :
  validateConnections ns sb mappings clock s <> (Thrown e, s').
Proof.
  unfold validateConnections, try_catch.
  match goal with |- context [bind ?c ?k s] => destruct (bind c k s) as [[b | e0 |] s1] end;
    [discriminate | | discriminate].
  unfold bind. rewrite logError_spec. discriminate.
Qed.

Lemma runSync_never_throws fuel s e s' :
  runSync ns sb mappings clock fuel s <> (Thrown e, s').
Proof.
  unfold runSync, start, toISOString, update, modify, gets.
  unfold bind at 1. unfold bind at 1. cbn beta iota.
  unfold bind at 1. cbn beta iota.
  match goal with
  | |- context [validateConnections ns sb mappings clock ?s0] =>
      pose proof (validateConnections_never_throws s0) as Hv;
      destruct (validateConnections ns sb mappings clock s0) as [[ok | e0 |] s1]
  end; [| exfalso; now apply (Hv e0 s1) | discriminate].
  destruct ok; cbn [negb]; [| discriminate].
  unfold bind at 1.
  pose proof (sync_each_tallied ns sb clock fuel mappings s1) as Ht.
  destruct (sync_each ns sb clock fuel mappings s1) as [[u | e1 |] s2]; simpl in Ht;
    [| contradiction | discriminate].
  discriminate.
Qed.

Lemma runSync_returns_own_stats fuel s stats s' :
  runSync ns sb mappings clock fuel s = (Value stats, s') -> stats = syncStats s'.
Proof.
  unfold runSync, start, toISOString, update, modify, gets.
  unfold bind at 1. unfold bind at 1. cbn beta iota.
  unfold bind at 1. cbn beta iota.
  match goal with
  | |- context [validateConnections ns sb mappings clock ?s0] =>
      destruct (validateConnections ns sb mappings clock s0) as [[ok | e0 |] s1]
  end; [| discriminate | discriminate].
  destruct ok; cbn [negb]; [| now intros [= <- <-]].
  unfold bind at 1.
  destruct (sync_each ns sb clock fuel mappings s1) as [[u | e1 |] s2]; [| discriminate | discriminate].
  unfold finish, toISOString, update, modify, gets, bind. cbn beta iota.
  now intros [= <- <-].
Qed.

(** When every call settles, validation either passes or fails. *)
Lemma validation_decided (w : W) :
  clients_settle ns sb ->
  (exists w', validation_passes ns sb mappings w w')
  \/ (exists e w', validation_fails ns sb mappings w e w').
Proof.
  intros (Hcred & _ & _ & Hconn & _).
  specialize (Hcred w).
  destruct (validateCredentials ns w) as [[b | e |] w1] eqn:H1; [| | now elim Hcred].
  - destruct mappings as [| m ms] eqn:Hm.
    + right. exists (new_Error "No mappings found for validation"), w1.
      right. left. now exists b.
    + specialize (Hconn (Some m) w1).
      destruct (validateConnection sb (Some m) w1) as [[b2 | e |] w2] eqn:H2;
        [| | now elim Hconn].
      * left. exists w2, m, ms, b, w1, b2. now rewrite H1.
      * right. exists e, w2. right. right. exists b, w1, m, ms. now rewrite H1.
  - right. exists e, w1. now left.
Qed.

Lemma handler_answers_200 fuel s :
  answers_200 (Entry.handler ns sb mappings clock fuel s).
Proof.
  unfold Entry.handler, try_catch, bind.
  pose proof (runSync_never_throws fuel s) as Hn.
  pose proof (runSync_returns_own_stats fuel s) as Hs.
  destruct (runSync ns sb mappings clock fuel s) as [[stats | e |] s1]; simpl.
  - split; [reflexivity |]. now rewrite (Hs stats s1 eq_refl).
  - exfalso. now apply (Hn e s1).
  - exact I.
Qed.

End Runs.


Section Views.

Context {X : Type}.
Variable view : Trace -> X.

Lemma keeps_ret {A} (a : A) : keeps view (ret a).
Proof. now intros t. Qed.

Lemma keeps_throw {A} e : keeps view (@throw Trace A e).
Proof. now intros t. Qed.

Lemma keeps_never {A} : keeps view (@never Trace A).
Proof. now intros t. Qed.

Lemma keeps_bind {A B} (c : M Trace A) (k : A -> M Trace B) :
  keeps view c -> (forall a, keeps view (k a)) -> keeps view (bind c k).
Proof.
  intros Hc Hk t. unfold bind. specialize (Hc t).
  destruct (c t) as [[a | e |] t1]; simpl in *; [| assumption | assumption].
  now rewrite (Hk a t1).
Qed.

Lemma keeps_catch {A} (c : M Trace A) (h : Error -> M Trace A) :
  keeps view c -> (forall e, keeps view (h e)) -> keeps view (try_catch c h).
Proof.
  intros Hc Hh t. unfold try_catch. specialize (Hc t).
  destruct (c t) as [[a | e |] t1]; simpl in *; [assumption | | assumption].
  now rewrite (Hh e t1).
Qed.

End Views.

Ltac quiet :=
  repeat first
    [ apply keeps_ret | apply keeps_throw | apply keeps_never
    | apply keeps_bind; [| intros ?]
    | apply keeps_catch; [| intros ?]
    | match goal with
      | |- keeps _ (if ?b then _ else _) => destruct b
      | |- keeps _ (match ?x with _ => _ end) => destruct x
      | |- keeps _ (let (_, _) := ?x in _) => destruct x
      end ].

Section Quiet.

Variable env : Env.

Lemma axios_get_keeps_upserts url : keeps upsert_calls (Netsuite.axios_get env url).
Proof.
  intros t. unfold Netsuite.axios_get.
  destruct (http_get env t url); simpl; rewrite upsert_calls_snoc; apply app_nil_r.
Qed.

Lemma delay_keeps_upserts ms : keeps upsert_calls (Netsuite.delay ms).
Proof. intros t. unfold Netsuite.delay. simpl. rewrite upsert_calls_snoc. apply app_nil_r. Qed.

Lemma client_count_keeps_upserts table : keeps upsert_calls (Supabase.client_count env table).
Proof.
  intros t. unfold Supabase.client_count.
  destruct (store_count env t table); simpl; rewrite upsert_calls_snoc; apply app_nil_r.
Qed.

Lemma client_select_keeps_upserts table : keeps upsert_calls (Supabase.client_select env table).
Proof.
  intros t. unfold Supabase.client_select.
  destruct (store_select env t table); simpl; rewrite upsert_calls_snoc; apply app_nil_r.
Qed.

Lemma client_count_keeps_requests table : keeps requests (Supabase.client_count env table).
Proof.
  intros t. unfold Supabase.client_count.
  destruct (store_count env t table); simpl; rewrite requests_snoc; apply app_nil_r.
Qed.

Lemma client_select_keeps_requests table : keeps requests (Supabase.client_select env table).
Proof.
  intros t. unfold Supabase.client_select.
  destruct (store_select env t table); simpl; rewrite requests_snoc; apply app_nil_r.
Qed.

Lemma client_upsert_keeps_requests table chunk c :
  keeps requests (Supabase.client_upsert env table chunk c).
Proof.
  intros t. unfold Supabase.client_upsert.
  destruct (store_upsert env t table chunk c); simpl; rewrite requests_snoc; apply app_nil_r.
Qed.

End Quiet.

Section QuietClients.

Variable env : Env.
Variables accountId scriptId deployId : string.
Variables consumerKey consumerSecret tokenId tokenSecret : string.
Variable mappings : list Mapping.
Variable JSON_parse : string -> Json + string.

Lemma lambda_parse_keeps {X} (view : Trace -> X) j :
  keeps view (NetsuiteLambda.parseNetSuiteResponse JSON_parse j).
Proof. unfold NetsuiteLambda.parseNetSuiteResponse. quiet. Qed.

Lemma src_parse_keeps {X} (view : Trace -> X) j :
  keeps view (Netsuite.parseNetSuiteResponse JSON_parse j).
Proof. unfold Netsuite.parseNetSuiteResponse. quiet. Qed.

Lemma lambda_fetch_keeps_upserts sid page :
  keeps upsert_calls (NetsuiteLambda.fetchSavedSearch env accountId scriptId deployId sid page).
Proof.
  unfold NetsuiteLambda.fetchSavedSearch.
  destruct (sid =? "")%string; [apply keeps_throw |].
  destruct (parseInt (Number_toString page)); [apply keeps_throw | |];
    (apply keeps_catch; [apply keeps_bind; [apply axios_get_keeps_upserts | intros ?; quiet]
                        | intros ?; quiet]).
Qed.

Lemma src_fetch_keeps_upserts sid page :
  keeps upsert_calls (Netsuite.fetchSavedSearch env accountId scriptId deployId sid page).
Proof.
  unfold Netsuite.fetchSavedSearch.
  apply keeps_catch; [apply keeps_bind; [apply axios_get_keeps_upserts | intros ?; quiet]
                     | intros ?; quiet].
Qed.

Lemma lambda_page_keeps_upserts sid pageIndex :
  keeps upsert_calls
    (NetsuiteLambda.fetchSavedSearchPage env accountId scriptId deployId JSON_parse sid pageIndex).
Proof.
  unfold NetsuiteLambda.fetchSavedSearchPage.
  apply keeps_catch; [| intros ?; quiet].
  destruct (sid =? "")%string; [apply keeps_throw |].
  destruct (parseInt _); [apply keeps_throw | |];
    (apply keeps_bind; [apply lambda_fetch_keeps_upserts | intros ?]);
    (apply keeps_bind; [apply lambda_parse_keeps | intros ?; apply keeps_ret]).
Qed.

Lemma src_page_keeps_upserts sid pageIndex :
  keeps upsert_calls
    (Netsuite.fetchSavedSearchPage env accountId scriptId deployId JSON_parse sid pageIndex).
Proof.
  unfold Netsuite.fetchSavedSearchPage.
  apply keeps_catch; [| intros ?; apply keeps_throw].
  apply keeps_bind; [apply src_fetch_keeps_upserts | intros ?].
  apply keeps_bind; [apply src_parse_keeps | intros ?; apply keeps_ret].
Qed.

Lemma lambda_loop_keeps_upserts fuel sid : forall allResults page,
  keeps upsert_calls
    (NetsuiteLambda.fetch_loop env accountId scriptId deployId JSON_parse fuel sid allResults page).
Proof.
  induction fuel as [| fuel IH]; intros allResults page; cbn [NetsuiteLambda.fetch_loop];
    [apply keeps_never |].
  apply keeps_bind; [apply lambda_fetch_keeps_upserts | intros raw].
  apply keeps_bind.
  - apply keeps_catch; [| intros ?; apply keeps_throw].
    apply keeps_bind; [apply lambda_parse_keeps | intros pg].
    apply keeps_bind; [| intros ?; apply keeps_ret].
    destruct (truthy _); [apply delay_keeps_upserts | apply keeps_ret].
  - intros [[all more] next]. destruct (truthy more); [apply IH | apply keeps_ret].
Qed.

Lemma src_loop_keeps_upserts fuel sid : forall allResults page,
  keeps upsert_calls
    (Netsuite.fetch_loop env accountId scriptId deployId JSON_parse fuel sid allResults page).
Proof.
  induction fuel as [| fuel IH]; intros allResults page; cbn [Netsuite.fetch_loop];
    [apply keeps_never |].
  apply keeps_bind; [apply src_fetch_keeps_upserts | intros raw].
  apply keeps_bind.
  - apply keeps_catch; [| intros ?; apply keeps_throw].
    apply keeps_bind; [apply src_parse_keeps | intros pg].
    apply keeps_bind; [| intros ?; apply keeps_ret].
    destruct (truthy _); [apply delay_keeps_upserts | apply keeps_ret].
  - intros [[all more] next]. destruct (truthy more); [apply IH | apply keeps_ret].
Qed.

Lemma lambda_credentials_keep_upserts :
  keeps upsert_calls
    (NetsuiteLambda.validateCredentials env accountId scriptId deployId
       consumerKey consumerSecret tokenId tokenSecret mappings).
Proof.
  unfold NetsuiteLambda.validateCredentials.
  apply keeps_catch; [| intros ?; quiet].
  match goal with |- keeps _ (if ?b then _ else _) => destruct b end; [apply keeps_throw |].
  destruct mappings; [apply keeps_throw |].
  apply keeps_bind; [apply lambda_fetch_keeps_upserts | intros ?; apply keeps_ret].
Qed.

Lemma src_credentials_keep_upserts :
  keeps upsert_calls (Netsuite.validateCredentials env accountId scriptId deployId mappings).
Proof.
  unfold Netsuite.validateCredentials.
  apply keeps_catch; [| intros ?; quiet].
  destruct mappings; [apply keeps_throw |].
  apply keeps_bind; [apply src_fetch_keeps_upserts | intros ?; apply keeps_ret].
Qed.

Lemma lambda_count_keeps_upserts table :
  keeps upsert_calls (SupabaseLambda.getRecordCount env table).
Proof.
  unfold SupabaseLambda.getRecordCount, SupabaseLambda.client_count.
  destruct (negb _); [apply keeps_throw |].
  apply keeps_catch; [| intros ?; apply keeps_throw].
  apply keeps_bind; [apply client_count_keeps_upserts | intros ?; quiet].
Qed.

Lemma src_count_keeps_upserts table :
  keeps upsert_calls (Supabase.getRecordCount env table).
Proof.
  unfold Supabase.getRecordCount.
  apply keeps_catch; [| intros ?; apply keeps_throw].
  apply keeps_bind; [apply client_count_keeps_upserts | intros ?; quiet].
Qed.

Lemma lambda_connection_keeps_upserts m :
  keeps upsert_calls (SupabaseLambda.validateConnection env m).
Proof.
  unfold SupabaseLambda.validateConnection, SupabaseLambda.client_count.
  destruct m as [m |]; [| apply keeps_throw].
  destruct (negb (truthy _)); [apply keeps_throw |].
  destruct (negb (SupabaseLambda._isValidTableName _)); [apply keeps_throw |].
  apply keeps_catch; [| intros ?; apply keeps_throw].
  apply keeps_bind; [apply client_count_keeps_upserts | intros ?; quiet].
Qed.

Lemma src_connection_keeps_upserts :
  keeps upsert_calls (Supabase.validateConnection env mappings).
Proof.
  unfold Supabase.validateConnection.
  apply keeps_catch; [| intros ?; quiet].
  destruct mappings; [apply keeps_throw |].
  apply keeps_bind; [apply client_select_keeps_upserts | intros ?; quiet].
Qed.

(** The writers make no request to the remote. *)
Lemma lambda_chunks_keep_requests table c cs : forall results,
  keeps requests (SupabaseLambda.upsert_chunks env table c cs results).
Proof.
  induction cs as [| chunk rest IH]; intros results; cbn [SupabaseLambda.upsert_chunks];
    [apply keeps_ret |].
  apply keeps_bind; [apply client_upsert_keeps_requests | intros a].
  destruct (a_error a); [apply keeps_throw | apply IH].
Qed.

Lemma src_chunks_keep_requests table c cs : forall results,
  keeps requests (Supabase.upsert_chunks env table c cs results).
Proof.
  induction cs as [| chunk rest IH]; intros results; cbn [Supabase.upsert_chunks];
    [apply keeps_ret |].
  apply keeps_bind; [apply client_upsert_keeps_requests | intros a].
  destruct (a_error a); [apply keeps_throw | apply IH].
Qed.

Lemma lambda_upsert_keeps_requests table records c :
  keeps requests (SupabaseLambda.upsert env table records c).
Proof.
  unfold SupabaseLambda.upsert.
  destruct (negb _); [apply keeps_throw |].
  destruct records as [[| row rows] | v]; [apply keeps_ret | | apply keeps_throw].
  match goal with |- keeps _ (if ?b then _ else _) => destruct b end; [apply keeps_throw |].
  apply keeps_catch; [| intros ?; apply keeps_throw].
  apply keeps_bind; [apply lambda_chunks_keep_requests | intros ?; apply keeps_ret].
Qed.

Lemma src_upsert_keeps_requests table records c :
  keeps requests (Supabase.upsert env table records c).
Proof.
  unfold Supabase.upsert.
  destruct records as [[| row rows] | v]; [apply keeps_throw | | apply keeps_throw].
  apply keeps_catch; [| intros ?; apply keeps_throw].
  apply keeps_bind; [apply src_chunks_keep_requests | intros ?; apply keeps_ret].
Qed.

Lemma lambda_count_keeps_requests table :
  keeps requests (SupabaseLambda.getRecordCount env table).
Proof.
  unfold SupabaseLambda.getRecordCount, SupabaseLambda.client_count.
  destruct (negb _); [apply keeps_throw |].
  apply keeps_catch; [| intros ?; apply keeps_throw].
  apply keeps_bind; [apply client_count_keeps_requests | intros ?; quiet].
Qed.

Lemma src_count_keeps_requests table :
  keeps requests (Supabase.getRecordCount env table).
Proof.
  unfold Supabase.getRecordCount.
  apply keeps_catch; [| intros ?; apply keeps_throw].
  apply keeps_bind; [apply client_count_keeps_requests | intros ?; quiet].
Qed.

Lemma lambda_connection_keeps_requests m :
  keeps requests (SupabaseLambda.validateConnection env m).
Proof.
  unfold SupabaseLambda.validateConnection, SupabaseLambda.client_count.
  destruct m as [m |]; [| apply keeps_throw].
  destruct (negb (truthy _)); [apply keeps_throw |].
  destruct (negb (SupabaseLambda._isValidTableName _)); [apply keeps_throw |].
  apply keeps_catch; [| intros ?; apply keeps_throw].
  apply keeps_bind; [apply client_count_keeps_requests | intros ?; quiet].
Qed.

Lemma src_connection_keeps_requests :
  keeps requests (Supabase.validateConnection env mappings).
Proof.
  unfold Supabase.validateConnection.
  apply keeps_catch; [| intros ?; quiet].
  destruct mappings; [apply keeps_throw |].
  apply keeps_bind; [apply client_select_keeps_requests | intros ?; quiet].
Qed.

End QuietClients.

(** X5. The readers never write and the writers never call the remote:
    whatever the remote and the store answer, and however the call ends,
    no operation of either reader ([validateCredentials],
    [fetchSavedSearchPage], [fetchAllSavedSearchPages]) issues a store
    upsert, and no operation of either writer issues a request to the
    remote; [validateConnection] and [getRecordCount] issue no upsert
    either. *)
Theorem clients_keep_to_their_side :
  forall env settings mappings JSON_parse fuel,
    reader_is_read_only (Package.netsuiteClient env settings mappings JSON_parse fuel)
    /\ writer_stays_local (Package.supabaseClient env)
    /\ (forall accountId scriptId deployId,
          keeps upsert_calls (Netsuite.validateCredentials env accountId scriptId deployId mappings)
          /\ (forall sid pageIndex,
                keeps upsert_calls
                  (Netsuite.fetchSavedSearchPage env accountId scriptId deployId JSON_parse
                     sid pageIndex))
          /\ (forall sid,
                keeps upsert_calls
                  (Netsuite.fetchAllSavedSearchPages env accountId scriptId deployId JSON_parse
                     fuel sid)))
    /\ keeps requests (Supabase.validateConnection env mappings)
    /\ keeps upsert_calls (Supabase.validateConnection env mappings)
    /\ (forall table, keeps requests (Supabase.getRecordCount env table)
                      /\ keeps upsert_calls (Supabase.getRecordCount env table))
    /\ (forall table records c, keeps requests (Supabase.upsert env table records c)).
Proof.
  intros env settings mappings JSON_parse fuel.
  split; [| split; [| split; [| split; [| split; [| split]]]]].
  - split; [apply lambda_credentials_keep_upserts |].
    split; [intros; apply lambda_page_keeps_upserts |].
    intros sid. cbn [fetchAllSavedSearchPages Package.netsuiteClient].
    unfold NetsuiteLambda.fetchAllSavedSearchPages. apply lambda_loop_keeps_upserts.
  - split; [| split].
    + intros m. split; [apply lambda_connection_keeps_requests | apply lambda_connection_keeps_upserts].
    + intros table. split; [apply lambda_count_keeps_requests | apply lambda_count_keeps_upserts].
    + intros table records c. apply lambda_upsert_keeps_requests.
  - intros accountId scriptId deployId.
    split; [apply src_credentials_keep_upserts |].
    split; [intros; apply src_page_keeps_upserts |].
    intros sid. unfold Netsuite.fetchAllSavedSearchPages. apply src_loop_keeps_upserts.
  - apply src_connection_keeps_requests.
  - apply src_connection_keeps_upserts.
  - intros table. split; [apply src_count_keeps_requests | apply src_count_keeps_upserts].
  - intros table records c. apply src_upsert_keeps_requests.
Qed.

Section BulkPath.

Variable env : Env.
Variable settings : Package.Settings.
Variable mappings : list Mapping.
Variable JSON_parse : string -> Json + string.
Variable fuel : nat.
Variable clock : Trace -> nat -> string.

Local Abbreviation ns := (Package.netsuiteClient env settings mappings JSON_parse fuel).
Local Abbreviation sb := (Package.supabaseClient env).

Lemma log_false_world msg e (s : Manager Trace) :
  world (snd ((logError clock msg e ;;; ret false) s)) = world s.
Proof. unfold bind. rewrite logError_spec. reflexivity. Qed.

Lemma bulk_write_needs_fetch m s :
  requiresPagination (table m) = false ->
  upsert_calls (world (snd (syncMapping ns sb clock fuel m s))) <> upsert_calls (world s) ->
  exists n t1 row rows t2,
    getRecordCount sb (table m) (world s) = (Value n, t1)
    /\ fetchAllSavedSearchPages ns (searchId m) t1 = (Value (row :: rows), t2)
    /\ upsert_calls t2 = upsert_calls (world s).
Proof.
  intros Hp. unfold syncMapping, syncMapping_try. rewrite Hp.
  unfold try_catch. unfold bind at 1. unfold call at 1.
  pose proof (lambda_count_keeps_upserts env (VStr (table m)) (world s)) as Hc.
  change (SupabaseLambda.getRecordCount env (VStr (table m)))
    with (getRecordCount sb (table m)) in Hc.
  destruct (getRecordCount sb (table m) (world s)) as [[n | e |] t1] eqn:Hcount;
    cbn [snd] in Hc.
  2: { rewrite log_false_world. cbn [snd world]. intros H. now elim H. }
  2: { cbn [snd world]. intros H. now elim H. }
  unfold bind at 1. unfold call at 1. cbn [world syncStats].
  pose proof (lambda_loop_keeps_upserts env (Package.NS_ACCOUNT_ID settings)
                (Package.NS_SCRIPT_ID settings) (Package.NS_DEPLOY_ID settings)
                JSON_parse fuel (searchId m) [] 0 t1) as Hf.
  change (NetsuiteLambda.fetch_loop env _ _ _ JSON_parse fuel (searchId m) [] 0)
    with (fetchAllSavedSearchPages ns (searchId m)) in Hf.
  destruct (fetchAllSavedSearchPages ns (searchId m) t1) as [[raw | e |] t2] eqn:Hfetch;
    cbn [snd] in Hf.
  2: { rewrite log_false_world. cbn [snd world]. rewrite Hf, Hc. intros H. now elim H. }
  2: { cbn [snd world]. rewrite Hf, Hc. intros H. now elim H. }
  destruct raw as [| row rows].
  - cbv beta iota delta [ret]. cbn [snd world]. rewrite Hf, Hc. intros H. now elim H.
  - intros _. exists n, t1, row, rows, t2. rewrite Hf, Hc. auto.
Qed.

End BulkPath.

(** X6. On the bulk path nothing is written before the whole search has
    been fetched: if [syncMapping], on a table that is not paginated,
    issues any store upsert, then the count of the table was answered,
    [fetchAllSavedSearchPages] returned a non-empty list of rows, and no
    upsert had been issued until then. *)
Theorem bulk_path_writes_after_complete_fetch :
  forall env settings mappings JSON_parse fuel clock m s,
    requiresPagination (table m) = false ->
    upsert_calls
      (world (snd (syncMapping (Package.netsuiteClient env settings mappings JSON_parse fuel)
                     (Package.supabaseClient env) clock fuel m s)))
    <> upsert_calls (world s) ->
    exists n t1 row rows t2,
      getRecordCount (Package.supabaseClient env) (table m) (world s) = (Value n, t1)
      /\ fetchAllSavedSearchPages (Package.netsuiteClient env settings mappings JSON_parse fuel)
           (searchId m) t1 = (Value (row :: rows), t2)
      /\ upsert_calls t2 = upsert_calls (world s).
Proof.
  intros env settings mappings JSON_parse fuel clock m s Hp Hw.
  exact (bulk_write_needs_fetch env settings mappings JSON_parse fuel clock m s Hp Hw).
Qed.

Lemma bulk_path_writes_after_complete_fetch_witness :
  exists n t1 row rows t2,
    getRecordCount (Package.supabaseClient Sample.calm) "customers" [] = (Value n, t1)
    /\ fetchAllSavedSearchPages
         (Package.netsuiteClient Sample.calm Sample.settings Sample.catalog Sample.not_json 1)
         "101" t1 = (Value (row :: rows), t2)
    /\ upsert_calls t2 = [].
Proof.
  apply (bulk_path_writes_after_complete_fetch Sample.calm Sample.settings Sample.catalog
           Sample.not_json 1 (Date_now Sample.calm)
           (mkMapping "101" "search" "Customers" "customers" "upsert" VUndef)
           (mkManager constructor [])).
  - vm_compute. reflexivity.
  - assert (E : length (upsert_calls
                   (world (snd (syncMapping
                      (Package.netsuiteClient Sample.calm Sample.settings Sample.catalog
                         Sample.not_json 1)
                      (Package.supabaseClient Sample.calm) (Date_now Sample.calm) 1
                      (mkMapping "101" "search" "Customers" "customers" "upsert" VUndef)
                      (mkManager constructor []))))) = 1%nat) by (vm_compute; reflexivity).
    intros H. rewrite H in E. discriminate E.
Defined.

(** X7. When connection validation fails (the credentials check throws,
    the catalog is empty, or the check of the first table throws),
    [runSync] returns normally with the statistics of the manager:
    [startTime] and [totalMappings] are set, the counters and [endTime] are
    as they were, and [errors] has one more entry, "Connection validation
    failed" with the message of the error.  The world is left as
    validation left it: no mapping is synchronized. *)
Theorem validation_failure_aborts_run :
  forall W (ns : NetsuiteClient W) (sb : SupabaseClient W) mappings clock fuel
         (s : Manager W) e w',
    validation_fails ns sb mappings (world s) e w' ->
    exists stats,
      runSync ns sb mappings clock fuel s
      = (Value stats, {| syncStats := stats; world := w' |})
      /\ stats = aborted_stats (syncStats s) (clock (world s) 0%nat) (length mappings)
                   {| entry_message := "Connection validation failed";
                      entry_error := message e;
                      entry_timestamp := clock w' 0%nat |}.
Proof.
  intros W ns sb mappings clock fuel s e w' Hfail.
  eexists. split; [apply (runSync_aborts ns sb mappings clock fuel s e w' Hfail) | reflexivity].
Qed.

Lemma validation_failure_aborts_run_witness :
  exists stats,
    fst (Package.runSync Cases.forbidden Sample.settings Sample.catalog Sample.not_json 1
           (mkManager constructor [])) = Value stats
    /\ totalMappings stats = 3%nat
    /\ successfulSyncs stats = 0%nat /\ failedSyncs stats = 0%nat
    /\ endTime stats = None
    /\ map entry_message (errors stats) = ["Connection validation failed"].
Proof.
  pose (ns := Package.netsuiteClient Cases.forbidden Sample.settings Sample.catalog
                Sample.not_json 1).
  pose (sb := Package.supabaseClient Cases.forbidden).
  pose (w1 := snd (validateCredentials ns [])).
  assert (Hfail : validation_fails ns sb Sample.catalog
                    (world (mkManager constructor []))
                    (new_Error "Failed to validate NetSuite connection") w1).
  { left. vm_compute. reflexivity. }
  destruct (validation_failure_aborts_run Trace ns sb Sample.catalog
              (Date_now Cases.forbidden) 1 (mkManager constructor []) _ _ Hfail)
    as (stats & Hrun & ->).
  eexists. unfold Package.runSync. fold ns. fold sb. rewrite Hrun.
  split; [reflexivity |]. repeat split.
Defined.

(** X8. [runSync] never throws, so the Lambda handler never answers 500:
    whenever it answers, the status is 200 and the body carries the
    statistics of the manager.  This includes the runs whose connection
    validation failed, which answer 200 with the counters and [endTime]
    unchanged.  When every client call settles and pagination ends within
    the bound, the handler does answer. *)
Theorem handler_always_answers_200 :
  forall W (ns : NetsuiteClient W) (sb : SupabaseClient W) mappings clock fuel (s : Manager W),
    (forall e s', runSync ns sb mappings clock fuel s <> (Thrown e, s'))
    /\ answers_200 (Entry.handler ns sb mappings clock fuel s)
    /\ (forall e w',
          validation_fails ns sb mappings (world s) e w' ->
          exists stats s',
            Entry.handler ns sb mappings clock fuel s
            = (Value {| Entry.statusCode := 200; Entry.body := Entry.Complete stats |}, s')
            /\ successfulSyncs stats = successfulSyncs (syncStats s)
            /\ endTime stats = endTime (syncStats s))
    /\ (clients_settle ns sb -> pages_end_by ns fuel -> (1 <= fuel)%nat ->
        exists stats s',
          Entry.handler ns sb mappings clock fuel s
          = (Value {| Entry.statusCode := 200; Entry.body := Entry.Complete stats |}, s')
          /\ stats = syncStats s').
Proof.
  intros W ns sb mappings clock fuel s.
  split; [intros e s'; apply runSync_never_throws |].
  split; [apply handler_answers_200 |].
  split.
  - intros e w' Hfail. unfold Entry.handler, try_catch, bind.
    rewrite (runSync_aborts ns sb mappings clock fuel s e w' Hfail).
    do 2 eexists. split; [reflexivity | split; reflexivity].
  - intros Hsettle Hlast Hge. unfold Entry.handler, try_catch, bind.
    destruct (validation_decided ns sb mappings (world s) Hsettle)
      as [(w' & Hpass) | (e & w' & Hfail)].
    + destruct (runSync_totals ns sb mappings clock fuel s w' Hsettle Hlast Hge Hpass)
        as (stats & s' & ok & ko & entries & Hrun & Hown & _).
      rewrite Hrun. now exists stats, s'.
    + rewrite (runSync_aborts ns sb mappings clock fuel s e w' Hfail).
      do 2 eexists. split; reflexivity.
Qed.

Lemma handler_always_answers_200_witness :
  exists stats s',
    Entry.handler
      (Package.netsuiteClient Cases.forbidden Sample.settings Sample.catalog Sample.not_json 1)
      (Package.supabaseClient Cases.forbidden) Sample.catalog (Date_now Cases.forbidden) 1
      (mkManager constructor [])
    = (Value {| Entry.statusCode := 200; Entry.body := Entry.Complete stats |}, s')
    /\ successfulSyncs stats = 0%nat
    /\ endTime stats = None.
Proof.
  pose (ns := Package.netsuiteClient Cases.forbidden Sample.settings Sample.catalog
                Sample.not_json 1).
  pose (sb := Package.supabaseClient Cases.forbidden).
  pose (w1 := snd (validateCredentials ns [])).
  assert (Hfail : validation_fails ns sb Sample.catalog
                    (world (mkManager constructor []))
                    (new_Error "Failed to validate NetSuite connection") w1).
  { left. vm_compute. reflexivity. }
  destruct (handler_always_answers_200 Trace ns sb Sample.catalog (Date_now Cases.forbidden) 1
              (mkManager constructor [])) as (_ & _ & H & _).
  exact (H _ _ Hfail).
Defined.

(** X9. The statistics belong to the manager, not to the run: a second
    [runSync] on the same manager sets [totalMappings] to the size of the
    catalog again, but goes on counting successes, failures and errors on
    top of those of the first run, so that after two runs the successes
    and failures add up to twice the size of the catalog more than before
    the first. *)
Theorem statistics_accumulate_across_runs :
  forall W (ns : NetsuiteClient W) (sb : SupabaseClient W) mappings clock fuel
         (s : Manager W) w1 stats1 s1 w2,
    clients_settle ns sb ->
    pages_end_by ns fuel ->
    (1 <= fuel)%nat ->
    validation_passes ns sb mappings (world s) w1 ->
    runSync ns sb mappings clock fuel s = (Value stats1, s1) ->
    validation_passes ns sb mappings (world s1) w2 ->
    exists stats2 s2 later,
      runSync ns sb mappings clock fuel s1 = (Value stats2, s2)
      /\ totalMappings stats2 = length mappings
      /\ (successfulSyncs stats2 + failedSyncs stats2
          = successfulSyncs (syncStats s) + failedSyncs (syncStats s) + 2 * length mappings)%nat
      /\ errors stats2 = (errors stats1 ++ later)%list
      /\ length (errors stats2)
         = (length (errors (syncStats s)) + (failedSyncs stats2 - failedSyncs (syncStats s)))%nat.
Proof.
  intros W ns sb mappings clock fuel s w1 stats1 s1 w2 Hsettle Hlast Hge Hv1 Hrun1 Hv2.
  destruct (runSync_totals ns sb mappings clock fuel s w1 Hsettle Hlast Hge Hv1)
    as (st1 & s1' & ok1 & ko1 & entries1 & Hr1 & Hown1 & _ & Hsum1 & Hlen1 & Hok1 & Hko1 & Herr1).
  rewrite Hrun1 in Hr1. injection Hr1 as <- <-.
  destruct (runSync_totals ns sb mappings clock fuel s1 w2 Hsettle Hlast Hge Hv2)
    as (stats2 & s2 & ok2 & ko2 & entries2 & Hr2 & _ & Htotal & Hsum2 & Hlen2 & Hok2 & Hko2 & Herr2).
  exists stats2, s2, entries2. rewrite <- Hown1 in Hok2, Hko2, Herr2.
  split; [exact Hr2 |]. split; [exact Htotal |].
  split; [lia |]. split; [exact Herr2 |].
  rewrite Herr2, Herr1, !length_app. lia.
Qed.

Lemma statistics_accumulate_across_runs_witness :
  exists stats2 s2,
    Package.runSync Sample.search_102_down Sample.settings Sample.catalog Sample.not_json 1
      (snd (Package.runSync Sample.search_102_down Sample.settings Sample.catalog
              Sample.not_json 1 (mkManager constructor [])))
    = (Value stats2, s2)
    /\ totalMappings stats2 = 3%nat
    /\ (successfulSyncs stats2 + failedSyncs stats2 = 6)%nat.
Proof.
  pose (ns := Package.netsuiteClient Sample.search_102_down Sample.settings Sample.catalog
                Sample.not_json 1).
  pose (sb := Package.supabaseClient Sample.search_102_down).
  pose (m1 := mkMapping "101" "search" "Customers" "customers" "upsert" VUndef).
  pose (s0 := mkManager constructor ([] : Trace)).
  pose (r1 := runSync ns sb Sample.catalog (Date_now Sample.search_102_down) 1 s0).
  pose (w1 := snd (validateConnection sb (Some m1) (snd (validateCredentials ns [])))).
  pose (w2 := snd (validateConnection sb (Some m1)
                     (snd (validateCredentials ns (world (snd r1)))))).
  assert (Hv1 : validation_passes ns sb Sample.catalog (world s0) w1).
  { exists m1, (tl Sample.catalog), true, (snd (validateCredentials ns [])), true.
    split; [reflexivity |]. split; vm_compute; reflexivity. }
  assert (Hv2 : validation_passes ns sb Sample.catalog (world (snd r1)) w2).
  { exists m1, (tl Sample.catalog), true, (snd (validateCredentials ns (world (snd r1)))), true.
    split; [reflexivity |]. split; vm_compute; reflexivity. }
  assert (Hrun1 : runSync ns sb Sample.catalog (Date_now Sample.search_102_down) 1 s0
                  = (Value (syncStats (snd r1)), snd r1)).
  { vm_compute. reflexivity. }
  destruct (statistics_accumulate_across_runs Trace ns sb Sample.catalog
              (Date_now Sample.search_102_down) 1 s0 w1 _ _ w2
              (packaged_clients_settle _ _ _ _ sample_single_page 0)
              (packaged_pages_end _ _ _ _ sample_single_page 1 1)
              (le_n 1) Hv1 Hrun1 Hv2)
    as (stats2 & s2 & later & Hrun2 & Htotal & Hsum & _).
  exists stats2, s2. split; [exact Hrun2 |]. split; [exact Htotal | exact Hsum].
Defined.

(** X10. A mapping whose table name the packaged writer refuses (it does
    not match [^[A-Za-z0-9_-]+$]) fails before anything is asked of the
    remote or of the store: [syncMapping] returns false, records one entry
    "Failed to sync <name> to <table>" with the error "Invalid table name
    format", and leaves the world as it was. *)
Theorem refused_table_name_fails_before_any_call :
  forall env settings mappings JSON_parse fuel clock m (s : Manager Trace),
    table_name_re (table m) = false ->
    exists entry,
      syncMapping (Package.netsuiteClient env settings mappings JSON_parse fuel)
        (Package.supabaseClient env) clock fuel m s
      = (Value false,
         {| syncStats := tally (syncStats s) 0 0 [entry]; world := world s |})
      /\ entry_message entry = "Failed to sync " ++ name m ++ " to " ++ table m
      /\ entry_error entry = "Invalid table name format".
Proof.
  intros env settings mappings JSON_parse fuel clock m s Hname.
  assert (Hp : requiresPagination (table m) = false).
  { destruct (requiresPagination (table m)) eqn:E; [| reflexivity].
    apply bool_decide_eq_true_1 in E. unfold PAGINATED_TABLES in E.
    rewrite !elem_of_union, !elem_of_singleton in E.
    destruct E as [[E | E] | E]; rewrite E in Hname; discriminate Hname. }
  eexists. split.
  - apply syncMapping_catches; [exact Hp |].
    unfold syncMapping_try. rewrite Hp. unfold bind at 1. unfold call at 1.
    cbn [getRecordCount Package.supabaseClient].
    unfold SupabaseLambda.getRecordCount. cbn [SupabaseLambda._isValidTableName].
    rewrite Hname. cbn [negb throw]. destruct s. reflexivity.
  - split; reflexivity.
Qed.

Lemma refused_table_name_fails_before_any_call_witness :
  exists entry,
    syncMapping
      (Package.netsuiteClient Sample.calm Sample.settings Cases.spaced_catalog
         Sample.not_json 1)
      (Package.supabaseClient Sample.calm) (Date_now Sample.calm) 1
      (mkMapping "104" "search" "Price list" "price list" "upsert" VUndef)
      (mkManager constructor [])
    = (Value false, {| syncStats := tally constructor 0 0 [entry]; world := [] |})
    /\ entry_message entry = "Failed to sync Price list to price list"
    /\ entry_error entry = "Invalid table name format".
Proof.
  apply (refused_table_name_fails_before_any_call Sample.calm Sample.settings
           Cases.spaced_catalog Sample.not_json 1 (Date_now Sample.calm)
           (mkMapping "104" "search" "Price list" "price list" "upsert" VUndef)
           (mkManager constructor [])).
  reflexivity.
Defined.

(** X11. A destination table that does not exist does not fail
    connection validation: when the store answers the probe of the first
    mapping's table with the error code 42P01, the packaged
    [validateConnection] returns false without throwing, and
    [validateConnections], which does not look at that result, returns
    true. *)
Theorem missing_table_passes_validation :
  forall env settings m ms JSON_parse fuel clock (s : Manager Trace) b t1 a err,
    validateCredentials (Package.netsuiteClient env settings (m :: ms) JSON_parse fuel) (world s)
    = (Value b, t1) ->
    supabaseTable m = VUndef ->
    table_name_re (table m) = true ->
    store_count env t1 (table m) = Answered a ->
    a_error a = Some err ->
    se_code err = "42P01" ->
    SupabaseLambda.validateConnection env (Some m) t1
    = (Value false, (t1 ++ [StoreCount (table m) (Answered a)])%list)
    /\ validateConnections (Package.netsuiteClient env settings (m :: ms) JSON_parse fuel)
         (Package.supabaseClient env) (m :: ms) clock s
       = (Value true,
          {| syncStats := syncStats s;
             world := (t1 ++ [StoreCount (table m) (Answered a)])%list |}).
Proof.
  intros env settings m ms JSON_parse fuel clock s b t1 a err Hcred Hsup Hname Hreply Herr Hcode.
  assert (Hconn : SupabaseLambda.validateConnection env (Some m) t1
                  = (Value false, (t1 ++ [StoreCount (table m) (Answered a)])%list)).
  { unfold SupabaseLambda.validateConnection. rewrite Hsup.
    assert (Hne : truthy (VStr (table m)) = true).
    { cbn [truthy]. unfold table_name_re in Hname. now apply andb_true_iff in Hname as [-> _]. }
    unfold or_else. cbn [truthy]. cbn [truthy] in Hne. rewrite Hne.
    cbn [negb SupabaseLambda._isValidTableName]. rewrite Hname. cbn [negb String_].
    unfold try_catch, bind, SupabaseLambda.client_count, Supabase.client_count.
    rewrite Hreply, Herr, Hcode. reflexivity. }
  split; [exact Hconn |].
  apply validation_true. exists m, ms, b, t1, false.
  split; [reflexivity |]. split; [exact Hcred | exact Hconn].
Qed.

Lemma missing_table_passes_validation_witness :
  exists t',
    validateConnections
      (Package.netsuiteClient Cases.no_tables Sample.settings Sample.catalog Sample.not_json 1)
      (Package.supabaseClient Cases.no_tables) Sample.catalog (Date_now Cases.no_tables)
      (mkManager constructor [])
    = (Value true, {| syncStats := constructor; world := t' |}).
Proof.
  pose (ns := Package.netsuiteClient Cases.no_tables Sample.settings Sample.catalog
                Sample.not_json 1).
  pose (t1 := snd (validateCredentials ns [])).
  eexists.
  refine (proj2 (missing_table_passes_validation Cases.no_tables Sample.settings
                   (mkMapping "101" "search" "Customers" "customers" "upsert" VUndef)
                   (tl Sample.catalog) Sample.not_json 1 (Date_now Cases.no_tables)
                   (mkManager constructor []) true t1 _ _ _ _ _ _ _ _)).
  - vm_compute. reflexivity.
  - reflexivity.
  - reflexivity.
  - reflexivity.
  - reflexivity.
  - reflexivity.
Defined.

(** X12. An error that [fetchSavedSearch] throws inside its own [try]
    block, for a 2xx answer with an empty body or with an [error] field, is
    caught by the [catch] of the same function and takes the branch meant
    for failures to set up the request: the first reader rethrows it as
    "Request setup error: <message>", and the packaged reader as "Failed
    to set up request to NetSuite API", which no longer tells what the
    remote answered. *)
Theorem inner_errors_are_relabelled :
  forall env accountId scriptId deployId sid st j t,
    turned_down j ->
    (forall page,
       http_get env t (Netsuite.request_url accountId scriptId deployId sid page)
       = Resolved st j ->
       Netsuite.fetchSavedSearch env accountId scriptId deployId sid page t
       = (Thrown (new_Error ("Request setup error: " ++ inner_message j)),
          (t ++ [HttpGet (Netsuite.request_url accountId scriptId deployId sid page)
                   (Resolved st j)])%list))
    /\ (forall page q,
          sid <> "" ->
          parseInt (Number_toString page) = Fin q ->
          http_get env t (NetsuiteLambda.request_url accountId scriptId deployId sid
                            (max0 (Fin q)))
          = Resolved st j ->
          NetsuiteLambda.fetchSavedSearch env accountId scriptId deployId sid page t
          = (Thrown (new_Error "Failed to set up request to NetSuite API"),
             (t ++ [HttpGet (NetsuiteLambda.request_url accountId scriptId deployId sid
                               (max0 (Fin q)))
                      (Resolved st j)])%list)).
Proof.
  intros env accountId scriptId deployId sid st j t Hdown. split.
  - intros page Hget. unfold Netsuite.fetchSavedSearch, try_catch, bind, Netsuite.axios_get.
    rewrite Hget. cbn [snd]. unfold inner_message.
    destruct Hdown as [H | H].
    + rewrite H. reflexivity.
    + destruct (Netsuite.json_truthy j); [| reflexivity].
      cbn [negb]. rewrite H. reflexivity.
  - intros page q Hsid Hpage Hget. unfold NetsuiteLambda.fetchSavedSearch.
    destruct (String.eqb_spec sid "") as [-> | _]; [contradiction |].
    rewrite Hpage.
    unfold try_catch, bind, Netsuite.axios_get.
    rewrite Hget. cbn [snd].
    destruct Hdown as [H | H].
    + rewrite H. reflexivity.
    + destruct (Netsuite.json_truthy j); [| reflexivity].
      cbn [negb]. rewrite H. reflexivity.
Qed.

Lemma inner_errors_are_relabelled_witness :
  fst (Netsuite.fetchSavedSearch Cases.embedded_error "1234567" "77" "1" "101" 0 [])
  = Thrown (new_Error "Request setup error: NetSuite API Error: Search 101 not found")
  /\ fst (NetsuiteLambda.fetchSavedSearch Cases.embedded_error "1234567" "77" "1" "101" (Fin 0) [])
     = Thrown (new_Error "Failed to set up request to NetSuite API").
Proof.
  assert (Hdown : turned_down Cases.search_not_found) by (right; reflexivity).
  destruct (inner_errors_are_relabelled Cases.embedded_error "1234567" "77" "1" "101" 200
              Cases.search_not_found [] Hdown) as [Hsrc Hpkg].
  split.
  - rewrite (Hsrc 0 eq_refl). reflexivity.
  - rewrite (Hpkg (Fin 0) 0%Q); [reflexivity | discriminate | reflexivity | reflexivity].
Defined.

(** X13. When the remote rejects the credentials with HTTP 401 or 403,
    the packaged [fetchSavedSearch] throws "Authentication failed. Please
    check NetSuite credentials.", but [validateCredentials] does not pass
    this on: after that single request, for page 0 of the first mapping's
    search, it throws "Failed to validate NetSuite connection". *)
Theorem rejected_credentials_are_reported_as_generic :
  forall env settings m ms JSON_parse fuel t e r,
    credentials_set settings ->
    searchId m <> "" ->
    http_get env t
      (NetsuiteLambda.request_url (Package.NS_ACCOUNT_ID settings) (Package.NS_SCRIPT_ID settings)
         (Package.NS_DEPLOY_ID settings) (searchId m) (Fin 0))
    = Rejected e ->
    response e = Some r ->
    status r = 401 \/ status r = 403 ->
    exists t',
      NetsuiteLambda.fetchSavedSearch env (Package.NS_ACCOUNT_ID settings)
        (Package.NS_SCRIPT_ID settings) (Package.NS_DEPLOY_ID settings) (searchId m) (Fin 0) t
      = (Thrown (new_Error "Authentication failed. Please check NetSuite credentials."), t')
      /\ validateCredentials (Package.netsuiteClient env settings (m :: ms) JSON_parse fuel) t
         = (Thrown (new_Error "Failed to validate NetSuite connection"), t')
      /\ requests t' = (requests t ++ [NetsuiteLambda.request_url (Package.NS_ACCOUNT_ID settings)
                                         (Package.NS_SCRIPT_ID settings)
                                         (Package.NS_DEPLOY_ID settings) (searchId m) (Fin 0)])%list.
Proof.
  intros env settings m ms JSON_parse fuel t e r Hset Hsid Hget Hresp Hstatus.
  assert (Hfetch :
    NetsuiteLambda.fetchSavedSearch env (Package.NS_ACCOUNT_ID settings)
      (Package.NS_SCRIPT_ID settings) (Package.NS_DEPLOY_ID settings) (searchId m) (Fin 0) t
    = (Thrown (new_Error "Authentication failed. Please check NetSuite credentials."),
       (t ++ [HttpGet (NetsuiteLambda.request_url (Package.NS_ACCOUNT_ID settings)
                         (Package.NS_SCRIPT_ID settings) (Package.NS_DEPLOY_ID settings)
                         (searchId m) (Fin 0)) (Rejected e)])%list)).
  { unfold NetsuiteLambda.fetchSavedSearch.
    destruct (String.eqb_spec (searchId m) "") as [E | _]; [contradiction |].
    change (parseInt (Number_toString (Fin 0))) with (Fin 0).
    cbv beta iota zeta. change (max0 (Fin 0)) with (Fin 0).
    unfold try_catch, bind, Netsuite.axios_get. rewrite Hget, Hresp.
    destruct Hstatus as [-> | ->]; reflexivity. }
  eexists. split; [exact Hfetch |]. split.
  - cbn [validateCredentials Package.netsuiteClient].
    unfold NetsuiteLambda.validateCredentials. unfold credentials_set in Hset. rewrite Hset.
    unfold try_catch at 1. unfold bind. rewrite Hfetch. reflexivity.
  - rewrite requests_snoc. reflexivity.
Qed.

Lemma rejected_credentials_are_reported_as_generic_witness :
  exists t',
    validateCredentials
      (Package.netsuiteClient Cases.forbidden Sample.settings Sample.catalog Sample.not_json 1) []
    = (Thrown (new_Error "Failed to validate NetSuite connection"), t').
Proof.
  destruct (rejected_credentials_are_reported_as_generic Cases.forbidden Sample.settings
              (mkMapping "101" "search" "Customers" "customers" "upsert" VUndef)
              (tl Sample.catalog) Sample.not_json 1 [] Cases.unauthorized
              {| status := 401; statusText := VStr "Unauthorized";
                 data_message := Carrying (VStr "Invalid login attempt.") |})
    as (t' & _ & H & _).
  - reflexivity.
  - discriminate.
  - reflexivity.
  - reflexivity.
  - left. reflexivity.
  - exists t'. exact H.
Defined.

Section FailingPage.

Variable env : Env.
Variables accountId scriptId deployId : string.
Variable JSON_parse : string -> Json + string.
Variable searchId : string.

Local Abbreviation url_of := (Netsuite.request_url accountId scriptId deployId searchId).

Lemma fetch_not_a_page t page :
  not_a_page (http_get env t (url_of page)) ->
  forall fuel allResults,
  exists e,
    Netsuite.fetch_loop env accountId scriptId deployId JSON_parse (S fuel) searchId
      allResults page t
    = (Thrown e, (t ++ [HttpGet (url_of page) (http_get env t (url_of page))])%list).
Proof.
  intros Hbad fuel allResults. cbn [Netsuite.fetch_loop].
  unfold bind at 1. unfold Netsuite.fetchSavedSearch, try_catch at 1 2, bind at 1 2,
    Netsuite.axios_get.
  fold url_of.
  destruct (http_get env t (url_of page)) as [st j | e0] eqn:Hget.
  - cbn [snd]. destruct Hbad as [[H | H] | (p & v & -> & Hdata)].
    + rewrite H. cbn [negb throw]. eexists. reflexivity.
    + destruct (Netsuite.json_truthy j); cbn [negb throw]; [| eexists; reflexivity].
      rewrite H. cbn [throw]. eexists. reflexivity.
    + cbn [Netsuite.json_truthy negb Netsuite.json_error].
      destruct (truthy (p_error p)); cbn [throw ret]; [eexists; reflexivity |].
      unfold bind, Netsuite.parseNetSuiteResponse.
      destruct p as [perr pdata ppi ptp phm]. cbn [p_data] in Hdata. subst pdata.
      eexists. reflexivity.
  - cbn [throw].
    destruct (response e0) as [r |]; [destruct (data_message r) |
                                      destruct (request e0)]; eexists; reflexivity.
Qed.

Lemma fetch_loop_fails pages : forall fuel allResults page t tk,
  Forall well_formed pages ->
  Forall (fun p => truthy (p_hasMore p) = true) pages ->
  served env url_of t page pages tk ->
  not_a_page (http_get env tk (url_of (page + Z.of_nat (length pages)))) ->
  (length pages < fuel)%nat ->
  exists e,
    Netsuite.fetch_loop env accountId scriptId deployId JSON_parse fuel searchId allResults page t
    = (Thrown e,
       (tk ++ [HttpGet (url_of (page + Z.of_nat (length pages)))
                 (http_get env tk (url_of (page + Z.of_nat (length pages))))])%list)
    /\ requests tk = (requests t ++ map url_of (page_indices page (length pages)))%list.
Proof.
  induction pages as [| p rest IH]; intros fuel allResults page t tk Hwf Hmore Hserved Hbad Hfuel.
  - simpl in Hserved. subst tk. destruct fuel as [| fuel]; [lia |].
    simpl length in *. rewrite Z.add_0_r in *.
    destruct (fetch_not_a_page t page Hbad fuel allResults) as (e & He).
    exists e. split; [exact He |]. unfold page_indices. simpl. now rewrite app_nil_r.
  - destruct fuel as [| fuel]; [simpl in Hfuel; lia |].
    apply Forall_cons in Hwf as [[Herr [rows Hdata]] Hwf].
    apply Forall_cons in Hmore as [Hm Hmore].
    destruct Hserved as (status & Hget & Hserved).
    destruct (fetch_one env accountId scriptId deployId JSON_parse searchId
                t page status p rows Hget Herr Hdata) as [Hfetch Hparse].
    destruct (Hparse (t ++ [HttpGet (url_of page) (Resolved status (JObject p))])%list)
      as (pg & Hpg & Hrows & Hmore_pg).
    rewrite Hm in Hmore_pg.
    change (length (p :: rest)) with (S (length rest)) in *.
    replace (page + Z.of_nat (S (length rest))) with (page + 1 + Z.of_nat (length rest)) in * by lia.
    unfold received in Hserved. rewrite Hm in Hserved.
    destruct (IH fuel (allResults ++ rows)%list (page + 1) _ tk Hwf Hmore Hserved Hbad)
      as (e & Hrun & Hreq); [simpl in Hfuel; lia |].
    exists e. split.
    + cbn [Netsuite.fetch_loop]. unfold bind at 1. rewrite Hfetch.
      unfold bind at 1. unfold try_catch at 1. unfold bind at 1. rewrite Hpg.
      cbv beta iota delta [ret bind Netsuite.delay]. rewrite Hmore_pg, Hrows.
      cbv beta iota. rewrite Hmore_pg.
      rewrite <- app_assoc. exact Hrun.
    + rewrite Hreq, page_indices_cons.
      change (t ++ [HttpGet (url_of page) (Resolved status (JObject p)); Sleep 1000])%list
        with (t ++ [HttpGet (url_of page) (Resolved status (JObject p))] ++ [Sleep 1000])%list.
      rewrite app_assoc, !requests_snoc. cbn [map]. rewrite app_nil_r, <- app_assoc. reflexivity.
Qed.

End FailingPage.

Lemma page_indices_snoc from n :
  page_indices from (S n) = (page_indices from n ++ [from + Z.of_nat n])%list.
Proof.
  unfold page_indices. rewrite seq_S, map_app. reflexivity.
Qed.

(** X14. In the first reader, when the remote answers the first k
    requests of [fetchAllSavedSearchPages] with well-formed pages that
    announce more and the next one with anything that is not a page (a
    rejection, an empty body, an embedded error, an object without a
    [data] array), the call throws: the rows of the k pages already
    fetched are not returned, the requests made are those for the pages
    0 to k, and nothing is written to the store. *)
Theorem first_failing_page_aborts_fetch :
  forall env accountId scriptId deployId JSON_parse searchId pages fuel t tk,
    Forall well_formed pages ->
    Forall (fun p => truthy (p_hasMore p) = true) pages ->
    served env (Netsuite.request_url accountId scriptId deployId searchId) t 0 pages tk ->
    not_a_page (http_get env tk (Netsuite.request_url accountId scriptId deployId searchId
                                   (Z.of_nat (length pages)))) ->
    (length pages < fuel)%nat ->
    exists e t',
      Netsuite.fetchAllSavedSearchPages env accountId scriptId deployId JSON_parse fuel searchId t
      = (Thrown e, t')
      /\ requests t'
         = (requests t ++ map (Netsuite.request_url accountId scriptId deployId searchId)
                            (page_indices 0 (S (length pages))))%list
      /\ upsert_calls t' = upsert_calls t.
Proof.
  intros env accountId scriptId deployId JSON_parse searchId pages fuel t tk
         Hwf Hmore Hserved Hbad Hfuel.
  destruct (fetch_loop_fails env accountId scriptId deployId JSON_parse searchId pages
              fuel [] 0 t tk Hwf Hmore Hserved Hbad Hfuel) as (e & Hrun & Hreq).
  simpl in Hrun.
  exists e. eexists. split; [exact Hrun |]. split.
  - rewrite requests_snoc, Hreq, page_indices_snoc, map_app, app_assoc. reflexivity.
  - pose proof (src_loop_keeps_upserts env accountId scriptId deployId JSON_parse fuel
                  searchId [] 0 t) as Hk.
    rewrite Hrun in Hk. exact Hk.
Qed.

Lemma first_failing_page_aborts_fetch_witness :
  exists e t',
    Netsuite.fetchAllSavedSearchPages Cases.second_page_down "1234567" "77" "1"
      Sample.not_json 5 "2019" [] = (Thrown e, t')
    /\ requests t' = [ Netsuite.request_url "1234567" "77" "1" "2019" 0;
                       Netsuite.request_url "1234567" "77" "1" "2019" 1 ].
Proof.
  destruct (first_failing_page_aborts_fetch Cases.second_page_down "1234567" "77" "1"
              Sample.not_json "2019" [Cases.first_page] 5 []
              (received [] (Netsuite.request_url "1234567" "77" "1" "2019" 0) 200
                 Cases.first_page))
    as (e & t' & Hrun & Hreq & _).
  - repeat constructor. eexists. reflexivity.
  - repeat constructor.
  - cbv beta iota delta [served]. exists 200. split; [vm_compute; reflexivity | reflexivity].
  - assert (E : http_get Cases.second_page_down
                  (received [] (Netsuite.request_url "1234567" "77" "1" "2019" 0) 200
                     Cases.first_page)
                  (Netsuite.request_url "1234567" "77" "1" "2019"
                     (Z.of_nat (length [Cases.first_page])))
                = Rejected Cases.server_error) by (vm_compute; reflexivity).
    rewrite E. exact I.
  - simpl. lia.
  - exists e, t'. split; [exact Hrun | exact Hreq].
Defined.

(* ===================================================================== *)
(** * Further properties: store calls and request urls *)
(* ===================================================================== *)

Section ChunkCount.

Context {A : Type}.
Local Open Scope nat_scope.

Lemma chunks_from_length (records : list A) turns : forall i,
  length records - i <= turns ->
  length (chunks_from turns i records) = (length records - i + 499) / 500.
Proof.
  induction turns as [| turns IH]; intros i Hfuel.
  - simpl. replace (length records - i) with 0 by lia. reflexivity.
  - destruct (Nat.lt_ge_cases i (length records)) as [Hlt | Hge].
    + rewrite chunks_from_lt by exact Hlt. cbn [length].
      rewrite IH by (unfold chunkSize; lia).
      replace (length records - (i + chunkSize)) with (length records - i - 500)
        by (unfold chunkSize; lia).
      pose proof (Nat.div_mod_eq (length records - i + 499) 500).
      pose proof (Nat.mod_upper_bound (length records - i + 499) 500).
      pose proof (Nat.div_mod_eq (length records - i - 500 + 499) 500).
      pose proof (Nat.mod_upper_bound (length records - i - 500 + 499) 500).
      lia.
    + rewrite chunks_from_ge by exact Hge.
      replace (length records - i) with 0 by lia. reflexivity.
Qed.

Lemma chunks_length (records : list A) :
  length (chunks records) = (length records + 499) / 500.
Proof.
  unfold chunks. rewrite chunks_from_length by lia. f_equal. lia.
Qed.

End ChunkCount.

Lemma calls_for_length table c cs : length (calls_for table c cs) = length cs.
Proof. unfold calls_for. apply length_map. Qed.

Lemma chunked_outcome_calls table c rows t r :
  chunked_outcome table c rows t r ->
  (length (upsert_calls (snd r)) <= length (upsert_calls t) + (length rows + 499) / 500)%nat
  /\ (forall res, fst r = Value res ->
        length (upsert_calls (snd r))
        = (length (upsert_calls t) + (length rows + 499) / 500)%nat
        /\ exists n results, res = Upserted (length rows) n results).
Proof.
  destruct r as [[res | e |] t']; unfold chunked_outcome; cbn [fst snd]; [| | contradiction].
  - intros (Hres & Hcalls & _). rewrite Hcalls, length_app, calls_for_length, chunks_length.
    split; [lia |]. intros res' [= <-]. split; [reflexivity | exact Hres].
  - intros (k & msg & Hk & _ & Hcalls & _).
    rewrite Hcalls, length_app, calls_for_length, length_take, <- chunks_length.
    split; [lia | discriminate].
Qed.

(** X15. Writing n > 0 rows takes ceil(n / 500) store calls: [chunks]
    cuts the rows in (n + 499) / 500 chunks, either writer issues at most
    that many store-level upserts whatever the store answers, and exactly
    that many when it returns, in which case its result reports n rows
    processed. *)
Theorem store_calls_per_upsert :
  forall env table column rows t,
    rows <> [] ->
    table_name_re table = true ->
    conflict_column_re column = true ->
    length (chunks rows) = ((length rows + 499) / 500)%nat
    /\ (length (upsert_calls
                  (snd (SupabaseLambda.upsert env (VStr table) (Array rows) (VStr column) t)))
        <= length (upsert_calls t) + (length rows + 499) / 500)%nat
    /\ (length (upsert_calls (snd (Supabase.upsert env table (Array rows) (VStr column) t)))
        <= length (upsert_calls t) + (length rows + 499) / 500)%nat
    /\ (forall res t',
          SupabaseLambda.upsert env (VStr table) (Array rows) (VStr column) t = (Value res, t') ->
          length (upsert_calls t') = (length (upsert_calls t) + (length rows + 499) / 500)%nat
          /\ exists n results, res = Upserted (length rows) n results)
    /\ (forall res t',
          Supabase.upsert env table (Array rows) (VStr column) t = (Value res, t') ->
          length (upsert_calls t') = (length (upsert_calls t) + (length rows + 499) / 500)%nat
          /\ exists n results, res = Upserted (length rows) n results).
Proof.
  intros env table column rows t Hne Ht Hc.
  pose proof (lambda_upsert_chunked env table column rows t Hne Ht Hc) as Hl.
  pose proof (src_upsert_chunked env table column rows t Hne) as Hs.
  apply chunked_outcome_calls in Hl as [Hl1 Hl2].
  apply chunked_outcome_calls in Hs as [Hs1 Hs2].
  split; [apply chunks_length |]. split; [exact Hl1 |]. split; [exact Hs1 |].
  split; intros res t' Hrun.
  - rewrite Hrun in Hl2. exact (Hl2 res eq_refl).
  - rewrite Hrun in Hs2. exact (Hs2 res eq_refl).
Qed.

Lemma store_calls_per_upsert_witness :
  length (chunks Sample.rows_1200) = 3%nat
  /\ (length (upsert_calls
                (snd (SupabaseLambda.upsert Sample.second_upsert_fails (VStr "customers")
                        (Array Sample.rows_1200) (VStr "customer_internal_id") [])))
      <= 3)%nat.
Proof.
  assert (Hne : Sample.rows_1200 <> []).
  { intros H. apply (f_equal length) in H. vm_compute in H. discriminate H. }
  assert (Hlen : length Sample.rows_1200 = 1200%nat) by (vm_compute; reflexivity).
  destruct (store_calls_per_upsert Sample.second_upsert_fails "customers" "customer_internal_id"
              Sample.rows_1200 [] Hne eq_refl eq_refl) as (Hchunks & Hpkg & _).
  rewrite Hlen in Hchunks, Hpkg. split; [exact Hchunks | exact Hpkg].
Defined.

Lemma hex_digits_unreserved c :
  unreserved (hex_digit (code c / 16)) && unreserved (hex_digit (code c mod 16)) = true.
Proof. destruct c as [[] [] [] [] [] [] [] []]; vm_compute; reflexivity. Qed.

Lemma encodeURIComponent_alphabet s :
  all_chars (fun c => unreserved c || Ascii.eqb c "%") (encodeURIComponent s) = true.
Proof.
  induction s as [| c s IH]; [reflexivity |]. cbn [encodeURIComponent].
  destruct (unreserved c) eqn:Hc; cbn [all_chars].
  - now rewrite Hc, IH.
  - pose proof (hex_digits_unreserved c) as [H1 H2]%andb_true_iff.
    now rewrite H1, H2, IH.
Qed.

Lemma all_chars_excludes p c s :
  all_chars p s = true -> p c = false -> includes (String c "") s = false.
Proof.
  intros Hall Hc. induction s as [| b s IH]; [reflexivity |].
  cbn [all_chars] in Hall. apply andb_true_iff in Hall as [Hb Hs].
  cbn [includes starts_with].
  destruct (Ascii.eqb_spec c b) as [-> | _]; [congruence |].
  now rewrite (IH Hs).
Qed.

Lemma encodeURIComponent_unreserved s :
  all_chars unreserved s = true -> encodeURIComponent s = s.
Proof.
  induction s as [| c s IH]; [reflexivity |]. cbn [all_chars encodeURIComponent].
  intros [Hc Hs]%andb_true_iff. now rewrite Hc, (IH Hs).
Qed.

(** X16. [encodeURIComponent] yields unreserved characters and "%"
    only, hence none of & = ? # / or a space, and leaves a text of
    unreserved characters as it is: a parameter the packaged reader puts
    into a request url cannot add or change a query parameter.  The first
    reader inserts its parameters as they are: the search id
    "101&page=7" puts a page parameter of its own into the url of the
    first reader, and not into that of the packaged reader. *)
Theorem encoded_parameters_cannot_split_the_query :
  forall s,
    all_chars (fun c => unreserved c || Ascii.eqb c "%") (encodeURIComponent s) = true
    /\ Forall (fun c => includes (String c "") (encodeURIComponent s) = false)
         [ "&"; "="; "?"; "#"; "/"; " " ]%char
    /\ (all_chars unreserved s = true -> encodeURIComponent s = s)
    /\ includes "&page=7&page=0"
         (NetsuiteLambda.request_url "1234567" "77" "1" "101&page=7" (Fin 0)) = false
    /\ includes "&page=7&page=0"
         (Netsuite.request_url "1234567" "77" "1" "101&page=7" 0) = true.
Proof.
  intros s. pose proof (encodeURIComponent_alphabet s) as Hall.
  split; [exact Hall |]. split.
  - repeat constructor; apply (all_chars_excludes _ _ _ Hall); reflexivity.
  - split; [apply encodeURIComponent_unreserved |].
    split; vm_compute; reflexivity.
Qed.

Lemma encoded_parameters_cannot_split_the_query_witness :
  encodeURIComponent "customsearch_2019" = "customsearch_2019"
  /\ encodeURIComponent "101&page=7" = "101%26page%3D7".
Proof.
  split.
  - destruct (encoded_parameters_cannot_split_the_query "customsearch_2019") as (_ & _ & H & _).
    apply H. reflexivity.
  - reflexivity.
Defined.

(* ===================================================================== *)
(** * Further properties: the configuration loader *)
(* ===================================================================== *)

Section LoaderFacts.

Import ConfigLoader.

Lemma filter_nil_forall {A} (f : A -> bool) l :
  List.filter f l = [] <-> Forall (fun x => f x = false) l.
Proof.
  induction l as [| x l IH]; simpl; [split; [constructor | reflexivity] |].
  destruct (f x) eqn:E.
  - split; [discriminate | intros H; apply Forall_cons in H as [H _]; congruence].
  - rewrite IH. split; [now constructor | intros H; now apply Forall_cons in H as [_ H]].
Qed.

Lemma missingFields_complete entry :
  missingFields entry = inr [] <-> complete entry.
Proof.
  unfold complete. destruct entry as [o | |]; cbn [missingFields].
  - split.
    + intros H0. exists o. split; [reflexivity |].
      assert (H : List.filter (fun field => negb (truthy (get o field))) requiredFields = [])
        by congruence.
      apply filter_nil_forall in H. eapply Forall_impl; [exact H |].
      intros f Hf. simpl in Hf. now apply negb_false_iff in Hf.
    + intros (o' & [= <-] & H). f_equal. apply filter_nil_forall.
      eapply Forall_impl; [exact H |]. intros f Hf. simpl. now rewrite Hf.
  - split; [discriminate | intros (o & H & _); discriminate].
  - split; [discriminate | intros (o & H & _); discriminate].
Qed.

Lemma check_each_complete entries : forall index,
  check_each index entries = inr tt <-> Forall complete entries.
Proof.
  induction entries as [| entry rest IH]; intros index; simpl.
  - split; [constructor | reflexivity].
  - destruct (missingFields entry) as [e | [| f missing]] eqn:Hm.
    + split; [discriminate |]. intros H. apply Forall_cons in H as [H _].
      apply missingFields_complete in H. congruence.
    + rewrite IH. apply missingFields_complete in Hm.
      split; [now constructor | intros H; now apply Forall_cons in H as [_ H]].
    + split; [discriminate |]. intros H. apply Forall_cons in H as [H _].
      apply missingFields_complete in H. congruence.
Qed.

Lemma check_each_first_invalid before : forall index o after,
  Forall complete before ->
  ~ complete (EObject o) ->
  check_each index (before ++ EObject o :: after)
  = inl (new_Error ("Invalid mapping at index "
                    ++ Number_toString (num_of_nat (index + length before))
                    ++ ": missing required fields "
                    ++ join (List.filter (fun field => negb (truthy (get o field)))
                               requiredFields))).
Proof.
  induction before as [| entry before IH]; intros index o after Hall Hbad.
  - cbn [app length check_each]. rewrite Nat.add_0_r.
    destruct (missingFields (EObject o)) as [e | [| f missing]] eqn:Hm.
    + discriminate Hm.
    + exfalso. apply Hbad. now apply missingFields_complete.
    + cbn [missingFields] in Hm.
      assert (E : List.filter (fun field => negb (truthy (get o field))) requiredFields
                  = f :: missing) by congruence.
      rewrite E. reflexivity.
  - apply Forall_cons in Hall as [Hentry Hall].
    cbn [app length check_each].
    apply missingFields_complete in Hentry. rewrite Hentry.
    rewrite (IH (S index) o after Hall Hbad).
    replace (S index + length before)%nat with (index + S (length before))%nat by lia.
    reflexivity.
Qed.

Lemma validateEnvVars_set process_env :
  validateEnvVars process_env = inr tt <-> environment_set process_env.
Proof.
  unfold validateEnvVars, environment_set.
  destruct (List.filter _ requiredEnvVars) as [| v missing] eqn:Hf.
  - apply filter_nil_forall in Hf. split; [intros _ | reflexivity].
    eapply Forall_impl; [exact Hf |]. intros varName H. simpl in H.
    apply negb_false_iff in H. unfold env_var in H.
    destruct (process_env !! varName) as [value |]; [| discriminate H].
    exists value. split; [reflexivity |]. intros ->. discriminate H.
  - split; [discriminate |]. intros Hset. exfalso.
    assert (Hnil : List.filter (fun varName => negb (truthy (env_var process_env varName)))
                     requiredEnvVars = []).
    { apply filter_nil_forall. eapply Forall_impl; [exact Hset |].
      intros varName (value & Hv & Hne). simpl. unfold env_var. rewrite Hv. simpl.
      apply negb_false_iff, negb_true_iff. now apply String.eqb_neq. }
    congruence.
Qed.

End LoaderFacts.

(** X17. The configuration loader accepts the complete catalogs and no
    other: [init] returns a configuration exactly when the nine required
    environment variables are set and non-empty and the file holds a
    [mappings] array each entry of which is an object with its five
    required fields truthy; the mappings returned are the entries of the
    file, unchanged and in order.  The first incomplete entry is reported
    with its 0-based index and the names of its missing fields. *)
Theorem loader_accepts_complete_catalogs_only :
  forall process_env mappingsPath file,
    (forall cfg,
       ConfigLoader.init process_env mappingsPath file = inr cfg ->
       environment_set process_env
       /\ file = ConfigLoader.Document (Some (ConfigLoader.mappings cfg))
       /\ Forall complete (ConfigLoader.mappings cfg))
    /\ (forall entries,
          environment_set process_env ->
          file = ConfigLoader.Document (Some entries) ->
          Forall complete entries ->
          exists cfg, ConfigLoader.init process_env mappingsPath file = inr cfg
                      /\ ConfigLoader.mappings cfg = entries)
    /\ (forall before o after,
          Forall complete before ->
          ~ complete (ConfigLoader.EObject o) ->
          ConfigLoader.loadMappings mappingsPath
            (ConfigLoader.Document (Some (before ++ ConfigLoader.EObject o :: after)%list))
          = inl (new_Error
                   ("Invalid mapping at index "
                    ++ Number_toString (num_of_nat (length before))
                    ++ ": missing required fields "
                    ++ ConfigLoader.join
                         (List.filter (fun field => negb (truthy (get o field)))
                            ConfigLoader.requiredFields)))).
Proof.
  intros process_env mappingsPath file. split; [| split].
  - intros cfg. unfold ConfigLoader.init.
    destruct (ConfigLoader.validateEnvVars process_env) as [e | []] eqn:Henv; [discriminate |].
    apply validateEnvVars_set in Henv.
    destruct file as [| e | [entries |]]; cbn [ConfigLoader.loadMappings]; try discriminate.
    destruct (ConfigLoader.check_each 0 entries) as [e | []] eqn:Hcheck; [discriminate |].
    apply check_each_complete in Hcheck.
    intros [= <-]. cbn [ConfigLoader.mappings]. auto.
  - intros entries Henv -> Hall. unfold ConfigLoader.init.
    apply validateEnvVars_set in Henv. rewrite Henv. cbn [ConfigLoader.loadMappings].
    apply (check_each_complete entries 0%nat) in Hall. rewrite Hall.
    eexists. split; reflexivity.
  - intros before o after Hall Hbad. cbn [ConfigLoader.loadMappings].
    now rewrite (check_each_first_invalid before 0%nat o after Hall Hbad).
Qed.

Lemma loader_accepts_complete_catalogs_only_witness :
  ConfigLoader.loadMappings "/var/task/src/mappings/searchToTable.json"
    (ConfigLoader.Document
       (Some ([ ConfigLoader.EObject
                  {[ "searchId" := VStr "101"; "type" := VStr "search"; "name" := VStr "Customers";
                     "table" := VStr "customers"; "method" := VStr "upsert" ]} ]
              ++ ConfigLoader.EObject
                   {[ "searchId" := VStr "102"; "type" := VStr "search"; "name" := VStr "" ]}
                 :: [])%list))
  = inl (new_Error "Invalid mapping at index 1: missing required fields name, table, method").
Proof.
  destruct (loader_accepts_complete_catalogs_only ∅ "/var/task/src/mappings/searchToTable.json"
              ConfigLoader.ENOENT) as (_ & _ & H).
  rewrite H.
  - vm_compute. reflexivity.
  - repeat constructor. eexists. split; [reflexivity |]. repeat constructor.
  - intros (o & Ho & Hall). injection Ho as <-.
    apply Forall_cons in Hall as [_ Hall].
    apply Forall_cons in Hall as [_ Hall]. apply Forall_cons in Hall as [Hname _].
    discriminate Hname.
Defined.

(* ===================================================================== *)
(** * Further properties: printing and reading integers *)
(* ===================================================================== *)

Section Numerals.

Local Open Scope Z_scope.

Lemma string_app_cons x (a b : string) : (String x a ++ b = String x (a ++ b))%string.
Proof. reflexivity. Qed.

Lemma string_app_assoc (a b c : string) : ((a ++ b) ++ c = a ++ (b ++ c))%string.
Proof. induction a as [| x a IH]; [reflexivity |]. now rewrite !string_app_cons, IH. Qed.

Lemma pretty_N_go_app x : forall s, pretty_N_go x s = (pretty_N_go x "" ++ s)%string.
Proof.
  induction (N.lt_wf_0 x) as [x _ IH]. intros s.
  destruct (N.eq_dec x 0%N) as [-> | Hx]; [now rewrite !pretty_N_go_0 |].
  rewrite !(pretty_N_go_step x) by lia.
  assert (Hlt : (x `div` 10 < x)%N) by (apply N.div_lt; lia).
  rewrite (IH _ Hlt (String (pretty_N_char (x `mod` 10)) s)).
  rewrite (IH _ Hlt (String (pretty_N_char (x `mod` 10)) "")).
  rewrite string_app_assoc. reflexivity.
Qed.

Lemma pretty_N_go_snoc x :
  (0 < x)%N ->
  pretty_N_go x "" = (pretty_N_go (x `div` 10) "" ++ String (pretty_N_char (x `mod` 10)) "")%string.
Proof. intros Hx. rewrite pretty_N_go_step by exact Hx. apply pretty_N_go_app. Qed.

Lemma pretty_N_char_digit d :
  (d < 10)%N -> is_digit (pretty_N_char d) = true /\ digit_val (pretty_N_char d) = Z.of_N d.
Proof.
  intros Hd.
  assert (d = 0 \/ d = 1 \/ d = 2 \/ d = 3 \/ d = 4 \/ d = 5 \/ d = 6 \/ d = 7 \/ d = 8 \/ d = 9)%N
    as H by lia.
  repeat (destruct H as [-> | H]; [split; reflexivity |]). subst d. split; reflexivity.
Qed.

Lemma all_chars_app p (a b : string) :
  all_chars p (a ++ b) = all_chars p a && all_chars p b.
Proof.
  induction a as [| c a IH]; [reflexivity |]. rewrite string_app_cons. cbn [all_chars].
  now rewrite IH, andb_assoc.
Qed.

Lemma digits_value_snoc a c : forall acc,
  digits_value_from acc (a ++ String c "") = 10 * digits_value_from acc a + digit_val c.
Proof.
  induction a as [| x a IH]; intros acc; [reflexivity |].
  rewrite string_app_cons. cbn [digits_value_from]. apply IH.
Qed.

Lemma pretty_N_go_digits x :
  all_chars is_digit (pretty_N_go x "") = true
  /\ digits_value (pretty_N_go x "") = Z.of_N x.
Proof.
  induction (N.lt_wf_0 x) as [x _ IH].
  destruct (N.eq_dec x 0%N) as [-> | Hx]; [split; reflexivity |].
  rewrite pretty_N_go_snoc by lia.
  destruct (IH (x `div` 10)%N) as [Hall Hval]; [apply N.div_lt; lia |].
  destruct (pretty_N_char_digit (x `mod` 10)%N) as [Hd Hv]; [apply N.mod_lt; lia |].
  split.
  - rewrite all_chars_app, Hall. cbn [all_chars andb]. now rewrite Hd.
  - unfold digits_value in *. rewrite digits_value_snoc, Hval, Hv.
    rewrite (N.div_mod x 10) at 3 by lia. lia.
Qed.

Lemma pretty_N_go_nonempty x : (0 < x)%N -> pretty_N_go x "" <> "".
Proof.
  intros Hx. rewrite pretty_N_go_snoc by exact Hx.
  destruct (pretty_N_go (x `div` 10) ""); discriminate.
Qed.

Lemma pretty_Z_pos z : 0 < z -> pretty z = pretty_N_go (Z.to_N z) "".
Proof. intros Hz. destruct z as [| p | p]; try lia. reflexivity. Qed.

(** The decimal numeral of a non-negative integer is a non-empty run of
    digits, and [parseInt] reads the integer back from it. *)
Lemma pretty_Z_digits z :
  0 <= z ->
  pretty z <> "" /\ all_chars is_digit (pretty z) = true /\ digits_value (pretty z) = z.
Proof.
  intros Hz. destruct (Z.eq_dec z 0) as [-> | Hne]; [repeat split; discriminate |].
  rewrite pretty_Z_pos by lia.
  destruct (pretty_N_go_digits (Z.to_N z)) as [Hall Hval].
  split; [apply pretty_N_go_nonempty; lia |]. split; [exact Hall |].
  rewrite Hval. lia.
Qed.

Lemma parseInt_digits d :
  d <> "" -> all_chars is_digit d = true ->
  parseInt d = to_double (inject_Z (digits_value d)).
Proof.
  intros Hne Hd. destruct d as [| c d]; [contradiction |].
  pose proof Hd as Hd'. simpl in Hd'. apply andb_true_iff in Hd' as [Hc _].
  unfold parseInt. rewrite (trim_start_digit _ _ Hc), (take_sign_digit _ _ Hc).
  now rewrite (span_digits_all _ Hd).
Qed.

Lemma parseInt_pretty z : 0 <= z -> parseInt (pretty z) = num_of_Z z.
Proof.
  intros Hz. destruct (pretty_Z_digits z Hz) as (Hne & Hall & Hval).
  rewrite (parseInt_digits _ Hne Hall), Hval. reflexivity.
Qed.

Lemma zeros_snoc n : zeros (S n) = (zeros n ++ "0")%string.
Proof.
  induction n as [| n IH]; [reflexivity |].
  change (String "0" (zeros (S n)) = String "0" (zeros n ++ "0"))%string. now f_equal.
Qed.

(** Multiplying by a power of ten appends zeros to the numeral. *)
Lemma pretty_trailing_zeros x j :
  0 < x -> pretty (x * 10 ^ Z.of_nat j) = (pretty x ++ zeros j)%string.
Proof.
  intros Hx. induction j as [| j IH].
  - simpl. rewrite Z.mul_1_r. generalize (pretty x). intros s.
    induction s as [| c s IHs]; [reflexivity | now rewrite string_app_cons, <- IHs].
  - rewrite Nat2Z.inj_succ, Z.pow_succ_r by lia.
    assert (Hpos : 0 < x * 10 ^ Z.of_nat j) by (apply Z.mul_pos_pos; [lia | apply Z.pow_pos_nonneg; lia]).
    rewrite zeros_snoc, <- string_app_assoc, <- IH.
    rewrite !pretty_Z_pos by lia.
    rewrite (pretty_N_go_snoc (Z.to_N (x * (10 * 10 ^ Z.of_nat j)))) by lia.
    replace (Z.to_N (x * (10 * 10 ^ Z.of_nat j)))
      with (10 * Z.to_N (x * 10 ^ Z.of_nat j))%N by lia.
    rewrite N.mul_comm, N.div_mul, N.Div0.mod_mul by lia. reflexivity.
Qed.

End Numerals.

Section Exactness.

Local Open Scope Z_scope.

Lemma pow2_nonneg e : 0 <= e -> pow2 e = inject_Z (2 ^ e).
Proof. intros H. unfold pow2. apply Z.leb_le in H. now rewrite H. Qed.

Lemma pow2_neg e : e < 0 -> pow2 e = (1 / inject_Z (2 ^ (- e)))%Q.
Proof. intros H. unfold pow2. apply Z.leb_gt in H. now rewrite H. Qed.

Lemma inject_Z_pos_nonzero z : 0 < z -> ~ (inject_Z z == 0)%Q.
Proof. intros Hz H. unfold Qeq in H. simpl in H. lia. Qed.

(** [q / 2^e] for an integer [q] and [e <= 0] is the integer [q * 2^(-e)]. *)
Lemma div_pow2_nonpos z e :
  e <= 0 -> (inject_Z z / pow2 e == inject_Z (z * 2 ^ (- e)))%Q.
Proof.
  intros He. rewrite inject_Z_mult.
  assert (Hp : 0 < 2 ^ (- e)) by (apply Z.pow_pos_nonneg; lia).
  pose proof (inject_Z_pos_nonzero _ Hp) as Hnz.
  destruct (Z.eq_dec e 0) as [-> | Hne].
  - rewrite pow2_nonneg by lia. change (2 ^ 0) with 1. change (2 ^ (- 0)) with 1.
    change (inject_Z 1) with 1%Q. field.
  - rewrite pow2_neg by lia. field. exact Hnz.
Qed.

Lemma mul_pow2_nonpos m e :
  e <= 0 -> (inject_Z (m * 2 ^ (- e)) * pow2 e == inject_Z m)%Q.
Proof.
  intros He. rewrite inject_Z_mult.
  assert (Hp : 0 < 2 ^ (- e)) by (apply Z.pow_pos_nonneg; lia).
  pose proof (inject_Z_pos_nonzero _ Hp) as Hnz.
  destruct (Z.eq_dec e 0) as [-> | Hne].
  - rewrite pow2_nonneg by lia. change (2 ^ 0) with 1. change (2 ^ (- 0)) with 1.
    change (inject_Z 1) with 1%Q. ring.
  - rewrite pow2_neg by lia. field. exact Hnz.
Qed.

Lemma round_half_even_integer q m : (q == inject_Z m)%Q -> round_half_even q = m.
Proof.
  intros Hq. unfold round_half_even.
  assert (Hf : Qfloor q = m) by (rewrite (Qfloor_comp _ _ Hq); apply Qfloor_Z).
  rewrite Hf.
  assert (Hr : (q - inject_Z m ?= 1 # 2)%Q = Lt).
  { apply Qlt_alt. rewrite Hq. unfold Qlt, Qminus, Qplus, Qopp, inject_Z.
    cbn [Qnum Qden]. unfold Qcompare. cbn [Qnum Qden]. apply Z.compare_lt_iff. lia. }
  now rewrite Hr.
Qed.

Lemma floor_log2_integer z : 0 < z -> floor_log2 z 1 = Z.log2 z.
Proof.
  intros Hz. unfold floor_log2. change (Z.log2 1) with 0. rewrite Z.sub_0_r.
  rewrite pow2_nonneg by apply Z.log2_nonneg.
  assert (H : Qle_bool (inject_Z (2 ^ Z.log2 z)) (z # Z.to_pos 1) = true).
  { apply Qle_bool_iff. unfold Qle. cbn [Qnum Qden inject_Z Z.to_pos].
    destruct (Z.log2_spec z Hz). lia. }
  now rewrite H.
Qed.

(** Every integer below 2^53 is a Number. *)
Lemma to_double_exact z : 0 <= z < 2 ^ 53 -> to_double (inject_Z z) = Fin (inject_Z z).
Proof.
  intros [Hlo Hhi]. destruct (Z.eq_dec z 0) as [-> | Hne]; [reflexivity |].
  assert (Hz : 0 < z) by lia.
  unfold to_double.
  assert (Hc : (inject_Z z ?= 0)%Q = Gt).
  { unfold Qcompare. cbn [Qnum Qden inject_Z]. apply Z.compare_gt_iff. lia. }
  rewrite Hc. unfold round_pos. cbn [Qnum Qden inject_Z].
  rewrite (floor_log2_integer z Hz).
  assert (Hl : 0 <= Z.log2 z <= 52).
  { split; [apply Z.log2_nonneg |].
    assert (Z.log2 z < 53) by (apply Z.log2_lt_pow2; lia). lia. }
  rewrite Z.max_l by lia.
  set (e := Z.log2 z - 52).
  assert (He : e <= 0) by (unfold e; lia).
  change (z # 1)%Q with (inject_Z z).
  rewrite (round_half_even_integer _ _ (div_pow2_nonpos z e He)).
  assert (Hv : Qred (inject_Z (z * 2 ^ (- e)) * pow2 e) = inject_Z z).
  { rewrite (Qred_complete _ _ (mul_pow2_nonpos z e He)). apply inject_Z_Qred. }
  rewrite Hv.
  assert (Hbig : Qle_bool (pow2 1024) (inject_Z z) = false).
  { apply not_true_is_false. intros H. apply Qle_bool_iff in H.
    rewrite pow2_nonneg in H by lia. unfold Qle in H. cbn [Qnum Qden inject_Z] in H.
    assert (2 ^ 53 < 2 ^ 1024) by (apply Z.pow_lt_mono_r; lia). lia. }
  now rewrite Hbig.
Qed.

Lemma num_of_Z_exact z : 0 <= z < 2 ^ 53 -> num_of_Z z = Fin (inject_Z z).
Proof. apply to_double_exact. Qed.

End Exactness.

Section Printing.

Local Open Scope Z_scope.

Lemma pow10_nonneg e : 0 <= e -> pow10 e = inject_Z (10 ^ e).
Proof. intros H. unfold pow10. apply Z.leb_le in H. now rewrite H. Qed.

Lemma Qmult_inject a b : Qmult (inject_Z a) (inject_Z b) = inject_Z (a * b).
Proof. reflexivity. Qed.

Lemma same_num_integers a b : same_num (Fin (inject_Z a)) (Fin (inject_Z b)) = (a =? b).
Proof.
  unfold same_num, Qeq_bool, inject_Z. cbn [Qnum Qden]. now rewrite !Z.mul_1_r.
Qed.

Lemma count_digits_zero fuel : count_digits fuel 0 = 0.
Proof. destruct fuel; reflexivity. Qed.

Lemma count_digits_spec fuel : forall z n,
  1 <= n -> 10 ^ (n - 1) <= z < 10 ^ n -> (Z.to_nat n <= fuel)%nat ->
  count_digits fuel z = n.
Proof.
  induction fuel as [| fuel IH]; intros z n Hn [Hlo Hhi] Hfuel; [lia |].
  assert (Hz : 0 < z).
  { assert (0 < 10 ^ (n - 1)) by (apply Z.pow_pos_nonneg; lia). lia. }
  cbn [count_digits]. destruct (Z.leb_spec z 0) as [? | _]; [lia |].
  destruct (Z.eq_dec n 1) as [-> | Hne].
  - change (10 ^ 1) with 10 in Hhi. rewrite Z.div_small by lia.
    now rewrite count_digits_zero.
  - rewrite (IH (z / 10) (n - 1)); [lia | lia | | lia].
    replace (10 ^ n) with (10 * 10 ^ (n - 1)) in Hhi
      by (rewrite <- Z.pow_succ_r by lia; f_equal; lia).
    replace (10 ^ (n - 1)) with (10 * 10 ^ (n - 1 - 1)) in Hlo at 1
      by (rewrite <- Z.pow_succ_r by lia; f_equal; lia).
    split.
    + apply Z.div_le_lower_bound; lia.
    + apply Z.div_lt_upper_bound; lia.
Qed.

Lemma num_digits_spec z n :
  1 <= n -> 10 ^ (n - 1) <= z < 10 ^ n -> num_digits z = n.
Proof.
  intros Hn [Hlo Hhi]. unfold num_digits. apply count_digits_spec; [exact Hn | now split |].
  assert (Hz : 0 < z).
  { assert (0 < 10 ^ (n - 1)) by (apply Z.pow_pos_nonneg; lia). lia. }
  assert (n - 1 <= Z.log2 z).
  { apply Z.log2_le_pow2; [exact Hz |].
    transitivity (10 ^ (n - 1)); [apply Z.pow_le_mono_l; lia | exact Hlo]. }
  lia.
Qed.

Lemma decimal_exponent_integer z n :
  1 <= n -> 10 ^ (n - 1) <= z < 10 ^ n -> decimal_exponent (inject_Z z) = n.
Proof.
  intros Hn Hz. unfold decimal_exponent.
  change (Qnum (inject_Z z)) with z. change (Zpos (Qden (inject_Z z))) with 1.
  rewrite (num_digits_spec z n Hn Hz). change (num_digits 1) with 1.
  rewrite pow10_nonneg by lia.
  assert (H : Qle_bool (inject_Z (10 ^ (n - 1))) (inject_Z z) = true).
  { apply Qle_bool_iff. unfold Qle. cbn [Qnum Qden inject_Z]. lia. }
  rewrite H. lia.
Qed.

Lemma pow10_split n k : 0 <= k <= n -> 10 ^ n = 10 ^ k * 10 ^ (n - k).
Proof. intros H. rewrite <- Z.pow_add_r by lia. f_equal. lia. Qed.

Lemma pow10_below_2_53 n : 0 <= n <= 15 -> 10 ^ n < 2 ^ 53.
Proof.
  intros H. assert (10 ^ n <= 10 ^ 15) by (apply Z.pow_le_mono_r; lia).
  assert (10 ^ 15 < 2 ^ 53) by reflexivity. lia.
Qed.

(** The numerals of [k] digits that denote an integer of [n >= k] digits:
    the integer itself, when it ends in [n - k] zeros. *)
Lemma numerals_integer z n k :
  1 <= k <= n -> n <= 15 -> 10 ^ (n - 1) <= z < 10 ^ n ->
  numerals (inject_Z z) n k
  = if z mod 10 ^ (n - k) =? 0 then Some (z / 10 ^ (n - k), n) else None.
Proof.
  intros Hk Hn [Hlo Hhi].
  set (P := 10 ^ (n - k)).
  assert (HP : 0 < P) by (apply Z.pow_pos_nonneg; lia).
  assert (Hz : 0 < z).
  { assert (0 < 10 ^ (n - 1)) by (apply Z.pow_pos_nonneg; lia). lia. }
  assert (Hn53 : 10 ^ n < 2 ^ 53) by (apply pow10_below_2_53; lia).
  assert (Hsplit : 10 ^ n = 10 ^ k * P) by (apply pow10_split; lia).
  assert (Hsplit' : 10 ^ (n - 1) = 10 ^ (k - 1) * P).
  { unfold P. rewrite <- Z.pow_add_r by lia. f_equal. lia. }
  assert (Hk0 : 0 < 10 ^ (k - 1)) by (apply Z.pow_pos_nonneg; lia).
  assert (Hk10 : 10 ^ k = 10 * 10 ^ (k - 1)).
  { rewrite <- Z.pow_succ_r by lia. f_equal. lia. }
  set (lo := z / P).
  assert (Hlo1 : 10 ^ (k - 1) <= lo).
  { apply Z.div_le_lower_bound; [exact HP |]. rewrite Z.mul_comm, <- Hsplit'. exact Hlo. }
  assert (Hlo2 : lo < 10 ^ k).
  { apply Z.div_lt_upper_bound; [exact HP |]. rewrite Z.mul_comm, <- Hsplit. exact Hhi. }
  assert (Hdm : z = P * lo + z mod P) by (apply Z.div_mod; lia).
  assert (Hmod : 0 <= z mod P < P) by (apply Z.mod_pos_bound; exact HP).
  unfold numerals. rewrite pow10_nonneg by lia. fold P.
  rewrite <- Zdiv_Qdiv. fold lo.
  assert (Hc1 : candidate k lo n = (lo, n)).
  { unfold candidate. destruct (Z.eqb_spec lo (10 ^ k)); [lia | reflexivity]. }
  rewrite Hc1.
  assert (Hd1 : denotes (inject_Z z) k (lo, n) = (z mod P =? 0)).
  { unfold denotes. rewrite pow10_nonneg by lia. fold P.
    rewrite Qmult_inject, to_double_exact by nia.
    rewrite same_num_integers.
    destruct (Z.leb_spec (10 ^ (k - 1)) lo) as [_ | ?]; [| lia]. cbn [andb].
    destruct (Z.eqb_spec (lo * P) z), (Z.eqb_spec (z mod P) 0); try reflexivity; lia. }
  assert (Hd2 : denotes (inject_Z z) k (candidate k (lo + 1) n) = false).
  { unfold candidate. destruct (Z.eqb_spec (lo + 1) (10 ^ k)) as [Heq | Hneq].
    - unfold denotes. rewrite pow10_nonneg by lia.
      rewrite Qmult_inject.
      replace (10 ^ (k - 1) * 10 ^ (n + 1 - k)) with (10 ^ n)
        by (rewrite <- Z.pow_add_r by lia; f_equal; lia).
      rewrite to_double_exact by (split; [apply Z.pow_nonneg; lia | exact Hn53]).
      rewrite same_num_integers.
      destruct (Z.eqb_spec (10 ^ n) z); [lia |]. apply andb_false_r.
    - unfold denotes. rewrite pow10_nonneg by lia. fold P.
      rewrite Qmult_inject, to_double_exact by nia.
      rewrite same_num_integers.
      destruct (Z.eqb_spec ((lo + 1) * P) z); [nia |]. apply andb_false_r. }
  rewrite Hd1, Hd2. now destruct (z mod P =? 0).
Qed.

Lemma trailing_zeros_minimal s0 a d :
  s0 mod 10 <> 0 -> 0 <= a -> 1 <= d -> (s0 * 10 ^ a) mod 10 ^ (a + d) <> 0.
Proof.
  intros Hs Ha Hd H.
  assert (Hpa : 0 < 10 ^ a) by (apply Z.pow_pos_nonneg; lia).
  assert (Hpd : 0 < 10 ^ (a + d)) by (apply Z.pow_pos_nonneg; lia).
  apply Z.mod_divide in H; [| lia]. destruct H as [q Hq].
  replace (10 ^ (a + d)) with (10 * 10 ^ (d - 1) * 10 ^ a) in Hq.
  2: { rewrite <- Z.pow_succ_r by lia. rewrite <- Z.pow_add_r by lia. f_equal. lia. }
  assert (Hs0 : s0 = q * 10 ^ (d - 1) * 10) by nia.
  apply Hs. rewrite Hs0. apply Z.mod_mul. lia.
Qed.

Lemma shortest_from_integer z n k0 s0 :
  1 <= k0 <= n -> n <= 15 ->
  z = s0 * 10 ^ (n - k0) ->
  10 ^ (k0 - 1) <= s0 < 10 ^ k0 ->
  s0 mod 10 <> 0 ->
  forall fuel k,
    1 <= k <= k0 -> (Z.to_nat (k0 - k) < fuel)%nat ->
    shortest_from fuel (inject_Z z) n k = (k0, s0, n).
Proof.
  intros Hk0 Hn Hz [Hs1 Hs2] Hs.
  assert (HP : 0 < 10 ^ (n - k0)) by (apply Z.pow_pos_nonneg; lia).
  assert (Hrange : 10 ^ (n - 1) <= z < 10 ^ n).
  { rewrite (pow10_split n k0) by lia.
    replace (10 ^ (n - 1)) with (10 ^ (k0 - 1) * 10 ^ (n - k0))
      by (rewrite <- Z.pow_add_r by lia; f_equal; lia).
    subst z. nia. }
  induction fuel as [| fuel IH]; intros k Hk Hfuel; [lia |].
  cbn [shortest_from]. rewrite (numerals_integer z n k) by (try exact Hrange; lia).
  destruct (Z.eq_dec k k0) as [-> | Hne].
  - subst z. rewrite Z.mod_mul by lia. rewrite Z.div_mul by lia. reflexivity.
  - assert (Hnz : z mod 10 ^ (n - k) <> 0).
    { subst z. replace (n - k) with (n - k0 + (k0 - k)) by lia.
      apply trailing_zeros_minimal; [exact Hs | lia | lia]. }
    destruct (Z.eqb_spec (z mod 10 ^ (n - k)) 0); [contradiction |].
    apply IH; lia.
Qed.

Lemma digits_exist z : 0 < z -> exists n, 1 <= n /\ 10 ^ (n - 1) <= z < 10 ^ n.
Proof.
  intros Hz. pattern z. revert Hz. pattern z.
  apply (well_founded_induction (Z.lt_wf 0)). clear z. intros z IH Hz.
  destruct (Z_lt_le_dec z 10) as [Hsmall | Hbig].
  - exists 1. change (10 ^ (1 - 1)) with 1. change (10 ^ 1) with 10. lia.
  - destruct (IH (z / 10)) as (n & Hn & Hlo & Hhi).
    + split; [apply Z.div_pos; lia | apply Z.div_lt; lia].
    + apply Z.div_str_pos. lia.
    + exists (n + 1). split; [lia |].
      assert (E1 : 10 ^ (n + 1 - 1) = 10 * 10 ^ (n - 1)).
      { rewrite <- Z.pow_succ_r by lia. f_equal. lia. }
      assert (E2 : 10 ^ (n + 1) = 10 * 10 ^ n).
      { rewrite <- Z.pow_succ_r by lia. f_equal. }
      rewrite E1, E2.
      pose proof (Z.div_mod z 10 ltac:(lia)). pose proof (Z.mod_pos_bound z 10 ltac:(lia)).
      split; lia.
Qed.

Lemma significand_exists z :
  0 < z ->
  exists n k0 s0,
    1 <= k0 <= n /\ z = s0 * 10 ^ (n - k0) /\ 10 ^ (k0 - 1) <= s0 < 10 ^ k0 /\ s0 mod 10 <> 0.
Proof.
  pattern z. apply (well_founded_induction (Z.lt_wf 0)). clear z. intros z IH Hz.
  destruct (Z.eq_dec (z mod 10) 0) as [Hdiv | Hnot].
  - assert (Hz10 : z = 10 * (z / 10)).
    { pose proof (Z.div_mod z 10 ltac:(lia)). lia. }
    destruct (IH (z / 10)) as (n & k0 & s0 & Hk & Heq & Hs & Hs0); [lia | lia |].
    exists (n + 1), k0, s0. split; [lia |]. split; [| split; assumption].
    replace (n + 1 - k0) with (Z.succ (n - k0)) by lia.
    rewrite Z.pow_succ_r by lia. lia.
  - destruct (digits_exist z Hz) as (n & Hn & Hrange).
    exists n, n, z. rewrite Z.sub_diag. change (10 ^ 0) with 1.
    repeat split; try lia; exact Hnot.
Qed.

(** A positive integer below 10^15 is printed as its decimal numeral. *)
Lemma Number_toString_integer z :
  0 <= z < 10 ^ 15 -> Number_toString (Fin (inject_Z z)) = pretty z.
Proof.
  intros [Hlo Hhi]. destruct (Z.eq_dec z 0) as [-> | Hne]; [reflexivity |].
  assert (Hz : 0 < z) by lia.
  destruct (significand_exists z Hz) as (n & k0 & s0 & Hk & Heq & Hs & Hs0).
  assert (HP : 0 < 10 ^ (n - k0)) by (apply Z.pow_pos_nonneg; lia).
  assert (Hrange : 10 ^ (n - 1) <= z < 10 ^ n).
  { rewrite (pow10_split n k0) by lia.
    replace (10 ^ (n - 1)) with (10 ^ (k0 - 1) * 10 ^ (n - k0))
      by (rewrite <- Z.pow_add_r by lia; f_equal; lia).
    nia. }
  assert (Hn : n <= 15).
  { destruct (Z_le_gt_dec n 15) as [? | Hgt]; [assumption |].
    assert (10 ^ 15 <= 10 ^ (n - 1)) by (apply Z.pow_le_mono_r; lia). lia. }
  unfold Number_toString.
  assert (Hc : (inject_Z z ?= 0)%Q = Gt).
  { unfold Qcompare. cbn [Qnum Qden inject_Z]. apply Z.compare_gt_iff. lia. }
  rewrite Hc. unfold shortest.
  rewrite (decimal_exponent_integer z n) by (try exact Hrange; lia).
  rewrite (shortest_from_integer z n k0 s0 Hk Hn Heq Hs Hs0 17 1) by lia.
  unfold layout.
  destruct (Z.leb_spec k0 n) as [_ | ?]; [| lia].
  destruct (Z.leb_spec n 21) as [_ | ?]; [| lia]. cbn [andb].
  assert (0 < s0).
  { assert (0 < 10 ^ (k0 - 1)) by (apply Z.pow_pos_nonneg; lia). lia. }
  rewrite <- pretty_trailing_zeros by lia.
  rewrite Z2Nat.id by lia. now rewrite <- Heq.
Qed.

(** Printing a non-negative integer below 10^15 and reading it back. *)
Lemma integer_round_trip z :
  0 <= z < 10 ^ 15 ->
  num_of_Z z = Fin (inject_Z z)
  /\ Number_toString (num_of_Z z) = pretty z
  /\ parseInt (Number_toString (num_of_Z z)) = Fin (inject_Z z).
Proof.
  intros Hz.
  assert (H53 : 0 <= z < 2 ^ 53).
  { assert (10 ^ 15 < 2 ^ 53) by reflexivity. lia. }
  pose proof (num_of_Z_exact z H53) as He.
  split; [exact He |]. rewrite He, (Number_toString_integer z Hz).
  split; [reflexivity |]. rewrite parseInt_pretty by lia. exact He.
Qed.

End Printing.

Section PageNumbers.

Local Open Scope Z_scope.

Lemma pretty_nat_Z n : pretty (Z.of_nat (S n)) = pretty (S n).
Proof. reflexivity. Qed.

Lemma all_chars_impl (p q : ascii -> bool) s :
  (forall c, p c = true -> q c = true) -> all_chars p s = true -> all_chars q s = true.
Proof.
  intros Hpq. induction s as [| c s IH]; [reflexivity |]. cbn [all_chars].
  intros [Hc Hs]%andb_true_iff. now rewrite (Hpq c Hc), (IH Hs).
Qed.

Lemma digit_unreserved c : is_digit c = true -> unreserved c = true.
Proof. intros H. unfold unreserved. rewrite H. now rewrite orb_true_r. Qed.

Lemma encode_numeral z : 0 <= z -> encodeURIComponent (pretty z) = pretty z.
Proof.
  intros Hz. apply encodeURIComponent_unreserved.
  destruct (pretty_Z_digits z Hz) as (_ & Hall & _).
  exact (all_chars_impl _ _ _ digit_unreserved Hall).
Qed.

Lemma pred_num_integer z :
  1 <= z < 2 ^ 53 -> pred_num (Fin (inject_Z z)) = Fin (inject_Z (z - 1)).
Proof.
  intros Hz. unfold pred_num, Qminus, Qplus, Qopp, inject_Z. cbn [Qnum Qden Pos.mul].
  replace (z * 1 + - (1) * 1) with (z - 1) by ring.
  apply (to_double_exact (z - 1)). lia.
Qed.

Lemma max0_integer z : 0 <= z -> max0 (Fin (inject_Z z)) = Fin (inject_Z z).
Proof.
  intros Hz. unfold max0. destruct (Qle_bool (inject_Z z) 0) eqn:E; [| reflexivity].
  apply Qle_bool_iff in E. unfold Qle in E. cbn [Qnum Qden inject_Z] in E.
  assert (z = 0) as -> by lia. reflexivity.
Qed.

(** The page the packaged reader asks for, for the 1-based index
    [pageIndex]. *)
Lemma page_of_index pageIndex :
  1 <= pageIndex < 10 ^ 15 ->
  parseInt (Number_toString (num_of_Z pageIndex)) = Fin (inject_Z pageIndex)
  /\ max0 (pred_num (Fin (inject_Z pageIndex))) = num_of_Z (pageIndex - 1)
  /\ parseInt (Number_toString (num_of_Z (pageIndex - 1))) = Fin (inject_Z (pageIndex - 1))
  /\ max0 (Fin (inject_Z (pageIndex - 1))) = num_of_Z (pageIndex - 1)
  /\ Number_toString (num_of_Z (pageIndex - 1)) = pretty (pageIndex - 1).
Proof.
  intros Hp.
  assert (H53 : 10 ^ 15 < 2 ^ 53) by reflexivity.
  destruct (integer_round_trip pageIndex) as (_ & _ & H1); [lia |].
  destruct (integer_round_trip (pageIndex - 1)) as (H2 & H3 & H4); [lia |].
  split; [exact H1 |].
  split; [rewrite pred_num_integer, max0_integer by lia; symmetry; exact H2 |].
  split; [exact H4 |].
  split; [rewrite max0_integer by lia; symmetry; exact H2 | exact H3].
Qed.

Variable env : Env.
Variables accountId scriptId deployId : string.
Variable JSON_parse : string -> Json + string.

Lemma axios_get_requests url t :
  requests (snd (Netsuite.axios_get env url t)) = (requests t ++ [url])%list.
Proof.
  unfold Netsuite.axios_get. destruct (http_get env t url); cbn [snd]; apply requests_snoc.
Qed.

Lemma catch_rethrow_requests {A} (c : M Trace A) (h : Error -> Error) t :
  requests (snd (try_catch c (fun e => throw (h e)) t)) = requests (snd (c t)).
Proof. unfold try_catch. now destruct (c t) as [[a | e |] t']. Qed.

Lemma bind_quiet_requests {A B} (c : M Trace A) (k : A -> M Trace B) t :
  (forall a, keeps requests (k a)) ->
  requests (snd (bind c k t)) = requests (snd (c t)).
Proof.
  intros Hk. unfold bind. destruct (c t) as [[a | e |] t']; [apply Hk | reflexivity | reflexivity].
Qed.

Lemma lambda_fetch_requests sid page q t :
  sid <> "" ->
  parseInt (Number_toString page) = Fin q ->
  requests (snd (NetsuiteLambda.fetchSavedSearch env accountId scriptId deployId sid page t))
  = (requests t ++ [NetsuiteLambda.request_url accountId scriptId deployId sid (max0 (Fin q))])%list.
Proof.
  intros Hsid Hpage. unfold NetsuiteLambda.fetchSavedSearch.
  destruct (String.eqb_spec sid "") as [-> | _]; [contradiction |].
  rewrite Hpage.
  match goal with
  | |- requests (snd (try_catch ?c ?h t)) = _ =>
      assert (Hh : forall e, keeps requests (h e)) by (intros e; quiet);
      assert (Hc : requests (snd (c t))
                   = (requests t ++ [NetsuiteLambda.request_url accountId scriptId deployId sid
                                       (max0 (Fin q))])%list)
  end.
  { rewrite bind_quiet_requests by (intros a; quiet). apply axios_get_requests. }
  unfold try_catch.
  match goal with
  | H : requests (snd (?c t)) = _ |- _ => destruct (c t) as [[a | e |] t']
  end; cbn [snd] in Hc |- *; [exact Hc | | exact Hc].
  rewrite (Hh e t'). exact Hc.
Qed.

Lemma src_fetch_requests sid page t :
  requests (snd (Netsuite.fetchSavedSearch env accountId scriptId deployId sid page t))
  = (requests t ++ [Netsuite.request_url accountId scriptId deployId sid page])%list.
Proof.
  unfold Netsuite.fetchSavedSearch.
  match goal with
  | |- requests (snd (try_catch ?c ?h t)) = _ =>
      assert (Hh : forall e, keeps requests (h e)) by (intros e; quiet);
      assert (Hc : requests (snd (c t))
                   = (requests t ++ [Netsuite.request_url accountId scriptId deployId sid page])%list)
  end.
  { rewrite bind_quiet_requests by (intros a; quiet). apply axios_get_requests. }
  unfold try_catch.
  match goal with
  | H : requests (snd (?c t)) = _ |- _ => destruct (c t) as [[a | e |] t']
  end; cbn [snd] in Hc |- *; [exact Hc | | exact Hc].
  rewrite (Hh e t'). exact Hc.
Qed.

Lemma lambda_page_requests sid pageIndex t :
  sid <> "" ->
  1 <= pageIndex < 10 ^ 15 ->
  requests (snd (NetsuiteLambda.fetchSavedSearchPage env accountId scriptId deployId JSON_parse
                   sid pageIndex t))
  = (requests t ++ [NetsuiteLambda.request_url accountId scriptId deployId sid
                      (num_of_Z (pageIndex - 1))])%list.
Proof.
  intros Hsid Hp. destruct (page_of_index pageIndex Hp) as (H1 & H2 & H3 & H4 & _).
  unfold NetsuiteLambda.fetchSavedSearchPage.
  destruct (String.eqb_spec sid "") as [-> | _]; [contradiction |].
  rewrite H1, H2.
  match goal with
  | |- requests (snd (try_catch ?c ?h t)) = _ =>
      assert (Hh : forall e, keeps requests (h e)) by (intros e; quiet);
      assert (Hc : requests (snd (c t))
                   = (requests t ++ [NetsuiteLambda.request_url accountId scriptId deployId sid
                                       (num_of_Z (pageIndex - 1))])%list)
  end.
  { rewrite bind_quiet_requests.
    - rewrite (lambda_fetch_requests sid _ _ t Hsid H3). now rewrite H4.
    - intros a. apply keeps_bind; [apply lambda_parse_keeps | intros ?; apply keeps_ret]. }
  unfold try_catch.
  match goal with
  | H : requests (snd (?c t)) = _ |- _ => destruct (c t) as [[a | e |] t']
  end; cbn [snd] in Hc |- *; [exact Hc | | exact Hc].
  rewrite (Hh e t'). exact Hc.
Qed.

Lemma src_page_requests sid pageIndex t :
  requests (snd (Netsuite.fetchSavedSearchPage env accountId scriptId deployId JSON_parse
                   sid pageIndex t))
  = (requests t ++ [Netsuite.request_url accountId scriptId deployId sid (pageIndex - 1)])%list.
Proof.
  unfold Netsuite.fetchSavedSearchPage.
  rewrite (catch_rethrow_requests _ (fun e => e)).
  rewrite bind_quiet_requests.
  - apply src_fetch_requests.
  - intros a. apply keeps_bind; [apply src_parse_keeps | intros ?; apply keeps_ret].
Qed.

End PageNumbers.

(* ===================================================================== *)
(** * Further properties: the paginated path *)
(* ===================================================================== *)

Section PaginatedPath.

Local Open Scope Z_scope.

Variable env : Env.
Variable settings : Package.Settings.
Variable mappings : list Mapping.
Variable JSON_parse : string -> Json + string.

Local Abbreviation accountId := (Package.NS_ACCOUNT_ID settings).
Local Abbreviation scriptId := (Package.NS_SCRIPT_ID settings).
Local Abbreviation deployId := (Package.NS_DEPLOY_ID settings).

Lemma steps_snoc t e :
  steps (t ++ [e])%list
  = (steps t ++ match e with
                | HttpGet url _ => [Requested url]
                | StoreUpsert table chunk c _ => [Wrote table (length chunk) c]
                | _ => []
                end)%list.
Proof. unfold steps. rewrite omap_app. now destruct e. Qed.

Lemma normalize_length now table rows :
  length (processRecordsForTable now table rows) = length rows.
Proof.
  unfold processRecordsForTable.
  repeat match goal with
         | |- context [String.eqb table ?t] => destruct (String.eqb table t)
         end; apply length_imap.
Qed.

Lemma chunks_from_lengths {A B} (l : list A) (l' : list B) turns : forall i,
  length l = length l' ->
  map length (chunks_from turns i l) = map length (chunks_from turns i l').
Proof.
  induction turns as [| turns IH]; intros i Hlen; [reflexivity |].
  cbn [chunks_from]. rewrite <- Hlen.
  destruct (i <? length l)%nat; [| reflexivity].
  cbn [map]. rewrite (IH _ Hlen). f_equal.
  unfold slice. rewrite !length_take, !length_drop, Hlen. reflexivity.
Qed.

Lemma chunks_lengths {A B} (l : list A) (l' : list B) :
  length l = length l' -> map length (chunks l) = map length (chunks l').
Proof. intros Hlen. unfold chunks. rewrite <- Hlen. now apply chunks_from_lengths. Qed.

Lemma lambda_chunks_steps table c cs : forall results t,
  store_accepts env ->
  exists res t',
    SupabaseLambda.upsert_chunks env table c cs results t = (Value res, t')
    /\ steps t' = (steps t ++ map (fun chunk => Wrote table (length chunk) c) cs)%list.
Proof.
  induction cs as [| chunk rest IH]; intros results t Hok.
  - exists results, t. split; [reflexivity |]. cbn [map]. now rewrite app_nil_r.
  - cbn [SupabaseLambda.upsert_chunks]. unfold bind at 1.
    unfold SupabaseLambda.client_upsert, Supabase.client_upsert.
    pose proof (Hok t table chunk c) as Hnf.
    destruct (store_upsert env t table chunk c) as [a | e] eqn:Hreply; cbn [failed] in Hnf;
      [| exfalso; now apply Hnf].
    destruct (a_error a) eqn:Ha; [exfalso; apply Hnf; congruence |].
    destruct (IH (results ++ default [] (a_data a))%list
                 (t ++ [StoreUpsert table chunk c (Answered a)])%list Hok)
      as (res & t' & Hrun & Hsteps).
    exists res, t'. split; [exact Hrun |].
    rewrite Hsteps, steps_snoc. cbn [map]. now rewrite <- app_assoc.
Qed.

Lemma lambda_upsert_steps table column rows t :
  store_accepts env ->
  table_name_re table = true ->
  conflict_column_re column = true ->
  rows <> [] ->
  exists res t',
    SupabaseLambda.upsert env (VStr table) (Array rows) (VStr column) t = (Value res, t')
    /\ steps t' = (steps t ++ map (fun chunk => Wrote table (length chunk) (VStr column))
                                (chunks rows))%list.
Proof.
  intros Hok Ht Hc Hne. destruct rows as [| row rows]; [contradiction |].
  rewrite (lambda_upsert_loop env) by assumption.
  destruct (lambda_chunks_steps table (VStr column) (chunks (row :: rows)) [] t Hok)
    as (res & t' & Hrun & Hsteps).
  rewrite Hrun. eauto.
Qed.

Lemma lambda_page_value sid pageIndex t status p :
  sid <> "" ->
  1 <= pageIndex < 10 ^ 15 ->
  http_get env t (NetsuiteLambda.request_url accountId scriptId deployId sid
                    (num_of_Z (pageIndex - 1)))
  = Resolved status (JObject p) ->
  well_formed p ->
  NetsuiteLambda.fetchSavedSearchPage env accountId scriptId deployId JSON_parse sid pageIndex t
  = (Value (page_rows p, VBool (truthy (p_hasMore p))),
     (t ++ [HttpGet (NetsuiteLambda.request_url accountId scriptId deployId sid
                       (num_of_Z (pageIndex - 1)))
              (Resolved status (JObject p))])%list).
Proof.
  intros Hsid Hp Hget [Herr [rows Hdata]].
  destruct (page_of_index pageIndex Hp) as (H1 & H2 & H3 & H4 & _).
  unfold NetsuiteLambda.fetchSavedSearchPage.
  destruct (String.eqb_spec sid "") as [-> | Hne]; [contradiction |].
  rewrite H1, H2. unfold try_catch at 1. unfold bind at 1.
  unfold NetsuiteLambda.fetchSavedSearch.
  destruct (String.eqb_spec sid "") as [-> | _]; [contradiction |].
  rewrite H3, H4. unfold try_catch, bind at 1, Netsuite.axios_get. rewrite Hget.
  cbn [snd Netsuite.json_truthy negb Netsuite.json_error]. rewrite Herr.
  unfold ret at 1. unfold bind at 1. unfold NetsuiteLambda.parseNetSuiteResponse.
  cbn [Netsuite.json_truthy negb]. unfold bind, ret. rewrite Hdata.
  cbn [Netsuite.data Netsuite.hasMore]. unfold page_rows. rewrite Hdata.
  unfold or_else. cbn [truthy]. now destruct (truthy (p_hasMore p)).
Qed.

Lemma paginated_table_valid table :
  requiresPagination table = true ->
  table_name_re table = true /\ conflictKey_page table = VStr "pkey".
Proof.
  intros H. apply bool_decide_eq_true_1 in H. unfold PAGINATED_TABLES in H.
  rewrite !elem_of_union, !elem_of_singleton in H.
  destruct H as [[-> | ->] | ->]; split; reflexivity.
Qed.

Variable fuel0 : nat.

Local Abbreviation ns := (Package.netsuiteClient env settings mappings JSON_parse fuel0).
Local Abbreviation sb := (Package.supabaseClient env).

Lemma page_step m p fuel pageIndex total (s : Manager Trace) status :
  requiresPagination (table m) = true ->
  searchId m <> "" ->
  store_accepts env ->
  well_formed p ->
  1 <= pageIndex < 10 ^ 15 ->
  http_get env (world s) (page_url settings m (pageIndex - 1)) = Resolved status (JObject p) ->
  page_loop ns sb (Date_now env) (S fuel) m pageIndex total s
  = (if truthy (p_hasMore p)
     then page_loop ns sb (Date_now env) fuel m (pageIndex + 1) (total + length (page_rows p))%nat
     else ret (total + length (page_rows p))%nat)
      {| syncStats := syncStats s;
         world := page_written env (table m) (world s) (page_url settings m (pageIndex - 1))
                    status p |}
  /\ steps (page_written env (table m) (world s) (page_url settings m (pageIndex - 1)) status p)
     = (steps (world s) ++ page_steps (page_url settings m (pageIndex - 1)) (table m) p)%list.
Proof.
  intros Hp Hsid Hok Hwfp Hrange Hget.
  destruct (paginated_table_valid _ Hp) as [Hname Hkey].
  unfold page_url in *.
  assert (Hfetch := lambda_page_value (searchId m) pageIndex (world s) status p Hsid
                      Hrange Hget Hwfp).
  cbn [page_loop]. unfold bind at 1. unfold call at 1.
  cbn [fetchSavedSearchPage Package.netsuiteClient]. rewrite Hfetch.
  set (url := NetsuiteLambda.request_url accountId scriptId deployId (searchId m)
                (num_of_Z (pageIndex - 1))) in *.
  set (t1 := (world s ++ [HttpGet url (Resolved status (JObject p))])%list) in *.
  assert (Hwritten :
    exists t2,
      page_written env (table m) (world s) url status p = t2
      /\ steps t2 = (steps (world s) ++ page_steps url (table m) p)%list
      /\ (match page_rows p with
          | _ :: _ =>
              processedRecords <- normalize (Date_now env) (table m) (page_rows p) ;;
              call (upsert sb (table m) (Array processedRecords) (conflictKey_page (table m))) ;;;
              ret (total + length processedRecords)%nat
          | [] => ret total
          end) {| syncStats := syncStats s; world := t1 |}
         = (Value (total + length (page_rows p))%nat, {| syncStats := syncStats s; world := t2 |})).
  { unfold page_written. fold t1. unfold page_steps.
    destruct (page_rows p) as [| row rows] eqn:Hrows.
    - exists t1. split; [reflexivity |]. split.
      + unfold t1. rewrite steps_snoc. reflexivity.
      + unfold ret. cbn [length]. now rewrite Nat.add_0_r.
    - set (processed := processRecordsForTable (Date_now env t1) (table m) (row :: rows)).
      assert (Hlen : length processed = length (row :: rows)) by apply normalize_length.
      assert (Hne : processed <> []).
      { intros E. rewrite E in Hlen. discriminate Hlen. }
      destruct (lambda_upsert_steps (table m) "pkey" processed t1 Hok Hname eq_refl Hne)
        as (res & t2 & Hrun & Hsteps).
      exists t2. split; [now rewrite Hrun |]. split.
      + rewrite Hsteps. unfold t1. rewrite steps_snoc, <- app_assoc. cbn [app].
        do 2 f_equal.
        rewrite <- (map_map length (fun n => Wrote (table m) n (VStr "pkey"))).
        rewrite <- (map_map length (fun n => Wrote (table m) n (VStr "pkey")) (chunks (row :: rows))).
        f_equal. now apply chunks_lengths.
      + unfold bind at 1. unfold normalize, gets. cbn [world]. fold processed.
        unfold bind, call. cbn [world syncStats upsert Package.supabaseClient].
        rewrite Hkey, Hrun. unfold ret. now rewrite Hlen. }
  destruct Hwritten as (t2 & Hpw & Hsteps2 & Hbody).
  unfold bind at 1. fold t1. rewrite Hbody, Hpw. cbn [truthy].
  split; [reflexivity | exact Hsteps2].
Qed.

(** The loop, unrolled over pages that all announce a further page. *)
Lemma page_loop_unrolls m pages : forall fuel pageIndex total (s : Manager Trace) tk,
  requiresPagination (table m) = true ->
  searchId m <> "" ->
  store_accepts env ->
  Forall well_formed pages ->
  Forall (fun p => truthy (p_hasMore p) = true) pages ->
  1 <= pageIndex ->
  pageIndex + Z.of_nat (length pages) <= 10 ^ 15 ->
  written_pages env (page_url settings m) (table m) (world s) (pageIndex - 1) pages tk ->
  page_loop ns sb (Date_now env) (length pages + fuel) m pageIndex total s
  = page_loop ns sb (Date_now env) fuel m (pageIndex + Z.of_nat (length pages))
      (total + length (concat (map page_rows pages)))%nat
      {| syncStats := syncStats s; world := tk |}
  /\ steps tk
     = (steps (world s) ++ pages_steps (page_url settings m) (table m) (pageIndex - 1) pages)%list.
Proof.
  induction pages as [| p rest IH];
    intros fuel pageIndex total s tk Hp Hsid Hok Hwf Hmore Hge Hbound Hwritten.
  - cbn [written_pages] in Hwritten. subst tk. cbn [length map concat pages_steps plus].
    rewrite Z.add_0_r, Nat.add_0_r, app_nil_r. destruct s. split; reflexivity.
  - apply Forall_cons in Hwf as [Hwfp Hwf]. apply Forall_cons in Hmore as [Hm Hmore].
    destruct Hwritten as (status & Hget & Hwritten).
    change (length (p :: rest)) with (S (length rest)) in *.
    destruct (page_step m p (length rest + fuel) pageIndex total s status Hp Hsid Hok Hwfp
                ltac:(lia) Hget) as [Hstep Hsteps].
    change (S (length rest) + fuel)%nat with (S (length rest + fuel)).
    rewrite Hstep, Hm.
    destruct (IH fuel (pageIndex + 1) (total + length (page_rows p))%nat
                 {| syncStats := syncStats s;
                    world := page_written env (table m) (world s)
                               (page_url settings m (pageIndex - 1)) status p |} tk
                 Hp Hsid Hok Hwf Hmore ltac:(lia) ltac:(lia)) as [Hrun Hsteps'].
    { cbn [world]. replace (pageIndex + 1 - 1) with (pageIndex - 1 + 1) by lia. exact Hwritten. }
    rewrite Hrun. cbn [syncStats world] in Hsteps' |- *. split.
    + replace (concat (map page_rows (p :: rest)))
        with (page_rows p ++ concat (map page_rows rest))%list by reflexivity.
      rewrite length_app, Nat.add_assoc. f_equal. lia.
    + rewrite Hsteps', Hsteps, <- app_assoc. cbn [pages_steps].
      replace (pageIndex + 1 - 1) with (pageIndex - 1 + 1) by lia. reflexivity.
Qed.

Lemma page_loop_ends_at_last m pages : forall fuel pageIndex total (s : Manager Trace) t',
  requiresPagination (table m) = true ->
  searchId m <> "" ->
  store_accepts env ->
  Forall well_formed pages ->
  ends_at_last pages ->
  1 <= pageIndex ->
  pageIndex + Z.of_nat (length pages) <= 10 ^ 15 ->
  written_pages env (page_url settings m) (table m) (world s) (pageIndex - 1) pages t' ->
  (length pages <= fuel)%nat ->
  page_loop ns sb (Date_now env) fuel m pageIndex total s
  = (Value (total + length (concat (map page_rows pages)))%nat,
     {| syncStats := syncStats s; world := t' |})
  /\ steps t'
     = (steps (world s) ++ pages_steps (page_url settings m) (table m) (pageIndex - 1) pages)%list.
Proof.
  induction pages as [| p rest IH];
    intros fuel pageIndex total s t' Hp Hsid Hok Hwf Hend Hge Hbound Hwritten Hfuel;
    [contradiction |].
  destruct fuel as [| fuel]; [cbn [length] in Hfuel; lia |].
  apply Forall_cons in Hwf as [Hwfp Hwf].
  destruct Hwritten as (status & Hget & Hwritten).
  change (length (p :: rest)) with (S (length rest)) in *.
  destruct (page_step m p fuel pageIndex total s status Hp Hsid Hok Hwfp ltac:(lia) Hget)
    as [Hstep Hsteps].
  rewrite Hstep.
  destruct rest as [| p' rest'].
  - cbn [ends_at_last] in Hend. rewrite Hend. cbn [written_pages] in Hwritten. subst t'.
    unfold ret. split.
    + cbn [map concat]. now rewrite app_nil_r.
    + rewrite Hsteps. cbn [pages_steps]. now rewrite app_nil_r.
  - destruct Hend as [Hmore Hend]. rewrite Hmore.
    destruct (IH fuel (pageIndex + 1) (total + length (page_rows p))%nat
                 {| syncStats := syncStats s;
                    world := page_written env (table m) (world s)
                               (page_url settings m (pageIndex - 1)) status p |} t'
                 Hp Hsid Hok Hwf Hend ltac:(lia) ltac:(lia)) as [Hrun Hsteps'].
    { cbn [world]. replace (pageIndex + 1 - 1) with (pageIndex - 1 + 1) by lia. exact Hwritten. }
    { lia. }
    rewrite Hrun. cbn [syncStats world] in Hsteps' |- *. split.
    + replace (concat (map page_rows (p :: p' :: rest')))
        with (page_rows p ++ concat (map page_rows (p' :: rest')))%list by reflexivity.
      rewrite length_app, Nat.add_assoc. reflexivity.
    + rewrite Hsteps', Hsteps, <- app_assoc. cbn [pages_steps].
      replace (pageIndex + 1 - 1) with (pageIndex - 1 + 1) by lia. reflexivity.
Qed.

Lemma lambda_count_value table t :
  table_name_re table = true ->
  count_answered env t table ->
  exists n, getRecordCount sb table t = (Value n, counted env t table).
Proof.
  intros Hname (a & Hreply & Ha). cbn [getRecordCount Package.supabaseClient].
  unfold SupabaseLambda.getRecordCount. cbn [SupabaseLambda._isValidTableName].
  rewrite Hname. cbn [negb String_].
  unfold try_catch, bind, SupabaseLambda.client_count, Supabase.client_count, counted.
  rewrite Hreply, Ha. unfold ret. eauto.
Qed.

Lemma steps_counted t table : steps (counted env t table) = steps t.
Proof. unfold counted. rewrite steps_snoc. apply app_nil_r. Qed.

Lemma catch_rethrows {A} (c : M Trace A) (h : Error -> M Trace A) t e1 t1 :
  c t = (Thrown e1, t1) ->
  (forall e, exists e', h e = throw e') ->
  exists e', try_catch c h t = (Thrown e', t1).
Proof.
  intros Hc Hh. unfold try_catch. rewrite Hc. destruct (Hh e1) as [e' ->]. now exists e'.
Qed.

Lemma lambda_page_rejected sid pageIndex t e0 :
  sid <> "" ->
  1 <= pageIndex < 10 ^ 15 ->
  http_get env t (NetsuiteLambda.request_url accountId scriptId deployId sid
                    (num_of_Z (pageIndex - 1))) = Rejected e0 ->
  exists e,
    NetsuiteLambda.fetchSavedSearchPage env accountId scriptId deployId JSON_parse sid pageIndex t
    = (Thrown e,
       (t ++ [HttpGet (NetsuiteLambda.request_url accountId scriptId deployId sid
                         (num_of_Z (pageIndex - 1))) (Rejected e0)])%list).
Proof.
  intros Hsid Hp Hget.
  destruct (page_of_index pageIndex Hp) as (H1 & H2 & H3 & H4 & _).
  assert (Hfetch : exists e1,
    NetsuiteLambda.fetchSavedSearch env accountId scriptId deployId sid
      (num_of_Z (pageIndex - 1)) t
    = (Thrown e1,
       (t ++ [HttpGet (NetsuiteLambda.request_url accountId scriptId deployId sid
                         (num_of_Z (pageIndex - 1))) (Rejected e0)])%list)).
  { unfold NetsuiteLambda.fetchSavedSearch.
    destruct (String.eqb_spec sid "") as [-> | _]; [contradiction |].
    rewrite H3, H4. apply (catch_rethrows _ _ t e0).
    - unfold bind, Netsuite.axios_get. now rewrite Hget.
    - intros e. destruct (response e) as [r |]; [| destruct (request e)];
        repeat match goal with
               | |- context [if ?b then _ else _] => destruct b
               end; eexists; reflexivity. }
  destruct Hfetch as [e1 Hfetch].
  unfold NetsuiteLambda.fetchSavedSearchPage.
  destruct (String.eqb_spec sid "") as [-> | Hne]; [contradiction |].
  rewrite H1, H2. apply (catch_rethrows _ _ t e1).
  - unfold bind at 1. now rewrite Hfetch.
  - intros e. repeat match goal with
                     | |- context [if ?b then _ else _] => destruct b
                     end; eexists; reflexivity.
Qed.

End PaginatedPath.

(** X18. On the paginated path of the packaged program each page is
    written before the next one is requested.  For a detail table, when
    the remote serves well-formed pages that announce more on all but the
    last and the store accepts every write, [syncMapping] returns true and
    leaves the statistics as they were; and what the remote and the store
    see of it is, in this order: the request for page 0, one upsert per
    chunk of its rows under the conflict key "pkey", the request for page
    1, its upserts, and so on to the last page. *)
Theorem paginated_mapping_writes_page_by_page :
  forall env settings mappings JSON_parse fuel0 fuel m pages (s : Manager Trace) t',
    requiresPagination (table m) = true ->
    searchId m <> "" ->
    store_accepts env ->
    Forall well_formed pages ->
    ends_at_last pages ->
    (Z.of_nat (length pages) < 10 ^ 15)%Z ->
    (length pages <= fuel)%nat ->
    count_answered env (world s) (table m) ->
    written_pages env (page_url settings m) (table m) (counted env (world s) (table m))
      0 pages t' ->
    count_answered env t' (table m) ->
    syncMapping (Package.netsuiteClient env settings mappings JSON_parse fuel0)
      (Package.supabaseClient env) (Date_now env) fuel m s
    = (Value true, {| syncStats := syncStats s; world := counted env t' (table m) |})
    /\ steps (counted env t' (table m))
       = (steps (world s) ++ pages_steps (page_url settings m) (table m) 0 pages)%list.
Proof.
  intros env settings mappings JSON_parse fuel0 fuel m pages s t'
         Hp Hsid Hok Hwf Hend Hbound Hfuel Hc1 Hwritten Hc2.
  destruct (paginated_table_valid _ Hp) as [Hname _].
  destruct (lambda_count_value env (table m) (world s) Hname Hc1) as (n1 & Hn1).
  destruct (lambda_count_value env (table m) t' Hname Hc2) as (n2 & Hn2).
  destruct (page_loop_ends_at_last env settings mappings JSON_parse fuel0 m pages fuel 1 0%nat
              {| syncStats := syncStats s; world := counted env (world s) (table m) |} t'
              Hp Hsid Hok Hwf Hend ltac:(lia) ltac:(lia) Hwritten Hfuel) as [Hloop Hsteps].
  split.
  - unfold syncMapping, syncMapping_try. rewrite Hp.
    unfold try_catch at 1. unfold syncMappingWithPagination, try_catch at 1.
    unfold syncMappingWithPagination_try.
    unfold bind at 1. unfold call at 1. rewrite Hn1.
    unfold bind at 1. rewrite Hloop.
    unfold bind at 1. unfold call at 1. cbn [world syncStats]. rewrite Hn2.
    reflexivity.
  - rewrite steps_counted, Hsteps. cbn [world]. now rewrite steps_counted.
Qed.

Lemma paginated_mapping_writes_page_by_page_witness :
  exists t',
    syncMapping
      (Package.netsuiteClient Sample.three_pages Sample.settings [Cases.detail_mapping]
         Sample.not_json 1)
      (Package.supabaseClient Sample.three_pages) (Date_now Sample.three_pages) 3
      Cases.detail_mapping (mkManager constructor [])
    = (Value true, {| syncStats := constructor; world := t' |})
    /\ steps t'
       = [ Requested (page_url Sample.settings Cases.detail_mapping 0);
           Wrote "invoices_detailed" 1 (VStr "pkey");
           Requested (page_url Sample.settings Cases.detail_mapping 1);
           Wrote "invoices_detailed" 1 (VStr "pkey");
           Requested (page_url Sample.settings Cases.detail_mapping 2);
           Wrote "invoices_detailed" 1 (VStr "pkey") ].
Proof.
  pose (env := Sample.three_pages).
  pose (url := page_url Sample.settings Cases.detail_mapping).
  pose (p0 := Cases.line_page 10 true).
  pose (p1 := Cases.line_page 11 true).
  pose (p2 := Cases.line_page 12 false).
  pose (t0 := counted env [] "invoices_detailed").
  pose (t1 := page_written env "invoices_detailed" t0 (url 0%Z) 200 p0).
  pose (t2 := page_written env "invoices_detailed" t1 (url 1%Z) 200 p1).
  pose (t3 := page_written env "invoices_detailed" t2 (url 2%Z) 200 p2).
  assert (Hwritten : written_pages env url "invoices_detailed" t0 0 [p0; p1; p2] t3).
  { cbv beta iota delta [written_pages].
    exists 200%Z. split; [vm_compute; reflexivity |].
    exists 200%Z. split; [vm_compute; reflexivity |].
    exists 200%Z. split; [vm_compute; reflexivity | reflexivity]. }
  destruct (paginated_mapping_writes_page_by_page env Sample.settings [Cases.detail_mapping]
              Sample.not_json 1 3 Cases.detail_mapping [p0; p1; p2]
              (mkManager constructor []) t3) as [Hrun Hsteps].
  - vm_compute. reflexivity.
  - discriminate.
  - apply sample_store_accepts.
  - repeat constructor; eexists; reflexivity.
  - repeat split.
  - reflexivity.
  - cbn [length]. lia.
  - eexists. split; reflexivity.
  - exact Hwritten.
  - eexists. split; reflexivity.
  - exists (counted env t3 "invoices_detailed"). split; [exact Hrun |].
    etransitivity; [exact Hsteps | vm_compute; reflexivity].
Defined.

(** X19. A page that fails does not undo the pages before it: when the
    remote rejects the request that follows k pages served and written,
    [syncMapping] returns false with one new entry "Failed to sync <name>
    to <table> during pagination", and the writes of the k earlier pages
    have all been issued, followed by the rejected request and by nothing
    else. *)
Theorem failing_page_keeps_earlier_pages :
  forall env settings mappings JSON_parse fuel0 fuel m pages (s : Manager Trace) tk e0,
    requiresPagination (table m) = true ->
    searchId m <> "" ->
    store_accepts env ->
    Forall well_formed pages ->
    Forall (fun p => truthy (p_hasMore p) = true) pages ->
    (Z.of_nat (length pages) + 1 < 10 ^ 15)%Z ->
    (length pages < fuel)%nat ->
    count_answered env (world s) (table m) ->
    written_pages env (page_url settings m) (table m) (counted env (world s) (table m))
      0 pages tk ->
    http_get env tk (page_url settings m (Z.of_nat (length pages))) = Rejected e0 ->
    exists entry s',
      syncMapping (Package.netsuiteClient env settings mappings JSON_parse fuel0)
        (Package.supabaseClient env) (Date_now env) fuel m s
      = (Value false, s')
      /\ syncStats s' = tally (syncStats s) 0 0 [entry]
      /\ entry_message entry
         = "Failed to sync " ++ name m ++ " to " ++ table m ++ " during pagination"
      /\ steps (world s')
         = (steps (world s)
            ++ pages_steps (page_url settings m) (table m) 0 pages
            ++ [Requested (page_url settings m (Z.of_nat (length pages)))])%list.
Proof.
  intros env settings mappings JSON_parse fuel0 fuel m pages s tk e0
         Hp Hsid Hok Hwf Hmore Hbound Hfuel Hc1 Hwritten Hget.
  destruct (paginated_table_valid _ Hp) as [Hname _].
  destruct (lambda_count_value env (table m) (world s) Hname Hc1) as (n1 & Hn1).
  destruct (page_loop_unrolls env settings mappings JSON_parse fuel0 m pages
              (fuel - length pages) 1 0%nat
              {| syncStats := syncStats s; world := counted env (world s) (table m) |} tk
              Hp Hsid Hok Hwf Hmore ltac:(lia) ltac:(lia) Hwritten) as [Hunroll Hsteps].
  replace (length pages + (fuel - length pages))%nat with fuel in Hunroll by lia.
  destruct (fuel - length pages)%nat as [| fuel'] eqn:Hrest; [lia |].
  destruct (lambda_page_rejected env settings JSON_parse (searchId m)
              (1 + Z.of_nat (length pages)) tk e0 Hsid ltac:(lia)) as (e & Hfetch).
  { replace (1 + Z.of_nat (length pages) - 1)%Z with (Z.of_nat (length pages)) by lia.
    exact Hget. }
  replace (1 + Z.of_nat (length pages) - 1)%Z with (Z.of_nat (length pages)) in Hfetch by lia.
  assert (Htry :
    syncMappingWithPagination_try (Package.netsuiteClient env settings mappings JSON_parse fuel0)
      (Package.supabaseClient env) (Date_now env) fuel m s
    = (Thrown e,
       {| syncStats := syncStats s;
          world := (tk ++ [HttpGet (page_url settings m (Z.of_nat (length pages)))
                             (Rejected e0)])%list |})).
  { unfold syncMappingWithPagination_try.
    unfold bind at 1. unfold call at 1. rewrite Hn1.
    unfold bind at 1. rewrite Hunroll.
    cbn [page_loop]. unfold bind at 1. unfold call at 1.
    cbn [world syncStats fetchSavedSearchPage Package.netsuiteClient].
    unfold page_url. rewrite Hfetch. reflexivity. }
  rewrite (syncMapping_catches_page _ _ _ fuel m s _ _ Hp Htry).
  do 2 eexists. split; [reflexivity |]. split; [reflexivity |]. split; [reflexivity |].
  cbn [world with_stats]. rewrite steps_snoc, Hsteps. cbn [world].
  rewrite steps_counted, <- app_assoc. reflexivity.
Qed.

Lemma failing_page_keeps_earlier_pages_witness :
  exists entry s',
    syncMapping
      (Package.netsuiteClient Cases.third_page_down Sample.settings [Cases.detail_mapping]
         Sample.not_json 1)
      (Package.supabaseClient Cases.third_page_down) (Date_now Cases.third_page_down) 5
      Cases.detail_mapping (mkManager constructor [])
    = (Value false, s')
    /\ syncStats s' = tally constructor 0 0 [entry]
    /\ entry_message entry = "Failed to sync Invoice lines to invoices_detailed during pagination"
    /\ steps (world s')
       = [ Requested (page_url Sample.settings Cases.detail_mapping 0);
           Wrote "invoices_detailed" 1 (VStr "pkey");
           Requested (page_url Sample.settings Cases.detail_mapping 1);
           Wrote "invoices_detailed" 1 (VStr "pkey");
           Requested (page_url Sample.settings Cases.detail_mapping 2) ].
Proof.
  pose (env := Cases.third_page_down).
  pose (url := page_url Sample.settings Cases.detail_mapping).
  pose (p0 := Cases.line_page 10 true).
  pose (p1 := Cases.line_page 11 true).
  pose (t0 := counted env [] "invoices_detailed").
  pose (t1 := page_written env "invoices_detailed" t0 (url 0%Z) 200 p0).
  pose (t2 := page_written env "invoices_detailed" t1 (url 1%Z) 200 p1).
  assert (Hwritten : written_pages env url "invoices_detailed" t0 0 [p0; p1] t2).
  { cbv beta iota delta [written_pages].
    exists 200%Z. split; [vm_compute; reflexivity |].
    exists 200%Z. split; [vm_compute; reflexivity | reflexivity]. }
  destruct (failing_page_keeps_earlier_pages env Sample.settings [Cases.detail_mapping]
              Sample.not_json 1 5 Cases.detail_mapping [p0; p1]
              (mkManager constructor []) t2 Cases.server_error)
    as (entry & s' & Hrun & Hstats & Hmsg & Hsteps).
  - vm_compute. reflexivity.
  - discriminate.
  - intros t table chunk c H. now apply H.
  - repeat constructor; eexists; reflexivity.
  - repeat constructor.
  - reflexivity.
  - cbn [length]. lia.
  - eexists. split; reflexivity.
  - exact Hwritten.
  - vm_compute. reflexivity.
  - exists entry, s'. split; [exact Hrun |]. split; [exact Hstats |]. split; [exact Hmsg |].
    etransitivity; [exact Hsteps | vm_compute; reflexivity].
Defined.

(* ===================================================================== *)
(** * Further properties: decimal keys and page numbers *)
(* ===================================================================== *)

Lemma num_of_nat_Z n : num_of_nat n = num_of_Z (Z.of_nat n).
Proof. reflexivity. Qed.

Lemma String_VNum n : String_ (VNum n) = Number_toString n.
Proof. reflexivity. Qed.

Lemma succ_index_decimal index :
  (Z.of_nat index + 1 < 10 ^ 15)%Z ->
  succ_index index = VNum (Fin (inject_Z (Z.of_nat (S index))))
  /\ String_ (succ_index index) = pretty (S index).
Proof.
  intros Hi.
  assert (Hz : (0 <= Z.of_nat (S index) < 10 ^ 15)%Z) by lia.
  destruct (integer_round_trip _ Hz) as (H1 & H2 & _).
  unfold succ_index. rewrite num_of_nat_Z. split.
  - now rewrite H1.
  - rewrite String_VNum, H2. apply pretty_nat_Z.
Qed.

Lemma parseId_numeral id :
  (0 < id < 10 ^ 15)%Z ->
  parseId (VStr (pretty id)) = VNum (Fin (inject_Z id))
  /\ String_ (parseId (VStr (pretty id))) = pretty id.
Proof.
  intros Hid.
  destruct (pretty_Z_digits id) as (Hne & _); [lia |].
  destruct (integer_round_trip id) as (H1 & H2 & _); [lia |].
  assert (Hp : parseId (VStr (pretty id)) = VNum (Fin (inject_Z id))).
  { unfold parseId. cbn [truthy String_].
    destruct (String.eqb_spec (pretty id) "") as [E | _]; [contradiction |]. cbn [negb].
    rewrite parseInt_pretty by lia. rewrite H1. unfold or_else. cbn [truthy num_truthy].
    assert (Hq : Qeq_bool (inject_Z id) 0 = false).
    { unfold Qeq_bool, inject_Z. cbn [Qnum Qden]. apply Z.eqb_neq. lia. }
    now rewrite Hq. }
  split; [exact Hp |]. rewrite Hp. cbn [String_]. now rewrite <- H1, H2.
Qed.

(** X20. The synthesized key of a detail row is made of decimal
    numerals.  At index i, with i + 1 below 10^15, a row without usable
    [pkey] and [line_id] whose parent identifier is the numeral of a
    positive integer id below 10^15 gets the key "<id>_<i + 1>", and a row
    without parent identifier the key "<i + 1>_<i + 1>": the parent 90017
    at index 1234 gives "90017_1235". *)
Theorem synthetic_key_is_decimal :
  forall now table column rawRecords index record,
    In (table, column) detail_tables ->
    rawRecords !! index = Some record ->
    (Z.of_nat index + 1 < 10 ^ 15)%Z ->
    supplies record "pkey" = false ->
    supplies record "line_id" = false ->
    exists row,
      processRecordsForTable now table rawRecords !! index = Some row
      /\ (supplies record column = false ->
          get row "pkey" = VStr (pretty (S index) ++ "_" ++ pretty (S index)))
      /\ (forall id,
            (0 < id < 10 ^ 15)%Z ->
            get record column = VStr (pretty id) ->
            get row "pkey" = VStr (pretty id ++ "_" ++ pretty (S index))).
Proof.
  intros now table column rawRecords index record Hin Hrec Hi Hpkey Hline.
  destruct (detail_pkey_field now _ _ _ _ _ Hin Hrec) as (row & Hrow & Hget).
  destruct (succ_index_decimal index Hi) as [_ Hprint].
  exists row. split; [exact Hrow |].
  assert (Hkey : get row "pkey"
                 = VStr (String_ (or_else (parseId (get record column)) (succ_index index))
                         ++ "_" ++ String_ (succ_index index))).
  { rewrite Hget, (parseId_falsy _ Hpkey). unfold or_else at 1. cbn [truthy].
    unfold synthetic_pkey. rewrite (parseId_falsy _ Hline).
    unfold or_else at 2. reflexivity. }
  split.
  - intros Hnone. rewrite Hkey, (parseId_falsy _ Hnone). unfold or_else. cbn [truthy].
    now rewrite Hprint.
  - intros id Hid Hval. rewrite Hkey, Hval.
    destruct (parseId_numeral id Hid) as [Hp Hs].
    unfold or_else. rewrite Hp at 1. cbn [truthy num_truthy].
    assert (Hq : Qeq_bool (inject_Z id) 0 = false).
    { unfold Qeq_bool, inject_Z. cbn [Qnum Qden]. apply Z.eqb_neq. lia. }
    rewrite Hq. cbn [negb]. now rewrite Hs, Hprint.
Qed.

Lemma synthetic_key_is_decimal_witness :
  exists row,
    processRecordsForTable (fun _ => "2024-05-01T06:00:00.000Z") "sales_orders_detailed"
      (replicate 1234 ∅ ++ [ {[ "sales_order_internal_id" := VStr "90017" ]} ]) !! 1234%nat
    = Some row
    /\ get row "pkey" = VStr "90017_1235".
Proof.
  destruct (synthetic_key_is_decimal (fun _ => "2024-05-01T06:00:00.000Z")
              "sales_orders_detailed" "sales_order_internal_id"
              (replicate 1234 ∅ ++ [ {[ "sales_order_internal_id" := VStr "90017" ]} ])
              1234%nat {[ "sales_order_internal_id" := VStr "90017" ]})
    as (row & Hrow & _ & Hkey).
  - simpl. tauto.
  - vm_compute. reflexivity.
  - vm_compute. reflexivity.
  - vm_compute. reflexivity.
  - vm_compute. reflexivity.
  - exists row. split; [exact Hrow |].
    assert (Hv : get ({[ "sales_order_internal_id" := VStr "90017" ]} : Obj)
                   "sales_order_internal_id" = VStr (pretty 90017%Z))
      by (vm_compute; reflexivity).
    rewrite (Hkey 90017%Z ltac:(lia) Hv). vm_compute. reflexivity.
Defined.

(** X21. [fetchSavedSearchPage] takes a 1-based page index and requests
    the 0-based page before it.  For an index from 1 to 10^15 - 1 either
    reader issues exactly one request, whatever the remote answers, and
    its url ends in "&page=" followed by the decimal numeral of the index
    less one; the packaged reader percent-encodes the script, deployment
    and search identifiers, the first reader inserts them as they are. *)
Theorem page_requests_are_zero_based :
  forall env accountId scriptId deployId JSON_parse sid pageIndex t,
    sid <> "" ->
    (1 <= pageIndex < 10 ^ 15)%Z ->
    requests (snd (NetsuiteLambda.fetchSavedSearchPage env accountId scriptId deployId JSON_parse
                     sid pageIndex t))
    = (requests t ++ [NetsuiteLambda.request_url accountId scriptId deployId sid
                        (num_of_Z (pageIndex - 1))])%list
    /\ NetsuiteLambda.request_url accountId scriptId deployId sid (num_of_Z (pageIndex - 1))
       = Netsuite.baseUrl accountId ++ "?script=" ++ encodeURIComponent scriptId
         ++ "&deploy=" ++ encodeURIComponent deployId
         ++ "&searchId=" ++ encodeURIComponent sid
         ++ "&page=" ++ pretty (pageIndex - 1)%Z
    /\ requests (snd (Netsuite.fetchSavedSearchPage env accountId scriptId deployId JSON_parse
                        sid pageIndex t))
       = (requests t ++ [Netsuite.request_url accountId scriptId deployId sid (pageIndex - 1)])%list
    /\ Netsuite.request_url accountId scriptId deployId sid (pageIndex - 1)
       = Netsuite.baseUrl accountId ++ "?script=" ++ scriptId ++ "&deploy=" ++ deployId
         ++ "&searchId=" ++ sid ++ "&page=" ++ pretty (pageIndex - 1)%Z.
Proof.
  intros env accountId scriptId deployId JSON_parse sid pageIndex t Hsid Hp.
  destruct (integer_round_trip (pageIndex - 1)) as (H1 & H2 & _); [lia |].
  split; [now apply lambda_page_requests |]. split.
  - unfold NetsuiteLambda.request_url, NetsuiteLambda.baseUrl.
    rewrite H2, encode_numeral by lia. reflexivity.
  - split; [apply src_page_requests |].
    unfold Netsuite.request_url. unfold num_of_Z in H2. now rewrite H2.
Qed.

Lemma page_requests_are_zero_based_witness :
  requests (snd (NetsuiteLambda.fetchSavedSearchPage Sample.three_pages "1234567" "77" "1"
                   Sample.not_json "2019" 3 []))
  = [ "https://1234567.restlets.api.netsuite.com/app/site/hosting/restlet.nl?script=77&deploy=1&searchId=2019&page=2" ].
Proof.
  destruct (page_requests_are_zero_based Sample.three_pages "1234567" "77" "1" Sample.not_json
              "2019" 3 []) as (Hreq & Hurl & _).
  - discriminate.
  - lia.
  - rewrite Hreq, Hurl. vm_compute. reflexivity.
Defined.

(* ===================================================================== *)
(** * The synthesized key, read off the raw row *)
(* ===================================================================== *)

Section SyntheticKey.

Local Open Scope Z_scope.

Lemma parseInt_leading text id :
  leading_integer text = Some id -> parseInt text = num_of_Z id.
Proof.
  unfold leading_integer. destruct text as [| c r]; [discriminate |].
  cbn [span_digits]. destruct (is_digit c) eqn:Hc; [| discriminate].
  intros H. unfold parseInt. rewrite (trim_start_digit _ _ Hc), (take_sign_digit _ _ Hc).
  cbn [span_digits]. rewrite Hc.
  destruct (span_digits r) as [d t]. cbn [fst] in H. now injection H as <-.
Qed.

Lemma leading_integer_nonempty text id : leading_integer text = Some id -> text <> "".
Proof. now intros H ->. Qed.

Lemma truthy_integer id : 0 < id -> num_truthy (Fin (inject_Z id)) = true.
Proof.
  intros Hid. cbn [num_truthy]. destruct (Qeq_bool (inject_Z id) 0) eqn:E; [| reflexivity].
  apply Qeq_bool_iff in E. unfold Qeq in E. cbn [Qnum Qden inject_Z] in E. lia.
Qed.

(** [parseId] on a text that starts with a positive integer. *)
Lemma parseId_leading text id :
  leading_integer text = Some id -> 0 < id < 10 ^ 15 ->
  parseId (VStr text) = VNum (Fin (inject_Z id)).
Proof.
  intros Hlead Hid. unfold parseId. cbn [truthy String_].
  destruct (String.eqb_spec text "") as [-> | _]; [discriminate Hlead |]. cbn [negb].
  rewrite (parseInt_leading _ _ Hlead).
  destruct (integer_round_trip id) as (-> & _); [lia |].
  unfold or_else. cbn [truthy]. now rewrite truthy_integer by lia.
Qed.

(** [parseId] on a Number that is a positive integer. *)
Lemma parseId_integer id :
  0 < id < 10 ^ 15 -> parseId (VNum (Fin (inject_Z id))) = VNum (Fin (inject_Z id)).
Proof.
  intros Hid. unfold parseId. cbn [truthy]. rewrite truthy_integer by lia. cbn [negb].
  rewrite String_VNum, Number_toString_integer by lia.
  rewrite parseInt_pretty by lia.
  destruct (integer_round_trip id) as (-> & _); [lia |].
  unfold or_else. cbn [truthy]. now rewrite truthy_integer by lia.
Qed.

(** [parseId] reads nothing where [parseInt] reads no number or zero. *)
Lemma parseId_unreadable v :
  num_truthy (parseInt (String_ v)) = false -> parseId v = VNull.
Proof.
  intros H. unfold parseId. destruct (truthy v); [| reflexivity]. cbn [negb].
  unfold or_else. cbn [truthy]. now rewrite H.
Qed.

Lemma parseId_readable v :
  truthy v = true -> num_truthy (parseInt (String_ v)) = true ->
  parseId v = VNum (parseInt (String_ v)).
Proof.
  intros Hv H. unfold parseId. rewrite Hv. cbn [negb].
  unfold or_else. cbn [truthy]. now rewrite H.
Qed.

(** The key of a detail row without [pkey] and [line_id], by what
    [parseId] makes of the parent identifier. *)
Lemma synthetic_key_by_parent now table column rawRecords index record :
  In (table, column) detail_tables ->
  rawRecords !! index = Some record ->
  supplies record "pkey" = false ->
  supplies record "line_id" = false ->
  (Z.of_nat index + 1 < 10 ^ 15)%Z ->
  exists row,
    processRecordsForTable now table rawRecords !! index = Some row
    /\ (parseId (get record column) = VNull ->
        get row "pkey" = VStr (pretty (S index) ++ "_" ++ pretty (S index)))
    /\ (forall n, parseId (get record column) = VNum n -> num_truthy n = true ->
        get row "pkey" = VStr (Number_toString n ++ "_" ++ pretty (S index))).
Proof.
  intros Hin Hrec Hpkey Hline Hi.
  destruct (detail_pkey_field now _ _ _ _ _ Hin Hrec) as (row & Hrow & Hget).
  destruct (succ_index_decimal index Hi) as [_ Hsucc].
  exists row. split; [exact Hrow |].
  assert (Hkey : get row "pkey"
                 = VStr (String_ (or_else (parseId (get record column)) (succ_index index))
                         ++ "_" ++ pretty (S index))).
  { rewrite Hget, (parseId_falsy _ Hpkey). unfold or_else at 1. cbn [truthy].
    unfold synthetic_pkey. rewrite (parseId_falsy _ Hline).
    unfold or_else at 2. cbn [truthy]. now rewrite Hsucc. }
  split.
  - intros Hnull. rewrite Hkey, Hnull. unfold or_else. cbn [truthy]. now rewrite Hsucc.
  - intros n Hn Ht. rewrite Hkey, Hn. unfold or_else. cbn [truthy]. rewrite Ht.
    now rewrite String_VNum.
Qed.

End SyntheticKey.

(** C6 as the specification words it does not hold: the parent internal
    id is read again by [parseId], so that "007" gives the record-id
    component 7, and an id that does not start with an integer, or that
    reads zero, is replaced by [index + 1] although the row supplies it. *)
Lemma C6_parent_id_is_read_again :
  (exists row,
     processRecordsForTable (fun _ => "2024-05-01T06:00:00.000Z") "invoices_detailed"
       [ ∅; ∅; ∅; ∅; {[ "invoice_internal_id" := VStr "007" ]} ] !! 4%nat = Some row
     /\ get row "pkey" = VStr "7_5")
  /\ (exists row,
        processRecordsForTable (fun _ => "2024-05-01T06:00:00.000Z") "invoices_detailed"
          [ ∅; ∅; ∅; ∅; {[ "invoice_internal_id" := VStr "abc" ]} ] !! 4%nat = Some row
        /\ get row "pkey" = VStr "5_5")
  /\ (exists row,
        processRecordsForTable (fun _ => "2024-05-01T06:00:00.000Z") "invoices_detailed"
          [ ∅; ∅; ∅; ∅; {[ "invoice_internal_id" := VStr "0" ]} ] !! 4%nat = Some row
        /\ get row "pkey" = VStr "5_5")
  /\ ~ synthetic_key_as_worded.
Proof.
  split; [| split; [| split]].
  - eexists. split; [reflexivity |]. vm_compute. reflexivity.
  - eexists. split; [reflexivity |]. vm_compute. reflexivity.
  - eexists. split; [reflexivity |]. vm_compute. reflexivity.
  - intros H.
    assert (Hin : In ("invoices_detailed", "invoice_internal_id") detail_tables)
      by (simpl; tauto).
    assert (Hpkey : supplies {[ "invoice_internal_id" := VStr "abc" ]} "pkey" = false)
      by (vm_compute; reflexivity).
    assert (Hline : supplies {[ "invoice_internal_id" := VStr "abc" ]} "line_id" = false)
      by (vm_compute; reflexivity).
    destruct (H (fun _ => "2024-05-01T06:00:00.000Z") "invoices_detailed" "invoice_internal_id"
                [ ∅; ∅; ∅; ∅; {[ "invoice_internal_id" := VStr "abc" ]} ] 4%nat
                {[ "invoice_internal_id" := VStr "abc" ]} Hin eq_refl Hpkey Hline)
      as (row & Hrow & Hget).
    set (r := processRecordsForTable _ _ _ !! 4%nat) in Hrow.
    assert (Er : (r ≫= fun row => Some (get row "pkey")) = Some (VStr "5_5"))
      by (vm_compute; reflexivity).
    rewrite Hrow in Er. simpl in Er. injection Er as Er.
    assert (Ew : VStr (String_ (or_else (get ({[ "invoice_internal_id" := VStr "abc" ]} : Obj)
                                           "invoice_internal_id") (succ_index 4))
                       ++ "_" ++ String_ (succ_index 4)) = VStr "abc_5")
      by (vm_compute; reflexivity).
    rewrite Ew in Hget. rewrite Hget in Er. discriminate Er.
Qed.

(** C6 (amended). In a detail table, a raw row that supplies neither
    [pkey] nor [line_id] gets the key "<record id>_<index + 1>", both in
    decimal.  The record id is the integer [parseInt] reads off the parent
    identifier: the value of its leading digits when it is a text ("007"
    gives 7), the number itself when it is a positive integer; it is
    [index + 1] again when the parent identifier is absent, does not start
    with an integer, or reads zero.  At index 4 with parent id 55 the key
    is "55_5". *)
Theorem C6_detail_synthetic_pkey :
  forall now table column rawRecords index record,
    In (table, column) detail_tables ->
    rawRecords !! index = Some record ->
    supplies record "pkey" = false ->
    supplies record "line_id" = false ->
    (Z.of_nat index + 1 < 10 ^ 15)%Z ->
    exists row,
      processRecordsForTable now table rawRecords !! index = Some row
      /\ (supplies record column = false ->
          get row "pkey" = VStr (pretty (S index) ++ "_" ++ pretty (S index)))
      /\ (num_truthy (parseInt (String_ (get record column))) = false ->
          get row "pkey" = VStr (pretty (S index) ++ "_" ++ pretty (S index)))
      /\ (supplies record column = true ->
          num_truthy (parseInt (String_ (get record column))) = true ->
          get row "pkey"
          = VStr (Number_toString (parseInt (String_ (get record column)))
                  ++ "_" ++ pretty (S index)))
      /\ (forall text id,
            get record column = VStr text ->
            leading_integer text = Some id ->
            (0 < id < 10 ^ 15)%Z ->
            get row "pkey" = VStr (pretty id ++ "_" ++ pretty (S index)))
      /\ (forall id,
            get record column = VNum (Fin (inject_Z id)) ->
            (0 < id < 10 ^ 15)%Z ->
            get row "pkey" = VStr (pretty id ++ "_" ++ pretty (S index)))
      /\ (index = 4%nat -> get record column = VStr "55" -> get row "pkey" = VStr "55_5").
Proof.
  intros now table column rawRecords index record Hin Hrec Hpkey Hline Hi.
  destruct (synthetic_key_by_parent now _ _ _ _ _ Hin Hrec Hpkey Hline Hi)
    as (row & Hrow & Hnull & Hnum).
  exists row. split; [exact Hrow |].
  assert (Hint : forall id, (0 < id < 10 ^ 15)%Z ->
                 parseId (get record column) = VNum (Fin (inject_Z id)) ->
                 get row "pkey" = VStr (pretty id ++ "_" ++ pretty (S index))).
  { intros id Hid Hp. rewrite (Hnum _ Hp) by (apply truthy_integer; lia).
    now rewrite Number_toString_integer by lia. }
  split; [| split; [| split; [| split; [| split]]]].
  - intros Hs. apply Hnull, parseId_falsy, Hs.
  - intros Hn. apply Hnull, parseId_unreadable, Hn.
  - intros Hs Hn. apply Hnum; [| exact Hn]. now apply parseId_readable.
  - intros text id Htext Hlead Hid. apply (Hint id Hid).
    rewrite Htext. now apply parseId_leading.
  - intros id Hv Hid. apply (Hint id Hid). rewrite Hv. now apply parseId_integer.
  - intros -> Hv.
    assert (E : parseId (VStr "55") = VNum (Fin (inject_Z 55)))
      by (apply parseId_leading; [reflexivity | lia]).
    rewrite Hv in Hint. rewrite (Hint 55 ltac:(lia) E). reflexivity.
Qed.

Lemma C6_detail_synthetic_pkey_witness :
  (exists row,
     processRecordsForTable (fun _ => "2024-05-01T06:00:00.000Z") "invoices_detailed"
       [ ∅; ∅; ∅; ∅; {[ "invoice_internal_id" := VStr "55" ]} ] !! 4%nat = Some row
     /\ get row "pkey" = VStr "55_5")
  /\ (exists row,
        processRecordsForTable (fun _ => "2024-05-01T06:00:00.000Z") "invoices_detailed"
          [ ∅; ∅; ∅; ∅; {[ "invoice_internal_id" := VStr "007" ]} ] !! 4%nat = Some row
        /\ get row "pkey" = VStr "7_5").
Proof.
  assert (Hin : In ("invoices_detailed", "invoice_internal_id") detail_tables)
    by (simpl; tauto).
  split.
  - assert (Hrec : [ ∅; ∅; ∅; ∅; {[ "invoice_internal_id" := VStr "55" ]} ] !! 4%nat
                   = Some ({[ "invoice_internal_id" := VStr "55" ]} : Obj))
      by reflexivity.
    assert (Hpkey : supplies {[ "invoice_internal_id" := VStr "55" ]} "pkey" = false)
      by (vm_compute; reflexivity).
    assert (Hline : supplies {[ "invoice_internal_id" := VStr "55" ]} "line_id" = false)
      by (vm_compute; reflexivity).
    destruct (C6_detail_synthetic_pkey (fun _ => "2024-05-01T06:00:00.000Z")
                _ _ _ _ _ Hin Hrec Hpkey Hline ltac:(lia))
      as (row & Hrow & _ & _ & _ & _ & _ & H55).
    exists row. split; [exact Hrow | apply H55; [reflexivity | vm_compute; reflexivity]].
  - assert (Hrec : [ ∅; ∅; ∅; ∅; {[ "invoice_internal_id" := VStr "007" ]} ] !! 4%nat
                   = Some ({[ "invoice_internal_id" := VStr "007" ]} : Obj))
      by reflexivity.
    assert (Hpkey : supplies {[ "invoice_internal_id" := VStr "007" ]} "pkey" = false)
      by (vm_compute; reflexivity).
    assert (Hline : supplies {[ "invoice_internal_id" := VStr "007" ]} "line_id" = false)
      by (vm_compute; reflexivity).
    destruct (C6_detail_synthetic_pkey (fun _ => "2024-05-01T06:00:00.000Z")
                _ _ _ _ _ Hin Hrec Hpkey Hline ltac:(lia))
      as (row & Hrow & _ & _ & _ & H & _).
    exists row. split; [exact Hrow |].
    rewrite (H "007" 7%Z); [reflexivity | vm_compute; reflexivity | reflexivity | lia].
Defined.
